(** * Order extraction and entity resolution: a shallow embedding

    The development follows the Python sources of the order-extraction
    pipeline:

    - [backend/utils/spanish_business_synonyms.py] (vocabularies),
    - [backend/utils/text_normalizer.py] (normalisation and score adjustments),
    - [backend/utils/database.py] ([fuzzy_match_customer]),
    - [backend/subagents/sku_extraction.py] (family/colour matching, SKU),
    - [backend/subagents/valve_detection.py], [backend/subagents/customer_id.py],
    - [backend/tasks/task_extract_data.py] ([process_single_email]).

    Python values are modelled as follows.  A [str] is a list of Unicode code
    points ([N]); comparison, [split], [join], [zfill], slicing and [len] are
    the ones of CPython.  An [int] is a [Z].  A [float] score is a rational
    ([Q]): every score of the pipeline is a quotient of small integers or a
    sum of two-decimal constants, and only comparisons between them are
    observed.  [None] is [option]'s [None]; a call that may raise returns an
    [outcome]. *)

From Stdlib Require Import List NArith ZArith QArith Qminmax Bool Lia Lqa.
From Stdlib Require Import String Ascii Permutation Sorted.
Import ListNotations.

Set Implicit Arguments.
Set Warnings "-register-all,-abstract-large-number".

Close Scope Q_scope.

(** ** The Python runtime *)

Module Py.

Local Open Scope N_scope.

Definition char := N.
Definition str := list char.

(** String literals of the sources are written [py "..."]. *)
Definition py (s : string) : str :=
  List.map N_of_ascii (list_ascii_of_string s).

Arguments py s%_string.

Definition char_eqb (a b : char) : bool := N.eqb a b.

Fixpoint str_eqb (a b : str) : bool :=
  match a, b with
  | [], [] => true
  | x :: a', y :: b' => char_eqb x y && str_eqb a' b'
  | _, _ => false
  end.

(** [a < b] on [str]: lexicographic on code points, a proper prefix first. *)
Fixpoint str_ltb (a b : str) : bool :=
  match a, b with
  | _, [] => false
  | [], _ :: _ => true
  | x :: a', y :: b' =>
      if N.ltb x y then true
      else if N.ltb y x then false
      else str_ltb a' b'
  end.

(** [min(a, b)]: the first argument unless the second is strictly smaller. *)
Definition min_str (a b : str) : str := if str_ltb b a then b else a.

(** [x in xs] for a list (or set, or dict keys) of strings. *)
Definition mem (x : str) (xs : list str) : bool := existsb (str_eqb x) xs.

(** [str.isspace] on one code point: the characters [str.split()] and
    [str.strip()] treat as white space, and the regular expression class
    [\s]. *)
Definition isspace (c : char) : bool :=
  ((9 <=? c) && (c <=? 13)) || ((28 <=? c) && (c <=? 32))
  || (c =? 133) || (c =? 160) || (c =? 5760)
  || ((8192 <=? c) && (c <=? 8202))
  || (c =? 8232) || (c =? 8233) || (c =? 8239) || (c =? 8287)
  || (c =? 12288).

(** [s.split()]: maximal runs of non-space characters.  [cur] holds the
    current run, most recent character first. *)
Fixpoint split_from (cur : str) (s : str) : list str :=
  match s with
  | [] => match cur with [] => [] | _ => [rev cur] end
  | c :: s' =>
      if isspace c
      then match cur with
           | [] => split_from [] s'
           | _ => rev cur :: split_from [] s'
           end
      else split_from (c :: cur) s'
  end.

Definition split (s : str) : list str := split_from [] s.

(** [sep.join(parts)]. *)
Fixpoint join (sep : str) (parts : list str) : str :=
  match parts with
  | [] => []
  | [p] => p
  | p :: rest => p ++ sep ++ join sep rest
  end.

Fixpoint lstrip (s : str) : str :=
  match s with
  | c :: s' => if isspace c then lstrip s' else s
  | [] => []
  end.

Definition rstrip (s : str) : str := rev (lstrip (rev s)).

(** [s.strip()]. *)
Definition strip (s : str) : str := rstrip (lstrip s).

(** Decimal digits of a natural number, most significant first. *)
Fixpoint digits_from (fuel : nat) (n : N) (acc : str) : str :=
  match fuel with
  | O => acc
  | S fuel' =>
      let acc' := (48 + n mod 10)%N :: acc in
      if (n / 10 =? 0)%N then acc' else digits_from fuel' (n / 10)%N acc'
  end.

Definition str_of_N (n : N) : str := digits_from (S (N.size_nat n)) n [].

(** [str(z)] for an [int]. *)
Definition str_of_int (z : Z) : str :=
  if (z <? 0)%Z then 45%N :: str_of_N (Z.abs_N z) else str_of_N (Z.to_N z).

(** [s.zfill(width)]: zeros are inserted after a leading sign. *)
Definition zfill (width : nat) (s : str) : str :=
  let fill := repeat 48 (width - List.length s)%nat in
  match s with
  | c :: rest =>
      if (c =? 43)%N || (c =? 45)%N then c :: fill ++ rest else fill ++ s
  | [] => fill
  end.

(** [s[:n]]. *)
Definition prefix (n : nat) (s : str) : str := firstn n s.

(** [s.replace(a, b)] for one-character [a] and [b]. *)
Definition replace_char (a b : char) (s : str) : str :=
  List.map (fun c => if c =? a then b else c) s.

(** [needle in hay] on strings. *)
Fixpoint starts_with (needle hay : str) : bool :=
  match needle, hay with
  | [], _ => true
  | x :: needle', y :: hay' => (x =? y) && starts_with needle' hay'
  | _ :: _, [] => false
  end.

Fixpoint contains (needle hay : str) : bool :=
  starts_with needle hay ||
  match hay with
  | [] => false
  | _ :: hay' => contains needle hay'
  end.

(** *** Character tables

    [str.lower], canonical decomposition (NFD) and the word class [\w] are
    tabulated for the code points up to U+00FF, which covers Spanish text;
    the combining marks U+0300 to U+036F are known as marks.  Any other
    code point is left as it is and counts as neither letter nor mark. *)

Definition lower_char (c : char) : char :=
  if ((65 <=? c) && (c <=? 90))
     || ((192 <=? c) && (c <=? 214)) || ((216 <=? c) && (c <=? 222))
  then c + 32 else c.

(** [s.lower()]. *)
Definition lower (s : str) : str := List.map lower_char s.

(** The base character of the canonical decomposition of [c]. *)
Definition nfd_base (c : char) : char :=
  if (192 <=? c) && (c <=? 197) then 65
  else if c =? 199 then 67
  else if (200 <=? c) && (c <=? 203) then 69
  else if (204 <=? c) && (c <=? 207) then 73
  else if c =? 209 then 78
  else if (210 <=? c) && (c <=? 214) then 79
  else if (217 <=? c) && (c <=? 220) then 85
  else if c =? 221 then 89
  else if (224 <=? c) && (c <=? 229) then 97
  else if c =? 231 then 99
  else if (232 <=? c) && (c <=? 235) then 101
  else if (236 <=? c) && (c <=? 239) then 105
  else if c =? 241 then 110
  else if (242 <=? c) && (c <=? 246) then 111
  else if (249 <=? c) && (c <=? 252) then 117
  else if (c =? 253) || (c =? 255) then 121
  else c.

(** Unicode category [Mn] (non-spacing mark). *)
Definition is_mark (c : char) : bool := (768 <=? c) && (c <=? 879).

(** [str.isdigit] on ASCII digits. *)
Definition is_ascii_digit (c : char) : bool := (48 <=? c) && (c <=? 57).

(** The class [\w]: alphanumeric or underscore. *)
Definition is_word (c : char) : bool :=
  is_ascii_digit c || ((65 <=? c) && (c <=? 90)) || ((97 <=? c) && (c <=? 122))
  || (c =? 95) || (c =? 170) || (c =? 178) || (c =? 179) || (c =? 181)
  || (c =? 185) || (c =? 186) || ((188 <=? c) && (c <=? 190))
  || ((192 <=? c) && (c <=? 214)) || ((216 <=? c) && (c <=? 246))
  || ((248 <=? c) && (c <=? 255)).

(** The distinct elements of [xs] in the order of their first occurrence:
    the loop [if x not in seen: seen.add(x); out.append(x)]. *)
Fixpoint distinct (seen : list str) (xs : list str) : list str :=
  match xs with
  | [] => []
  | x :: xs' =>
      if mem x seen then distinct seen xs' else x :: distinct (x :: seen) xs'
  end.

(** [set(xs)], kept as the list of its elements; no result below depends
    on the order in which a set is iterated. *)
Definition set_of (xs : list str) : list str := distinct [] xs.

(** [a & b] and [a - b] on sets. *)
Definition set_inter (a b : list str) : list str :=
  List.filter (fun x => mem x b) a.

Definition set_diff (a b : list str) : list str :=
  List.filter (fun x => negb (mem x b)) a.

(** [d.get(key)] on a dict kept as its items. *)
Fixpoint dict_get (d : list (str * str)) (key : str) : option str :=
  match d with
  | [] => None
  | (k, v) :: d' => if str_eqb key k then Some v else dict_get d' key
  end.

(** [list.sort()] and [sorted] on strings, as an insertion sort that
    compares with [<] only; strings that compare equal are the same
    string, so the order among them is not observable. *)
Fixpoint place (x : str) (sorted : list str) : list str :=
  match sorted with
  | [] => [x]
  | y :: rest => if str_ltb x y then x :: sorted else y :: place x rest
  end.

Definition sort (xs : list str) : list str :=
  fold_right place [] xs.

(** [x > y] and [x >= y] on scores. *)
Definition Qgtb (x y : Q) : bool := negb (Qle_bool x y).
Definition Qgeb (x y : Q) : bool := Qle_bool y x.

(** The result of a call that may raise; [Raised] carries [str(e)]. *)
Inductive outcome (A : Type) : Type :=
| Returned (a : A)
| Raised (msg : str).

Arguments Returned {A} a.
Arguments Raised {A} msg.

End Py.

Import Py.

(** ** Regular expressions of the [re] module

    Every pattern of the sources is a sequence of greedy repetitions of a
    character class ([x], [x?], [\s*], [\s+], [\*{0,2}], [[^>]+], ...) and of
    word boundaries [\b].  Matching is by backtracking in the priority order
    of [re]: a repetition first takes as many characters as it can and gives
    them back one at a time. *)

Module Re.

Inductive atom : Type :=
| Rep (cls : char -> bool) (lo : nat) (hi : option nat)
| Bnd.

Definition regex := list atom.

(** One literal character; [icase] is the flag [re.IGNORECASE]. *)
Definition lit (icase : bool) (c : char) : atom :=
  Rep (fun x => if icase then N.eqb (lower_char x) (lower_char c)
                else N.eqb x c) 1 (Some 1).

Definition opt (icase : bool) (c : char) : atom :=
  Rep (fun x => if icase then N.eqb (lower_char x) (lower_char c)
                else N.eqb x c) 0 (Some 1).

Definition star (cls : char -> bool) : atom := Rep cls 0 None.
Definition plus (cls : char -> bool) : atom := Rep cls 1 None.

(** [re.escape(s)] as a pattern. *)
Definition literal (icase : bool) (s : str) : regex := List.map (lit icase) s.

Definition word_of (o : option char) : bool :=
  match o with Some c => is_word c | None => false end.

(** [\b] holds between [prev] and the head of [s]. *)
Definition at_boundary (prev : option char) (s : str) : bool :=
  xorb (word_of prev) (word_of (hd_error s)).

Definition below (n : nat) (hi : option nat) : bool :=
  match hi with Some h => Nat.ltb n h | None => true end.

(** [match_here r prev s]: the match of [r] at the head of [s], where
    [prev] is the character before it; the character before the end of the
    match and the text after it. *)
Fixpoint match_here (r : regex) (prev : option char) (s : str)
  : option (option char * str) :=
  match r with
  | [] => Some (prev, s)
  | Bnd :: r' => if at_boundary prev s then match_here r' prev s else None
  | Rep cls lo hi :: r' =>
      (fix rep (n : nat) (prev : option char) (s : str) {struct s}
         : option (option char * str) :=
         let stop := if Nat.leb lo n then match_here r' prev s else None in
         match s with
         | c :: s' =>
             if cls c && below n hi
             then match rep (S n) (Some c) s' with
                  | Some m => Some m
                  | None => stop
                  end
             else stop
         | [] => stop
         end) O prev s
  end.

(** [pattern.match(s)]: the text after the match at the start of [s]. *)
Definition match_start (r : regex) (s : str) : option str :=
  option_map snd (match_here r None s).

(** [pattern.search(s)]: the matched text, [group(0)], of the leftmost
    match and the text after it, [s[m.end():]]. *)
Fixpoint search_from (r : regex) (prev : option char) (s : str)
  : option (str * str) :=
  match match_here r prev s with
  | Some (_, rest) => Some (firstn (List.length s - List.length rest) s, rest)
  | None =>
      match s with
      | [] => None
      | c :: s' => search_from r (Some c) s'
      end
  end.

Definition search (r : regex) (s : str) : option (str * str) :=
  search_from r None s.

Definition found (r : regex) (s : str) : bool :=
  match search r s with Some _ => true | None => false end.

(** [re.sub(r, repl, s)] for a pattern that consumes at least one
    character, as all patterns of the sources do. *)
Fixpoint sub_from (fuel : nat) (r : regex) (repl : str)
    (prev : option char) (s : str) : str :=
  match fuel, s with
  | S fuel', c :: s' =>
      match match_here r prev s with
      | Some (prev', rest) =>
          if Nat.ltb (List.length rest) (List.length s)
          then repl ++ sub_from fuel' r repl prev' rest
          else c :: sub_from fuel' r repl (Some c) s'
      | None => c :: sub_from fuel' r repl (Some c) s'
      end
  | _, _ => s
  end.

Definition sub (r : regex) (repl : str) (s : str) : str :=
  sub_from (List.length s) r repl None s.

End Re.

(** ** [difflib.SequenceMatcher]

    [SequenceMatcher(None, a, b)] of the standard library, with no junk
    predicate and the default [autojunk]: its [ratio()] is used by
    [fuzzy_match_family] and [fuzzy_match_color]. *)

Module Difflib.

(** A [Match(a, b, size)]. *)
Definition block := (nat * nat * nat)%type.

Definition size_of (m : block) : nat := snd m.

(** The elements [__chain_b] purges as popular: in a [b] of 200 elements or
    more, those that occur more than [len(b) // 100 + 1] times. *)
Definition popular (b : str) (c : char) : bool :=
  Nat.leb 200 (List.length b)
  && Nat.ltb (List.length b / 100 + 1)
             (List.length (List.filter (N.eqb c) b)).

(** One pass of the inner loop of [find_longest_match] for the element
    [ai] of [a] at index [i]: [j2len] is the previous row, [diag] its entry
    at [j - 1]; the new row and the best block so far. *)
Fixpoint row (keep : char -> bool) (ai : char) (i blo bhi j : nat)
    (b : str) (diag : nat) (j2len : list nat) (best : block)
  : list nat * block :=
  match b with
  | [] => ([], best)
  | bj :: b' =>
      let k :=
        if Nat.leb blo j && Nat.ltb j bhi && N.eqb bj ai && keep bj
        then S diag else O in
      let best :=
        if Nat.ltb (size_of best) k
        then (i + 1 - k, j + 1 - k, k) else best in
      let (rest, best) :=
        row keep ai i blo bhi (S j) b' (hd O j2len) (tl j2len) best in
      (k :: rest, best)
  end.

Fixpoint rows (keep : char -> bool) (blo bhi : nat) (b : str) (i : nat)
    (a : str) (j2len : list nat) (best : block) : block :=
  match a with
  | [] => best
  | ai :: a' =>
      let (newj2len, best) := row keep ai i blo bhi O b O j2len best in
      rows keep blo bhi b (S i) a' newj2len best
  end.

(** The two loops that extend the best block by matching elements on each
    end (the junk set is empty, so the loops on junk do nothing). *)
Fixpoint extend_left (fuel : nat) (a b : str) (alo blo : nat) (m : block)
  : block :=
  let '(besti, bestj, bestsize) := m in
  match fuel with
  | O => m
  | S fuel' =>
      if Nat.ltb alo besti && Nat.ltb blo bestj
         && N.eqb (nth (besti - 1) a 0%N) (nth (bestj - 1) b 0%N)
      then extend_left fuel' a b alo blo (besti - 1, bestj - 1, S bestsize)
      else m
  end.

Fixpoint extend_right (fuel : nat) (a b : str) (ahi bhi : nat) (m : block)
  : block :=
  let '(besti, bestj, bestsize) := m in
  match fuel with
  | O => m
  | S fuel' =>
      if Nat.ltb (besti + bestsize) ahi && Nat.ltb (bestj + bestsize) bhi
         && N.eqb (nth (besti + bestsize) a 0%N) (nth (bestj + bestsize) b 0%N)
      then extend_right fuel' a b ahi bhi (besti, bestj, S bestsize)
      else m
  end.

(** [find_longest_match(alo, ahi, blo, bhi)]. *)
Definition find_longest_match (a b : str) (alo ahi blo bhi : nat) : block :=
  let keep := fun c => negb (popular b c) in
  let best :=
    rows keep blo bhi b alo (firstn (ahi - alo) (skipn alo a))
         (repeat O (List.length b)) (alo, blo, O) in
  let best := extend_left (List.length a) a b alo blo best in
  extend_right (List.length a) a b ahi bhi best.

(** The sum of the sizes of [get_matching_blocks()]: the longest block of
    the range, then the ranges on its left and on its right.  Each range is
    shorter than the one it comes from, so [fuel = len(a)] is enough. *)
Fixpoint matches (fuel : nat) (a b : str) (alo ahi blo bhi : nat) : nat :=
  match fuel with
  | O => O
  | S fuel' =>
      let '(i, j, k) := find_longest_match a b alo ahi blo bhi in
      match k with
      | O => O
      | _ =>
          k
          + (if Nat.ltb alo i && Nat.ltb blo j
             then matches fuel' a b alo i blo j else O)
          + (if Nat.ltb (i + k) ahi && Nat.ltb (j + k) bhi
             then matches fuel' a b (i + k) ahi (j + k) bhi else O)
      end
  end.

(** [SequenceMatcher(None, a, b).ratio()], which is
    [2.0 * matches / (len(a) + len(b))], and [1.0] for two empty strings. *)
Definition ratio (a b : str) : Q :=
  let total := List.length a + List.length b in
  match total with
  | O => 1%Q
  | _ =>
      let m := matches (List.length a) a b O (List.length a) O (List.length b) in
      (Z.of_nat (2 * m) # Pos.of_nat total)%Q
  end.

End Difflib.

(** ** [rapidfuzz.fuzz.token_set_ratio]

    The scorer of the customer matcher, called with no processor and no
    score cutoff; its value is a percentage. *)

Module Fuzz.

Definition is_nil (A : Type) (xs : list A) : bool :=
  match xs with [] => true | _ => false end.

(** Length of a longest common subsequence, row by row. *)
Fixpoint lcs_row (x : char) (b : str) (prev : list nat) (diag left : nat)
  : list nat :=
  match b, prev with
  | y :: b', up :: prev' =>
      let v := if N.eqb x y then S diag else Nat.max up left in
      v :: lcs_row x b' prev' up v
  | _, _ => []
  end.

Definition lcs (a b : str) : nat :=
  last (fold_left (fun prev x => lcs_row x b prev O O) a
                  (repeat O (List.length b))) O.

(** Insertions and deletions needed to turn [a] into [b]. *)
Definition indel_distance (a b : str) : nat :=
  List.length a + List.length b - 2 * lcs a b.

(** [100 - 100 * dist / lensum], and [100] when [lensum] is [0]. *)
Definition norm_distance (dist lensum : nat) : Q :=
  match lensum with
  | O => 100%Q
  | _ => (100 - (Z.of_nat (100 * dist) # Pos.of_nat lensum))%Q
  end.

Definition Qmax3 (x y z : Q) : Q := Qmax (Qmax x y) z.

(** [token_set_ratio(s1, s2)]. *)
Definition token_set_ratio (s1 s2 : str) : Q :=
  match s1, s2 with
  | [], _ | _, [] => 0%Q
  | _, _ =>
      let tokens_a := set_of (split s1) in
      let tokens_b := set_of (split s2) in
      match tokens_a, tokens_b with
      | [], _ | _, [] => 0%Q
      | _, _ =>
          let intersect := set_inter tokens_a tokens_b in
          let diff_ab := set_diff tokens_a tokens_b in
          let diff_ba := set_diff tokens_b tokens_a in
          (* one sentence is part of the other one *)
          if negb (is_nil intersect) && (is_nil diff_ab || is_nil diff_ba)
          then 100%Q
          else
            let diff_ab_joined := join [32%N] (sort diff_ab) in
            let diff_ba_joined := join [32%N] (sort diff_ba) in
            let ab_len := List.length diff_ab_joined in
            let ba_len := List.length diff_ba_joined in
            let sect_len := List.length (join [32%N] intersect) in
            let sep := if Nat.eqb sect_len O then O else 1 in
            let sect_ab_len := sect_len + sep + ab_len in
            let sect_ba_len := sect_len + sep + ba_len in
            let dist := indel_distance diff_ab_joined diff_ba_joined in
            let result := norm_distance dist (sect_ab_len + sect_ba_len) in
            if Nat.eqb sect_len O then result
            else
              let sect_ab_dist := sep + ab_len in
              let sect_ab_ratio :=
                norm_distance sect_ab_dist (sect_len + sect_ab_len) in
              let sect_ba_dist := sep + ba_len in
              let sect_ba_ratio :=
                norm_distance sect_ba_dist (sect_len + sect_ba_len) in
              Qmax3 result sect_ab_ratio sect_ba_ratio
      end
  end.

End Fuzz.

(** ** [backend/utils/spanish_business_synonyms.py] *)

(** A [dict] literal is kept as its list of items, in insertion order. *)
Definition BUSINESS_TYPE_SYNONYMS : list (str * str) :=
  [ (py "almacenes", py "materiales");
    (py "almacen", py "materiales");
    (py "suministros", py "materiales");
    (py "distribuciones", py "distribuidor");
    (py "distribuidora", py "distribuidor");
    (py "construcciones", py "construccion");
    (py "comercial", py "comercio") ].

Definition dot : char := 46%N.
Definition comma : char := 44%N.
Definition space : char := 32%N.

(** The patterns [\bS\.X\.?\b], [\bS\.X\.Y\.?\b] and [\b,\s*S\.X\.?\b]. *)
Definition suffix2 (x : char) (icase : bool) : Re.regex :=
  [Re.Bnd; Re.lit icase 83%N; Re.lit icase dot; Re.lit icase x;
   Re.opt icase dot; Re.Bnd].

Definition suffix3 (x y : char) (icase : bool) : Re.regex :=
  [Re.Bnd; Re.lit icase 83%N; Re.lit icase dot; Re.lit icase x;
   Re.lit icase dot; Re.lit icase y; Re.opt icase dot; Re.Bnd].

Definition comma_suffix2 (x : char) (icase : bool) : Re.regex :=
  [Re.Bnd; Re.lit icase comma; Re.star isspace; Re.lit icase 83%N;
   Re.lit icase dot; Re.lit icase x; Re.opt icase dot; Re.Bnd].

Definition LEGAL_ENTITY_PATTERNS : list ((bool -> Re.regex) * str) :=
  [ (suffix3 76%N 85%N, py "SL");
    (suffix2 76%N, py "SL");
    (comma_suffix2 76%N, py " SL");
    (suffix2 65%N, py "SA");
    (comma_suffix2 65%N, py " SA");
    (suffix2 67%N, py "SC");
    (suffix3 76%N 76%N, py "SL") ].

(** Compiled with [re.IGNORECASE]. *)
Definition COMPILED_LEGAL_ENTITY_PATTERNS : list (Re.regex * str) :=
  List.map (fun pr => (fst pr true, snd pr)) LEGAL_ENTITY_PATTERNS.

Definition BUYING_GROUP_KEYWORDS : list str :=
  [py "gamma"; py "gremio"; py "grupo"; py "cadena"; py "asociacion"].

Definition SPANISH_GENDERED_NAMES : list (str * str) :=
  [ (py "antonio", py "antonia"); (py "francisco", py "francisca");
    (py "jose", py "josefa"); (py "juan", py "juana");
    (py "carlos", py "carla"); (py "daniel", py "daniela");
    (py "pablo", py "paula"); (py "angel", py "angela");
    (py "manuel", py "manuela"); (py "andres", py "andrea");
    (py "mario", py "maria"); (py "alejandro", py "alejandra");
    (py "roberto", py "roberta"); (py "alberto", py "alberta");
    (py "fernando", py "fernanda"); (py "luis", py "luisa");
    (py "miguel", py "miguela"); (py "rafael", py "rafaela");
    (py "sergio", py "sergia"); (py "diego", py "diega");
    (py "antonia", py "antonio"); (py "francisca", py "francisco");
    (py "josefa", py "jose"); (py "juana", py "juan");
    (py "carla", py "carlos"); (py "daniela", py "daniel");
    (py "paula", py "pablo"); (py "angela", py "angel");
    (py "manuela", py "manuel"); (py "andrea", py "andres");
    (py "maria", py "mario"); (py "alejandra", py "alejandro");
    (py "roberta", py "roberto"); (py "alberta", py "alberto");
    (py "fernanda", py "fernando"); (py "luisa", py "luis");
    (py "miguela", py "miguel"); (py "rafaela", py "rafael");
    (py "sergia", py "sergio"); (py "diega", py "diego") ].

Definition COMMON_SPANISH_GIVEN_NAMES : list str :=
  List.map py
    [ "maria"; "jose"; "antonio"; "francisco"; "juan"; "manuel"; "david";
      "jesus"; "javier"; "daniel"; "carlos"; "miguel"; "rafael"; "pedro";
      "angel"; "alejandro"; "fernando"; "pablo"; "sergio"; "jorge"; "luis";
      "antonia"; "ana"; "carmen"; "dolores"; "isabel"; "pilar"; "josefa";
      "francisca"; "rosa"; "teresa"; "mercedes"; "cristina"; "laura"; "marta";
      "paula"; "lucia"; "andrea"; "sara"; "elena"; "patricia"; "raquel"
    ]%string.

Definition COMMON_SPANISH_SURNAMES : list str :=
  List.map py
    [ "garcia"; "rodriguez"; "martinez"; "lopez"; "gonzalez"; "hernandez";
      "perez"; "sanchez"; "ramirez"; "torres"; "flores"; "rivera"; "gomez";
      "diaz"; "cruz"; "morales"; "reyes"; "gutierrez"; "ortiz"; "chavez";
      "ruiz"; "alvarez"; "castillo"; "jimenez"; "moreno"; "romero"; "vargas";
      "fernandez"; "suarez"; "ramos"; "vazquez"; "mendez"; "castro"; "rojas";
      "barroso"; "sevilla"; "navarro"; "medina"; "aguilar"; "cortes"; "silva"
    ]%string.

(** ** [backend/utils/text_normalizer.py] *)

(** [remove_accents]: decompose, then drop the marks. *)
Definition remove_accents (text : str) : str :=
  List.filter (fun c => negb (is_mark c)) (List.map nfd_base text).

(** The pattern [r'\b' + re.escape(word) + r'\b']. *)
Definition whole_word (icase : bool) (word : str) : Re.regex :=
  Re.Bnd :: Re.literal icase word ++ [Re.Bnd].

(** [normalize_business_name].  No step of the [try] block raises on a
    [str], so the [except] branch is not reached. *)
Definition normalize_business_name (text : str) : str :=
  (* Step 1: lowercase, remove accents, strip *)
  let normalized := remove_accents (strip (lower text)) in
  (* Step 2: business type synonyms, in the order of the dict *)
  let normalized :=
    fold_left
      (fun normalized syn =>
         Re.sub (whole_word true (fst syn)) (snd syn) normalized)
      BUSINESS_TYPE_SYNONYMS normalized in
  (* Step 3: legal entity suffixes *)
  let normalized :=
    fold_left
      (fun normalized pr => Re.sub (fst pr) (snd pr) normalized)
      COMPILED_LEGAL_ENTITY_PATTERNS normalized in
  (* Step 4: commas to spaces, runs of white space to one space *)
  let normalized := replace_char comma space normalized in
  let normalized := Re.sub [Re.plus isspace] [space] normalized in
  (* Step 5 *)
  strip normalized.

(** [extract_buying_group_keywords]. *)
Definition extract_buying_group_keywords (text : str) : list str :=
  let text_lower := lower text in
  List.filter (fun keyword => Re.found (whole_word false keyword) text_lower)
    BUYING_GROUP_KEYWORDS.

(** [calculate_boosted_similarity]. *)
Definition calculate_boosted_similarity (normalized_text1 normalized_text2 : str)
    (keywords1 keywords2 : list str) (base_score : Q) : Q :=
  match keywords1, keywords2 with
  | [], _ | _, [] => base_score
  | _, _ =>
      let matched_keywords := set_inter (set_of keywords1) (set_of keywords2) in
      match matched_keywords with
      | [] => base_score
      | _ =>
          let boost :=
            if Nat.eqb (List.length matched_keywords) 1
            then (10 # 100)%Q else (15 # 100)%Q in
          Qmin (base_score + boost)%Q 1%Q
      end
  end.

(** The literal patterns of [is_personal_name], searched with
    [re.IGNORECASE]. *)
Definition legal_entity_patterns : list Re.regex :=
  List.map (fun w => whole_word true (py w))
    ["sl"; "sa"; "sc"; "s.l"; "s.a"; "s.c"; "s.l.u"; "s.l.l"; "slu"; "sll"]%string.

(** [is_personal_name]. *)
Definition is_personal_name (text : str) : bool :=
  (* Check 1: legal entity suffix *)
  if existsb (fun pattern => Re.found pattern text) legal_entity_patterns
  then false
  else
    (* Check 2: token count *)
    let tokens := split text in
    if Nat.ltb 6 (List.length tokens) then false
    else
      (* Check 3: business keywords *)
      let business_keywords :=
        List.map fst BUSINESS_TYPE_SYNONYMS ++ List.map snd BUSINESS_TYPE_SYNONYMS
        ++ List.map py ["construccion"; "materiales"; "distribuidor";
                        "comercio"; "suministros"]%string in
      let text_lower := lower text in
      if existsb (fun keyword => contains keyword text_lower) business_keywords
      then false
      else true.

(** Step 2 of [normalize_personal_name] on one token. *)
Definition normalize_token (token : str) : str :=
  match dict_get SPANISH_GENDERED_NAMES token with
  | Some variant => min_str token variant
  | None => token
  end.

(** [normalize_personal_name].  No step of the [try] block raises on a
    [str]. *)
Definition normalize_personal_name (text : str) : str :=
  (* Step 1 *)
  let tokens := split text in
  (* Step 2 *)
  let normalized_tokens := List.map normalize_token tokens in
  (* Step 3 *)
  let normalized_tokens := sort normalized_tokens in
  (* Step 4 *)
  let unique_tokens := distinct [] normalized_tokens in
  (* Step 5 *)
  join [space] unique_tokens.

(** [sum(1 for token in tokens if token in names)]. *)
Definition count_in (names tokens : list str) : nat :=
  List.length (List.filter (fun token => mem token names) tokens).

(** [calculate_weighted_token_similarity]. *)
Definition calculate_weighted_token_similarity (text1 text2 : str)
    (base_score : Q) : Q :=
  let tokens1 := set_of (split text1) in
  let tokens2 := set_of (split text2) in
  let common_tokens := set_inter tokens1 tokens2 in
  match common_tokens with
  | [] => base_score
  | _ =>
      let surname_matches := count_in COMMON_SPANISH_SURNAMES common_tokens in
      let given_name_matches :=
        count_in COMMON_SPANISH_GIVEN_NAMES common_tokens in
      let surname_boost :=
        Qmin (inject_Z (Z.of_nat surname_matches) * (3 # 100))%Q (6 # 100)%Q in
      if Nat.ltb 0 surname_matches
      then Qmin (base_score + surname_boost)%Q 1%Q
      else if Nat.ltb 0 given_name_matches
      then
        let given_name_penalty :=
          Qmin (inject_Z (Z.of_nat given_name_matches) * (2 # 100))%Q
               (4 # 100)%Q in
        Qmax (base_score - given_name_penalty)%Q 0%Q
      else base_score
  end.

(** ** [backend/subagents/sku_extraction.py]: SKU composition *)

(** [COLOR_SYNONYMS]. *)
Definition COLOR_SYNONYMS : list (str * str) :=
  [ (py "gris claro", py "gris perla");
    (py "gris clara", py "gris perla");
    (py "gris light", py "gris perla");
    (py "light grey", py "gris perla");
    (py "light gray", py "gris perla");
    (py "gris oscuro", py "gris");
    (py "gris oscura", py "gris");
    (py "dark grey", py "gris");
    (py "dark gray", py "gris") ].

(** The default of the parameter [threshold] of [fuzzy_match_family],
    [fuzzy_match_color] and [fuzzy_match_customer]. *)
Definition default_threshold : Q := (6 # 10)%Q.

(** An omitted [threshold] argument is [None]. *)
Definition threshold_or_default (threshold : option Q) : Q :=
  match threshold with Some t => t | None => default_threshold end.

Record family_match_details : Type := {
  fm_best_score : Q;
  fm_closest_family : option str;
  fm_threshold_used : Q;
  fm_input_text : str
}.

(** The state of the loop of [fuzzy_match_family]:
    [best_score], [best_prefix], [best_family_desc]. *)
Definition family_best := (Q * option str * option str)%type.

Definition family_step (family_text_lower : str) (best : family_best)
    (family : str * str) : family_best :=
  let '(best_score, best_prefix, best_family_desc) := best in
  let '(family_desc, prefix) := family in
  let family_desc_lower := strip (lower family_desc) in
  let score := Difflib.ratio family_text_lower family_desc_lower in
  if Qgtb score best_score
  then (score, Some prefix, Some family_desc)
  else best.

(** [fuzzy_match_family]. *)
Definition fuzzy_match_family (family_text : str) (families : list (str * str))
    (threshold : option Q)
  : option str * option str * family_match_details :=
  let threshold := threshold_or_default threshold in
  let family_text_lower := strip (lower family_text) in
  let '(best_score, best_prefix, best_family_desc) :=
    fold_left (family_step family_text_lower) families (0%Q, None, None) in
  let match_details :=
    {| fm_best_score := best_score;
       fm_closest_family := best_family_desc;
       fm_threshold_used := threshold;
       fm_input_text := family_text |} in
  if Qgeb best_score threshold
  then (best_prefix, best_family_desc, match_details)
  else (None, None, match_details).

Record color_match_details : Type := {
  cm_best_score : Q;
  cm_closest_color : option str;
  cm_threshold_used : Q;
  cm_input_text : str
}.

(** The state of the loop of [fuzzy_match_color]:
    [best_score], [best_code], [best_color_desc]. *)
Definition color_best := (Q * option str * option str)%type.

Definition color_step (color_text_lower : str) (best : color_best)
    (color : str * str) : color_best :=
  let '(best_score, best_code, best_color_desc) := best in
  let '(color_desc, colorcode) := color in
  let color_desc_lower := strip (lower color_desc) in
  let score := Difflib.ratio color_text_lower color_desc_lower in
  if Qgtb score best_score
  then (score, Some colorcode, Some color_desc)
  else best.

(** [fuzzy_match_color]. *)
Definition fuzzy_match_color (color_text : str) (colors : list (str * str))
    (threshold : option Q) : option str * color_match_details :=
  let threshold := threshold_or_default threshold in
  let color_text_lower := strip (lower color_text) in
  (* known colour synonyms first *)
  let color_text_lower :=
    match dict_get COLOR_SYNONYMS color_text_lower with
    | Some canonical_color => canonical_color
    | None => color_text_lower
    end in
  let '(best_score, best_code, best_color_desc) :=
    fold_left (color_step color_text_lower) colors (0%Q, None, None) in
  let match_details :=
    {| cm_best_score := best_score;
       cm_closest_color := best_color_desc;
       cm_threshold_used := threshold;
       cm_input_text := color_text |} in
  if Qgeb best_score threshold
  then (best_code, match_details)
  else (None, match_details).

(** [construct_sku]: the source returns [None] when the composed text is not
    13 characters long. *)
Definition construct_sku (family_prefix : str) (length width : Z)
    (color_code : str) : option str :=
  let '(length, width) :=
    if (width >? length)%Z then (width, length) else (length, width) in
  let length_str := zfill 3 (str_of_int length) in
  let width_str := zfill 3 (str_of_int width) in
  let sku := family_prefix ++ length_str ++ width_str ++ color_code in
  if Nat.eqb (List.length sku) 13 then Some sku else None.


(** ** [backend/utils/database.py]: the customer matcher *)

(** An entry of [_normalized_customers_cache]. *)
Record cached_customer : Type := {
  cc_original : str;
  cc_normalized : str;
  cc_keywords : list str;
  cc_is_personal : bool
}.

(** The cache is a dict from customer id to entry, in insertion order. *)
Definition customer_cache := list (Z * cached_customer).

(** [cache[customer_id] = data]. *)
Fixpoint cache_set (cache : customer_cache) (customer_id : Z)
    (data : cached_customer) : customer_cache :=
  match cache with
  | [] => [(customer_id, data)]
  | (k, v) :: cache' =>
      if Z.eqb k customer_id then (k, data) :: cache'
      else (k, v) :: cache_set cache' customer_id data
  end.

(** The body of the loop of [_initialize_customer_cache]. *)
Definition cache_customer (cache : customer_cache) (row : Z * str)
  : customer_cache :=
  let '(customer_id, db_customer_name) := row in
  let db_name_clean := remove_accents (strip (lower db_customer_name)) in
  let is_personal := is_personal_name db_name_clean in
  let db_name_normalized :=
    if is_personal then normalize_personal_name db_name_clean
    else normalize_business_name db_name_clean in
  let db_keywords :=
    if negb is_personal then extract_buying_group_keywords db_name_clean
    else [] in
  cache_set cache customer_id
    {| cc_original := db_customer_name;
       cc_normalized := db_name_normalized;
       cc_keywords := db_keywords;
       cc_is_personal := is_personal |}.

(** [_initialize_customer_cache], on the rows [get_all_customers()]
    returned. *)
Definition _initialize_customer_cache (all_customers : list (Z * str))
  : customer_cache :=
  fold_left cache_customer all_customers [].

(** [match_details]; the three last keys are absent from the dict returned
    for an empty list of names. *)
Record match_details : Type := {
  md_best_score : Q;
  md_best_match_name : option str;
  md_best_match_id : option Z;
  md_threshold_used : Q;
  md_matched_input : option str;
  md_base_score : option Q;
  md_buying_group_boost : option Q;
  md_keywords_matched : option (list str)
}.

(** The variables [best_*] of the loops of [fuzzy_match_customer]. *)
Record best_so_far : Type := {
  best_match : option str;
  best_score : Q;
  best_customer_id : option Z;
  best_customer_name : option str;
  best_base_score : Q;
  best_boost : Q;
  best_keywords_matched : list str
}.

Definition no_best : best_so_far :=
  {| best_match := None; best_score := 0%Q; best_customer_id := None;
     best_customer_name := None; best_base_score := 0%Q;
     best_boost := 0%Q; best_keywords_matched := [] |}.

(** The instance of [DatabaseHelper]: its lazily built cache. *)
Record DatabaseHelper : Type := {
  _normalized_customers_cache : option customer_cache
}.

Section CustomerMatcher.

(** [rapidfuzz.distance.JaroWinkler.normalized_similarity] with
    [prefix_weight = 0.15], a scorer of the library; nothing below depends
    on its values. *)
Variable jaro_winkler : str -> str -> Q.

(** [calculate_jaro_winkler_similarity] of [text_normalizer.py]. *)
Definition calculate_jaro_winkler_similarity (text1 text2 : str) : Q :=
  jaro_winkler text1 text2.

(** The scores of one pair in the inner loop of [fuzzy_match_customer]:
    [(final_score, base_score, boost)]. *)
Definition score_pair (potential_name_normalized : str)
    (potential_is_personal : bool) (potential_keywords : list str)
    (cached_data : cached_customer) : Q * Q * Q :=
  let db_name_normalized := cc_normalized cached_data in
  let db_keywords := cc_keywords cached_data in
  let db_is_personal := cc_is_personal cached_data in
  let token_score :=
    (Fuzz.token_set_ratio potential_name_normalized db_name_normalized
     / 100)%Q in
  let base_score :=
    if Qgeb token_score (70 # 100)%Q
    then
      let jaro_score :=
        calculate_jaro_winkler_similarity potential_name_normalized
          db_name_normalized in
      Qmax token_score jaro_score
    else token_score in
  if potential_is_personal && db_is_personal
  then
    let final_score :=
      calculate_weighted_token_similarity potential_name_normalized
        db_name_normalized base_score in
    (final_score, base_score, (final_score - base_score)%Q)
  else if negb potential_is_personal && negb db_is_personal
  then
    let final_score :=
      calculate_boosted_similarity potential_name_normalized
        db_name_normalized potential_keywords db_keywords base_score in
    (final_score, base_score, (final_score - base_score)%Q)
  else (base_score, base_score, 0%Q).

(** The inner loop body: one cached customer. *)
Definition match_customer (potential_name potential_name_normalized : str)
    (potential_is_personal : bool) (potential_keywords : list str)
    (best : best_so_far) (entry : Z * cached_customer) : best_so_far :=
  let '(customer_id, cached_data) := entry in
  let '(final_score, base_score, boost) :=
    score_pair potential_name_normalized potential_is_personal
      potential_keywords cached_data in
  if Qgtb final_score (best_score best)
  then
    {| best_match := Some potential_name;
       best_score := final_score;
       best_customer_id := Some customer_id;
       best_customer_name := Some (cc_original cached_data);
       best_base_score := base_score;
       best_boost := boost;
       best_keywords_matched :=
         match potential_keywords, cc_keywords cached_data with
         | [], _ | _, [] => []
         | _, _ =>
             set_inter (set_of potential_keywords)
               (set_of (cc_keywords cached_data))
         end |}
  else best.

(** The outer loop body: one potential name against the whole cache. *)
Definition match_name (cache : customer_cache) (best : best_so_far)
    (potential_name : str) : best_so_far :=
  let potential_name_clean :=
    remove_accents (strip (lower potential_name)) in
  let potential_is_personal := is_personal_name potential_name_clean in
  let potential_name_normalized :=
    if potential_is_personal
    then normalize_personal_name potential_name_clean
    else normalize_business_name potential_name_clean in
  let potential_keywords :=
    if potential_is_personal then []
    else extract_buying_group_keywords potential_name_clean in
  fold_left
    (match_customer potential_name potential_name_normalized
       potential_is_personal potential_keywords)
    cache best.

(** [fuzzy_match_customer]: [get_all_customers] is what the query of the
    registry returns, or the exception it raises; it is used on the first
    call only.  The helper is returned with its cache. *)
Definition fuzzy_match_customer (self : DatabaseHelper)
    (get_all_customers : outcome (list (Z * str)))
    (potential_names : list str) (threshold : option Q)
  : outcome (option Z * option str * match_details) * DatabaseHelper :=
  let threshold := threshold_or_default threshold in
  match potential_names with
  | [] =>
      (Returned (None, None,
                 {| md_best_score := 0%Q; md_best_match_name := None;
                    md_best_match_id := None; md_threshold_used := threshold;
                    md_matched_input := None; md_base_score := None;
                    md_buying_group_boost := None;
                    md_keywords_matched := None |}), self)
  | _ =>
      let initialized :=
        match _normalized_customers_cache self with
        | Some cache => Returned cache
        | None =>
            match get_all_customers with
            | Returned all_customers =>
                Returned (_initialize_customer_cache all_customers)
            | Raised e => Raised e
            end
        end in
      match initialized with
      | Raised e => (Raised e, self)
      | Returned cache =>
          let self := {| _normalized_customers_cache := Some cache |} in
          let best := fold_left (match_name cache) potential_names no_best in
          let match_details :=
            {| md_best_score := best_score best;
               md_best_match_name := best_customer_name best;
               md_best_match_id := best_customer_id best;
               md_threshold_used := threshold;
               md_matched_input := best_match best;
               md_base_score := Some (best_base_score best);
               md_buying_group_boost := Some (best_boost best);
               md_keywords_matched := Some (best_keywords_matched best) |} in
          if Qgeb (best_score best) threshold
          then (Returned (best_customer_id best, best_customer_name best,
                          match_details), self)
          else (Returned (None, None, match_details), self)
      end
  end.

End CustomerMatcher.

(** ** Values of the extraction oracle

    The oracle answers with parsed JSON.  Where a sub-agent checks the shape
    of a value itself it receives a [json]; elsewhere the answer is taken in
    the shape the sub-agent documents. *)

Inductive json : Type :=
| JNull
| JBool (b : bool)
| JInt (z : Z)
| JFloat (q : Q)
| JStr (s : str)
| JArr (items : list json)
| JObj (items : list (str * json)).

(** ** [backend/subagents/valve_detection.py] *)

Definition VALID_VALVE_VALUES : list str :=
  [py "Yes"; py "no"; py "Horizontal valve"; py "Vertical valve";
   py "Rectangular valve"].

Definition no_valve : str := py "no".

(** [v in VALID_VALVE_VALUES], which hashes [v]: a list or a dict raises
    [TypeError]; a value that is not a [str] is in no set of strings. *)
Definition in_valid_valves (v : json) : outcome bool :=
  match v with
  | JStr s => Returned (mem s VALID_VALVE_VALUES)
  | JArr _ => Raised (py "unhashable type: 'list'")
  | JObj _ => Raised (py "unhashable type: 'dict'")
  | _ => Returned false
  end.

(** [v if v in VALID_VALVE_VALUES else "no"], once the membership test has
    returned [ok]; only a [str] can be in the set. *)
Definition valve_or_default (v : json) (ok : bool) : str :=
  match v with
  | JStr s => if ok then s else no_valve
  | _ => no_valve
  end.

(** [[v if v in VALID_VALVE_VALUES else "no" for v in valves]]. *)
Fixpoint validate_valves (valves : list json) : outcome (list str) :=
  match valves with
  | [] => Returned []
  | v :: rest =>
      match in_valid_valves v with
      | Raised e => Raised e
      | Returned ok =>
          match validate_valves rest with
          | Raised e => Raised e
          | Returned checked => Returned (valve_or_default v ok :: checked)
          end
      end
  end.

Record valve_result : Type := {
  vr_valves : list str;
  vr_error : option str
}.

(** [detect_valve_request]: [response] is [response.get("valves")] for the
    answer of the oracle ([None] when the key is absent), or the exception
    raised before it is read. *)
Definition detect_valve_request (response : outcome (option json))
    (num_order_lines : nat) : valve_result :=
  let failed e :=
    {| vr_valves := repeat no_valve num_order_lines; vr_error := Some e |} in
  match response with
  | Raised e => failed e
  | Returned found =>
      let valves :=
        match found with
        | None => []
        | Some (JArr items) => items
        | Some _ => repeat (JStr no_valve) num_order_lines
        end in
      let valves :=
        if negb (Nat.eqb (List.length valves) num_order_lines)
        then
          if Nat.ltb (List.length valves) num_order_lines
          then valves
               ++ repeat (JStr no_valve) (num_order_lines - List.length valves)
          else firstn num_order_lines valves
        else valves in
      match validate_valves valves with
      | Raised e => failed e
      | Returned valves => {| vr_valves := valves; vr_error := None |}
      end
  end.

(** ** [backend/subagents/customer_id.py] *)

Definition newline : char := 10%N.

(** [text.split('\n')]. *)
Fixpoint split_lines_from (cur : str) (s : str) : list str :=
  match s with
  | [] => [rev cur]
  | c :: s' =>
      if N.eqb c newline then rev cur :: split_lines_from [] s'
      else split_lines_from (c :: cur) s'
  end.

Definition split_lines (s : str) : list str := split_lines_from [] s.

Definition star_char : char := 42%N.

(** [^\s*\*{0,2}de:\*{0,2}\s*] with [re.IGNORECASE]. *)
Definition de_at_start_pattern : Re.regex :=
  [Re.star isspace; Re.Rep (N.eqb star_char) 0 (Some 2);
   Re.lit true 100%N; Re.lit true 101%N; Re.lit true 58%N;
   Re.Rep (N.eqb star_char) 0 (Some 2); Re.star isspace].

(** [\bde:\s*] with [re.IGNORECASE]. *)
Definition de_anywhere_pattern : Re.regex :=
  [Re.Bnd; Re.lit true 100%N; Re.lit true 101%N; Re.lit true 58%N;
   Re.star isspace].

Definition not_gt (c : char) : bool := negb (N.eqb c 62%N).

(** [<([^>]+@[^>]+)>]. *)
Definition email_in_brackets : Re.regex :=
  [Re.lit false 60%N; Re.plus not_gt; Re.lit false 64%N; Re.plus not_gt;
   Re.lit false 62%N].

(** [[\w.+-]+@[\w.-]+\.\w+]. *)
Definition standalone_email : Re.regex :=
  [Re.plus (fun c => is_word c || N.eqb c 46%N || N.eqb c 43%N || N.eqb c 45%N);
   Re.lit false 64%N;
   Re.plus (fun c => is_word c || N.eqb c 46%N || N.eqb c 45%N);
   Re.lit false 46%N; Re.plus is_word].

(** [group(1)] of a match of [email_in_brackets]: the match without its
    brackets. *)
Definition inside_brackets (matched : str) : str :=
  removelast (tl matched).

(** The address of a line: in angle brackets, else standing alone. *)
Definition email_of_line (line : str) : option str :=
  match Re.search email_in_brackets line with
  | Some (matched, _) => Some (lower (strip (inside_brackets matched)))
  | None =>
      match Re.search standalone_email line with
      | Some (matched, _) => Some (lower (strip matched))
      | None => None
      end
  end.

(** First pass: the first line, from the bottom, that starts with "De:". *)
Fixpoint first_pass (lines : list str) : option (option str) :=
  match lines with
  | [] => None
  | line :: rest =>
      match Re.match_start de_at_start_pattern line with
      | Some _ => Some (email_of_line line)
      | None => first_pass rest
      end
  end.

(** Second pass: the first line with "De:" anywhere and an address after
    it. *)
Fixpoint second_pass (lines : list str) : option str :=
  match lines with
  | [] => None
  | line :: rest =>
      match Re.search de_anywhere_pattern line with
      | Some (_, after_de) =>
          match email_of_line after_de with
          | Some email => Some email
          | None => second_pass rest
          end
      | None => second_pass rest
      end
  end.

(** [extract_sender_email_from_text]. *)
Definition extract_sender_email_from_text (email_text : str) : option str :=
  match email_text with
  | [] => None
  | _ =>
      let lines := rev (split_lines email_text) in
      match first_pass lines with
      | Some found => found
      | None => second_pass lines
      end
  end.

(** The dict [try_email_lookup_fallback] returns. *)
Record fallback_result : Type := {
  fb_customer_id : Z;
  fb_customer_name : str;
  fb_matched_via : str;
  fb_matched_email : str
}.

(** [DatabaseHelper.lookup_customer_by_email]: [email_lookup] is the row of
    the address registry for an address, [None] when there is none or the
    query fails. *)
Definition lookup_customer_by_email (email_lookup : str -> option (Z * str))
    (email_address : str) : option (Z * str) :=
  match email_address with
  | [] => None
  | _ => email_lookup email_address
  end.

(** [try_email_lookup_fallback]. *)
Definition try_email_lookup_fallback (email_lookup : str -> option (Z * str))
    (email_text : str) : option fallback_result :=
  match extract_sender_email_from_text email_text with
  | None | Some [] => None
  | Some sender_email =>
      match lookup_customer_by_email email_lookup sender_email with
      | Some (customer_id, customer_name) =>
          Some {| fb_customer_id := customer_id;
                  fb_customer_name := customer_name;
                  fb_matched_via := py "email_lookup";
                  fb_matched_email := sender_email |}
      | None => None
      end
  end.

(** The diagnostics of a failure, by the value of their key ["type"]. *)
Record customer_id_failure : Type := {
  extracted_names : list str;
  best_match_name : option str;
  best_match_id : option Z;
  best_match_score : Q;
  threshold_used : Q;
  email_snippet : option str;
  email_lookup_attempted : bool;
  email_lookup_address : option str
}.

Inductive failure_details : Type :=
| customer_id_type (d : customer_id_failure)
| sku_extraction_type (reason : str) (others : list (str * json))
| exception_type (exception_message : str) (snippet : option str).

(** A failure context; the four last keys are the ones
    [process_single_email] adds to the dict. *)
Record failure_context : Type := {
  fc_details : failure_details;
  fc_order_number : option Z;
  fc_entry_id : option str;
  fc_customer_id : option Z;
  fc_customer_name : option str
}.

Definition new_failure_context (d : failure_details) : failure_context :=
  {| fc_details := d; fc_order_number := None; fc_entry_id := None;
     fc_customer_id := None; fc_customer_name := None |}.

(** The answer of the oracle to the customer prompt, as
    [extract_customer_id] reads it. *)
Record customer_response : Type := {
  resp_customer_id : option Z;          (* response.get("customer_id") *)
  resp_customer_name : option str;      (* response.get("customer_name") *)
  resp_needs_fuzzy_match : bool;        (* response.get("needs_fuzzy_match", True) *)
  resp_customer_names : list str        (* response.get("customer_names", []) *)
}.

(** The dict [extract_customer_id] returns; an absent key is [None]. *)
Record customer_result : Type := {
  cr_customer_id : option Z;
  cr_customer_name : option str;
  cr_potential_names : list (option str);
  cr_matched_via : option str;
  cr_matched_email : option str;
  cr_error : option str;
  cr_failure_context : option failure_context
}.

(** [email_text[:500] if email_text else None]. *)
Definition snippet_of (email_text : str) : option str :=
  match email_text with
  | [] => None
  | _ => Some (prefix 500 email_text)
  end.

(** [repr] of a list of names, as the f-string of the error message prints
    it; exact for names without quotes, backslashes or control characters. *)
Definition repr_names (names : list str) : str :=
  py "[" ++ join (py ", ") (List.map (fun n => py "'" ++ n ++ py "'") names)
  ++ py "]".

Section CustomerId.

Variable jaro_winkler : str -> str -> Q.

(** [extract_customer_id]: [response] is the answer to the prompt built
    from [email_text], or the exception raised on the way to it;
    [get_all_customers] and [email_lookup] are the registries. *)
Definition extract_customer_id (db_helper : DatabaseHelper)
    (response : outcome customer_response)
    (get_all_customers : outcome (list (Z * str)))
    (email_lookup : str -> option (Z * str))
    (email_text : str) : customer_result * DatabaseHelper :=
  let failed e :=
    {| cr_customer_id := None; cr_customer_name := None;
       cr_potential_names := []; cr_matched_via := None;
       cr_matched_email := None; cr_error := Some e;
       cr_failure_context := None |} in
  let via_fallback (fb : fallback_result) (potential_names : list str) :=
    {| cr_customer_id := Some (fb_customer_id fb);
       cr_customer_name := Some (fb_customer_name fb);
       cr_potential_names := List.map Some potential_names;
       cr_matched_via := Some (fb_matched_via fb);
       cr_matched_email := Some (fb_matched_email fb);
       cr_error := None; cr_failure_context := None |} in
  match response with
  | Raised e => (failed e, db_helper)
  | Returned response =>
      let customer_id_from_llm := resp_customer_id response in
      let customer_name_from_llm := resp_customer_name response in
      let needs_fuzzy_match := resp_needs_fuzzy_match response in
      match customer_id_from_llm, needs_fuzzy_match with
      | Some _, false =>
          ({| cr_customer_id := customer_id_from_llm;
              cr_customer_name := customer_name_from_llm;
              cr_potential_names := [customer_name_from_llm];
              cr_matched_via := None; cr_matched_email := None;
              cr_error := None; cr_failure_context := None |}, db_helper)
      | _, _ =>
          let potential_names := resp_customer_names response in
          match potential_names with
          | [] =>
              match try_email_lookup_fallback email_lookup email_text with
              | Some fallback => (via_fallback fallback [], db_helper)
              | None =>
                  ({| cr_customer_id := None; cr_customer_name := None;
                      cr_potential_names := []; cr_matched_via := None;
                      cr_matched_email := None;
                      cr_error :=
                        Some (py "No customer names found in email and email lookup fallback failed");
                      cr_failure_context := None |}, db_helper)
              end
          | _ =>
              let threshold := (85 # 100)%Q in
              match fuzzy_match_customer jaro_winkler db_helper
                      get_all_customers potential_names (Some threshold) with
              | (Raised e, db_helper) => (failed e, db_helper)
              | (Returned (customer_id, customer_name, match_details),
                 db_helper) =>
                  match customer_id with
                  | None =>
                      match try_email_lookup_fallback email_lookup
                              email_text with
                      | Some fallback =>
                          (via_fallback fallback potential_names, db_helper)
                      | None =>
                          let failure_context :=
                            {| extracted_names := potential_names;
                               best_match_name :=
                                 md_best_match_name match_details;
                               best_match_id :=
                                 md_best_match_id match_details;
                               best_match_score :=
                                 md_best_score match_details;
                               threshold_used := threshold;
                               email_snippet := snippet_of email_text;
                               email_lookup_attempted := true;
                               email_lookup_address :=
                                 extract_sender_email_from_text email_text
                            |} in
                          ({| cr_customer_id := None;
                              cr_customer_name := None;
                              cr_potential_names :=
                                List.map Some potential_names;
                              cr_matched_via := None;
                              cr_matched_email := None;
                              cr_error :=
                                Some (py "No database match found for: "
                                      ++ repr_names potential_names
                                      ++ py " (email lookup also failed)");
                              cr_failure_context :=
                                Some (new_failure_context
                                        (customer_id_type failure_context))
                           |}, db_helper)
                      end
                  | Some _ =>
                      ({| cr_customer_id := customer_id;
                          cr_customer_name := customer_name;
                          cr_potential_names :=
                            List.map Some potential_names;
                          cr_matched_via := None; cr_matched_email := None;
                          cr_error := None; cr_failure_context := None |},
                       db_helper)
                  end
              end
          end
      end
  end.

End CustomerId.

(** ** [backend/tasks/task_extract_data.py] *)

(** A processed product line of [extract_sku_and_quantity]. *)
Record sku_line : Type := {
  sl_sku : str;
  sl_quantity : Z;
  sl_family_desc : option str
}.

(** The dict [extract_sku_and_quantity] returns. *)
Record sku_result : Type := {
  sr_order_lines : list sku_line;
  sr_error : option str;
  sr_failure_context : option failure_context
}.

(** The dicts of the five sub-agents of phase 3. *)
Record reference_result : Type := {
  rr_reference_nos : list str
}.

Record address_result : Type := {
  ar_delivery_address : option str;
  ar_telephone_number : option str;
  ar_contact_name : option str
}.

Record cpsd_result : Type := {
  cp_cpsds : list (option str);
  cp_entry_id : option str
}.

Record options_result : Type := {
  op_option_sku : option str;
  op_option_qty : option Z
}.

(** An order-line record.  [ol_error] and [ol_email_text] are the two keys
    only a failure stub has. *)
Record order_line : Type := {
  ol_orderno : Z;
  ol_customerid : option Z;
  ol_customer_name : option str;
  ol_sku : option str;
  ol_quantity : option Z;
  ol_reference_no : option str;
  ol_valve : str;
  ol_delivery_address : option str;
  ol_cpsd : option str;
  ol_entry_id : str;
  ol_option_sku : option str;
  ol_option_qty : option Z;
  ol_telephone_number : option str;
  ol_contact_name : option str;
  ol_error : option str;
  ol_email_text : option str
}.

(** The failure stub of phases 1 and 2, and of [extract_data_task]. *)
Definition failure_stub (order_number : Z) (customer_id : option Z)
    (customer_name : option str) (message_id : str) (error : option str)
    (email_text : str) : order_line :=
  {| ol_orderno := order_number;
     ol_customerid := customer_id;
     ol_customer_name := customer_name;
     ol_sku := None;
     ol_quantity := None;
     ol_reference_no := None;
     ol_valve := py "no";
     ol_delivery_address := None;
     ol_cpsd := None;
     ol_entry_id := message_id;
     ol_option_sku := None;
     ol_option_qty := None;
     ol_telephone_number := None;
     ol_contact_name := None;
     ol_error := error;
     ol_email_text := Some (prefix 500 email_text) |}.

(** What the collaborators of the orchestrator answer for one email: the
    registries, the oracle behind phase 1 and behind the valve sub-agent, and
    the dicts the other sub-agents return (or the exception a phase-3 future
    re-raises). *)
Record world : Type := {
  customer_response_for : str -> outcome customer_response;
  get_all_customers : outcome (list (Z * str));
  email_lookup_for_customer : str -> option (Z * str);
  extract_sku_and_quantity : str -> sku_result;
  extract_reference_no : str -> option Z -> outcome reference_result;
  valves_response_for : str -> nat -> outcome (option json);
  extract_delivery_address :
    str -> option Z -> option str -> outcome address_result;
  extract_cpsd : str -> outcome cpsd_result;
  extract_options : str -> list sku_line -> outcome options_result
}.

(** The calls [process_single_email] makes, in program order; the five
    phase-3 tasks are listed in the order they are submitted. *)
Inductive event : Type :=
| phase1_extract_customer_id
| phase2_extract_sku_and_quantity
| phase3_submit (field_name : str)
| phase4_merge.

(** An entry of [email_metadata_map]. *)
Record email_metadata : Type := {
  em_subject : str;
  em_from : str;
  em_to : str;
  em_date : str
}.

Fixpoint metadata_get (m : list (str * email_metadata)) (key : str)
  : option email_metadata :=
  match m with
  | [] => None
  | (k, v) :: m' => if str_eqb key k then Some v else metadata_get m' key
  end.

(** Truth value of a string, of an optional string and of an optional
    integer. *)
Definition truthy_str (s : str) : bool :=
  match s with [] => false | _ => true end.

Definition truthy_opt_str (s : option str) : bool :=
  match s with Some s => truthy_str s | None => false end.

Definition truthy_opt_int (z : option Z) : bool :=
  match z with Some z => negb (Z.eqb z 0) | None => false end.

(** [not xs] on a list. *)
Definition is_empty (A : Type) (xs : list A) : bool :=
  match xs with [] => true | _ => false end.

(** The CPSD assignment of phase 4. *)
Definition assign_cpsds (cpsds : list (option str)) (num_lines : nat)
  : list (option str) :=
  let num_cpsds := List.length cpsds in
  if Nat.eqb num_cpsds num_lines then cpsds
  else if Nat.eqb num_cpsds 1 then repeat (hd None cpsds) num_lines
  else if Nat.eqb num_cpsds 0 then repeat None num_lines
  else repeat None num_lines.

(** The reference number assignment of phase 4. *)
Definition assign_references (reference_nos : list str) (num_lines : nat)
  : list (option str) :=
  let num_refs := List.length reference_nos in
  if Nat.eqb num_refs num_lines then List.map Some reference_nos
  else if Nat.eqb num_refs 1
  then repeat (hd_error reference_nos) num_lines
  else if Nat.ltb 1 num_refs && Nat.eqb num_lines 1
  then [Some (join (py ", ") reference_nos)]
  else if Nat.eqb num_refs 0 then repeat None num_lines
  else repeat None num_lines.

(** The valve assignment of phase 4. *)
Definition assign_valves (valve_assignments : list str) (num_lines : nat)
  : list str :=
  let num_valves := List.length valve_assignments in
  if Nat.eqb num_valves num_lines then valve_assignments
  else if Nat.ltb num_valves num_lines
  then valve_assignments ++ repeat (py "no") (num_lines - num_valves)
  else firstn num_lines valve_assignments.

(** [xs[idx]], which raises [IndexError] out of range. *)
Definition index (A : Type) (xs : list A) (idx : nat) : outcome A :=
  match nth_error xs idx with
  | Some x => Returned x
  | None => Raised (py "list index out of range")
  end.

(** The loop that builds [merged_orders], from index [idx] on. *)
Fixpoint merge_from (idx : nat) (order_lines : list sku_line)
    (order_number : Z) (customer_id : option Z) (customer_name : option str)
    (ref_assignments : list (option str)) (valve_assignments : list str)
    (cpsd_assignments : list (option str)) (final_entry_id : str)
    (address : address_result) (options : options_result)
  : outcome (list order_line) :=
  match order_lines with
  | [] => Returned []
  | line :: rest =>
      match index ref_assignments idx with
      | Raised e => Raised e
      | Returned reference_no =>
      match index valve_assignments idx with
      | Raised e => Raised e
      | Returned valve =>
      match index cpsd_assignments idx with
      | Raised e => Raised e
      | Returned cpsd =>
          let merged_order :=
            {| ol_orderno := order_number;
               ol_customerid := customer_id;
               ol_customer_name := customer_name;
               ol_sku := Some (sl_sku line);
               ol_quantity := Some (sl_quantity line);
               ol_reference_no := reference_no;
               ol_valve := valve;
               ol_delivery_address := ar_delivery_address address;
               ol_cpsd := cpsd;
               ol_entry_id := final_entry_id;
               ol_option_sku := op_option_sku options;
               ol_option_qty := op_option_qty options;
               ol_telephone_number := ar_telephone_number address;
               ol_contact_name := ar_contact_name address;
               ol_error := None;
               ol_email_text := None |} in
          match merge_from (S idx) rest order_number customer_id customer_name
                  ref_assignments valve_assignments cpsd_assignments
                  final_entry_id address options with
          | Raised e => Raised e
          | Returned merged_orders => Returned (merged_order :: merged_orders)
          end
      end end end
  end.

(** The header [process_single_email] prepends for phase 1 only. *)
Definition email_header (metadata : email_metadata) : str :=
  py "EMAIL METADATA:" ++ [newline]
  ++ py "Subject: " ++ em_subject metadata ++ [newline]
  ++ py "From: " ++ em_from metadata ++ [newline]
  ++ py "To: " ++ em_to metadata ++ [newline]
  ++ py "Date: " ++ em_date metadata ++ [newline; newline]
  ++ py "EMAIL CONTENT:" ++ [newline].

(** [email_text_with_metadata]: the header is prepended when the map and
    the message id are not empty and the map has the id. *)
Definition with_metadata (email_text message_id : str)
    (email_metadata_map : list (str * email_metadata)) : str :=
  match email_metadata_map, message_id with
  | [], _ | _, [] => email_text
  | _, _ =>
      match metadata_get email_metadata_map message_id with
      | Some metadata => email_header metadata ++ email_text
      | None => email_text
      end
  end.

(** [results[field]] after the join of phase 3: the dict of the sub-agent,
    or [{field_name: None, "error": str(e)}], which has none of the keys
    phase 4 reads. *)
Definition read (A B : Type) (task : outcome A) (key : A -> B) (default : B)
  : B :=
  match task with
  | Returned result => key result
  | Raised _ => default
  end.

Section Orchestrator.

Variable jaro_winkler : str -> str -> Q.
Variable w : world.

(** [process_single_email].  The progress updates of the job table and
    the prints are not part of the result and are left out; the calls to
    the sub-agents are recorded as [event]s.  The result is the pair the
    function returns, or the exception that leaves it. *)
Definition process_single_email (db_helper : DatabaseHelper)
    (email_text : str) (order_number : Z) (message_id : str)
    (email_metadata_map : list (str * email_metadata))
  : outcome (list order_line * list failure_context)
    * list event * DatabaseHelper :=
  (* Phase 1: customer id *)
  let email_text_with_metadata :=
    with_metadata email_text message_id email_metadata_map in
  let '(customer_result, db_helper) :=
    extract_customer_id jaro_winkler db_helper
      (customer_response_for w email_text_with_metadata)
      (get_all_customers w) (email_lookup_for_customer w)
      email_text_with_metadata in
  let trace := [phase1_extract_customer_id] in
  if truthy_opt_str (cr_error customer_result)
     || negb (truthy_opt_int (cr_customer_id customer_result))
  then
    let failure_contexts :=
      match cr_failure_context customer_result with
      | Some fc =>
          [{| fc_details := fc_details fc;
              fc_order_number := Some order_number;
              fc_entry_id := Some message_id;
              fc_customer_id := fc_customer_id fc;
              fc_customer_name := fc_customer_name fc |}]
      | None => []
      end in
    (Returned ([failure_stub order_number None None message_id
                  (cr_error customer_result) email_text],
               failure_contexts), trace, db_helper)
  else
    let customer_id := cr_customer_id customer_result in
    let customer_name := cr_customer_name customer_result in
    (* Phase 2: SKU and quantity *)
    let sku_result := extract_sku_and_quantity w email_text in
    let trace := trace ++ [phase2_extract_sku_and_quantity] in
    if truthy_opt_str (sr_error sku_result)
       || is_empty (sr_order_lines sku_result)
    then
      let failure_contexts :=
        match sr_failure_context sku_result with
        | Some fc =>
            [{| fc_details := fc_details fc;
                fc_order_number := Some order_number;
                fc_entry_id := Some message_id;
                fc_customer_id := customer_id;
                fc_customer_name := customer_name |}]
        | None => []
        end in
      (Returned ([failure_stub order_number customer_id customer_name
                    message_id (sr_error sku_result) email_text],
                 failure_contexts), trace, db_helper)
    else
      let order_lines := sr_order_lines sku_result in
      let num_lines := List.length order_lines in
      (* Phase 3: the five sub-agents *)
      let reference_task := extract_reference_no w email_text customer_id in
      let valve_task : outcome valve_result :=
        Returned (detect_valve_request
                    (valves_response_for w email_text num_lines) num_lines) in
      let address_task :=
        extract_delivery_address w email_text customer_id customer_name in
      let cpsd_task := extract_cpsd w email_text in
      let options_task := extract_options w email_text order_lines in
      let trace :=
        trace ++ [phase3_submit (py "reference_no");
                  phase3_submit (py "valve");
                  phase3_submit (py "delivery_address");
                  phase3_submit (py "cpsd");
                  phase3_submit (py "options")] in
      (* Phase 4: merge *)
      let trace := trace ++ [phase4_merge] in
      let cpsds := read cpsd_task cp_cpsds [] in
      let entry_id_from_cpsd := read cpsd_task cp_entry_id None in
      let final_entry_id :=
        match entry_id_from_cpsd with
        | Some (c :: e) => c :: e
        | _ => message_id
        end in
      let reference_nos := read reference_task rr_reference_nos [] in
      let cpsd_assignments := assign_cpsds cpsds num_lines in
      let ref_assignments := assign_references reference_nos num_lines in
      let valve_assignments :=
        assign_valves
          (read valve_task vr_valves (repeat (py "no") num_lines))
          num_lines in
      let address :=
        {| ar_delivery_address := read address_task ar_delivery_address None;
           ar_telephone_number := read address_task ar_telephone_number None;
           ar_contact_name := read address_task ar_contact_name None |} in
      let options :=
        {| op_option_sku := read options_task op_option_sku None;
           op_option_qty := read options_task op_option_qty None |} in
      match merge_from 0 order_lines order_number customer_id customer_name
              ref_assignments valve_assignments cpsd_assignments
              final_entry_id address options with
      | Raised e => (Raised e, trace, db_helper)
      | Returned merged_orders =>
          (Returned (merged_orders, []), trace, db_helper)
      end.

(** The body of the loop of [extract_data_task] for one email: the
    records and failure contexts it appends to [all_orders] and
    [all_failure_contexts].  The [except] handler of the loop starts with
    [print(..., exc_info=True)]; [print] has no such keyword and raises a
    [TypeError] (the text below is its [str(e)] in CPython 3.8 to 3.12), so
    the placeholder record and the exception context that follow in the
    handler are never appended: the exception leaves the loop and the task
    fails. *)
Definition extract_data_task_step (db_helper : DatabaseHelper)
    (email_text : str) (order_number : Z) (message_id : str)
    (email_metadata_map : list (str * email_metadata))
  : outcome (list order_line * list failure_context) * DatabaseHelper :=
  match process_single_email db_helper email_text order_number message_id
          email_metadata_map with
  | (Returned (order_lines, failure_contexts), _, db_helper) =>
      (Returned (order_lines, failure_contexts), db_helper)
  | (Raised e, _, db_helper) =>
      (Raised (py "'exc_info' is an invalid keyword argument for print()"),
       db_helper)
  end.

End Orchestrator.

(** ** Vocabulary of the statements *)

(** The dict [extract_sku_and_quantity] returns from its [except] branch. *)
Definition sku_exception_result (e : str) (email_text : str) : sku_result :=
  {| sr_order_lines := [];
     sr_error := Some e;
     sr_failure_context :=
       Some (new_failure_context
               (sku_extraction_type (py "exception")
                  [(py "exception_message", JStr e);
                   (py "email_snippet",
                    match snippet_of email_text with
                    | Some snippet => JStr snippet
                    | None => JNull
                    end)])) |}.

(** A failure stub: no product, no extracted field, valve "no", and the two
    keys [error] and [email_text] of a stub. *)
Definition is_failure_stub (r : order_line) : Prop :=
  ol_sku r = None /\ ol_quantity r = None /\ ol_reference_no r = None
  /\ ol_valve r = py "no" /\ ol_delivery_address r = None /\ ol_cpsd r = None
  /\ ol_option_sku r = None /\ ol_option_qty r = None
  /\ ol_email_text r <> None.

(** The events of phases 3 and 4. *)
Definition later_phase (e : event) : bool :=
  match e with
  | phase3_submit _ | phase4_merge => true
  | _ => false
  end.

(** The value the validation of [detect_valve_request] keeps for [v]. *)
Definition kept_valve (v : json) : str :=
  match v with
  | JStr s => if mem s VALID_VALVE_VALUES then s else py "no"
  | _ => py "no"
  end.

(** A world for the examples: one registered customer, no address
    registry, a reference number and a date from the sub-agents, a delivery
    address task that raises; the answers to the customer prompt and to the
    valve prompt and the result of phase 2 are given. *)
Definition example_world (customer : outcome customer_response)
    (sku : sku_result) (valves : outcome (option json)) : world :=
  {| customer_response_for := fun _ => customer;
     get_all_customers :=
       Returned [(2522%Z, py "BARROSO MORALES MARIA ANTONIA")];
     email_lookup_for_customer := fun _ => None;
     extract_sku_and_quantity := fun _ => sku;
     extract_reference_no :=
       fun _ _ => Returned {| rr_reference_nos := [py "A1"] |};
     valves_response_for := fun _ _ => valves;
     extract_delivery_address := fun _ _ _ => Raised (py "timeout");
     extract_cpsd :=
       fun _ => Returned {| cp_cpsds := [Some (py "2025-10-15")];
                            cp_entry_id := None |};
     extract_options :=
       fun _ _ => Returned {| op_option_sku := None; op_option_qty := None |}
  |}.

(** Answers of the oracle to the customer prompt: a customer given
    directly, and no name at all. *)
Definition direct_customer : customer_response :=
  {| resp_customer_id := Some 2522%Z;
     resp_customer_name := Some (py "BARROSO MORALES MARIA ANTONIA");
     resp_needs_fuzzy_match := false;
     resp_customer_names := [] |}.

Definition no_names : customer_response :=
  {| resp_customer_id := None; resp_customer_name := None;
     resp_needs_fuzzy_match := true; resp_customer_names := [] |}.

(** Results of phase 2: two product lines, and none. *)
Definition two_lines : sku_result :=
  {| sr_order_lines :=
       [ {| sl_sku := py "NAT140080BLCO"; sl_quantity := 1;
            sl_family_desc := Some (py "Nature") |};
         {| sl_sku := py "NAT150080BLCO"; sl_quantity := 2;
            sl_family_desc := Some (py "Nature") |} ];
     sr_error := None;
     sr_failure_context := None |}.

Definition no_lines : sku_result :=
  {| sr_order_lines := [];
     sr_error := Some (py "No order lines found in email");
     sr_failure_context :=
       Some (new_failure_context
               (sku_extraction_type (py "no_order_lines") [])) |}.

Definition empty_helper : DatabaseHelper :=
  {| _normalized_customers_cache := None |}.

(** The cache entry of the customer "BARROSO MORALES MARIA ANTONIA". *)
Definition barroso_entry : cached_customer :=
  {| cc_original := py "BARROSO MORALES MARIA ANTONIA";
     cc_normalized := py "antonia barroso maria morales";
     cc_keywords := [];
     cc_is_personal := true |}.

(** [remove_accents(name.lower().strip())], the first step on every name. *)
Definition clean_name (name : str) : str :=
  remove_accents (strip (lower name)).

(** The score [fuzzy_match_family] and [fuzzy_match_color] give to a
    description of the registry. *)
Definition score_of (text_lower desc : str) : Q :=
  Difflib.ratio text_lower (strip (lower desc)).

(** [best] is the first entry of [seen] with the highest positive score, if
    there is one: no entry of [seen] scores higher, and every entry before
    it scores strictly lower. *)
Definition best_of (text_lower : str) (seen : list (str * str))
    (best : family_best) : Prop :=
  let '(s, code, desc) := best in
  (forall d c, In (d, c) seen -> (score_of text_lower d <= s)%Q)
  /\ ((code = None /\ desc = None /\ s = 0%Q)
      \/ exists before d c after,
           seen = before ++ (d, c) :: after
           /\ code = Some c /\ desc = Some d
           /\ s = score_of text_lower d /\ (0 < s)%Q
           /\ forall d' c', In (d', c') before ->
                            (score_of text_lower d' < s)%Q).

(** The text [fuzzy_match_color] scores: lower-cased, stripped, and
    replaced by its canonical colour when it is a known synonym. *)
Definition color_key (color_text : str) : str :=
  let color_text_lower := strip (lower color_text) in
  match dict_get COLOR_SYNONYMS color_text_lower with
  | Some canonical_color => canonical_color
  | None => color_text_lower
  end.

(** A token of [str.split()]: not empty and without white space. *)
Definition clean_token (t : str) : Prop :=
  t <> [] /\ Forall (fun c => isspace c = false) t.

Definition clean_tokenb (t : str) : bool :=
  negb (is_empty t) && forallb (fun c => negb (isspace c)) t.

(** [a < b] and [a <= b] on strings. *)
Definition str_lt (a b : str) : Prop := str_ltb a b = true.
Definition str_le (a b : str) : Prop := str_ltb b a = false.

(** A value of the valve enumeration. *)
Definition valid_valve (s : str) : Prop := mem s VALID_VALVE_VALUES = true.

(** The list [detect_valve_request] validates: padded with "no" or truncated
    to the number of order lines. *)
Definition sized (valves : list json) (n : nat) : list json :=
  if negb (Nat.eqb (List.length valves) n)
  then if Nat.ltb (List.length valves) n
       then valves ++ repeat (JStr no_valve) (n - List.length valves)
       else firstn n valves
  else valves.

(** The metric of the customer matcher, as a score in [0, 1]: the token-set
    ratio of the two texts. *)
Definition token_set_score (a b : str) : Q :=
  (Fuzz.token_set_ratio a b / 100)%Q.

(** [fuzzy_match_family] as the specification describes it: the loop of the
    source with the token-set metric as scorer. *)
Definition spec_family_step (family_text_lower : str) (best : family_best)
    (family : str * str) : family_best :=
  let '(best_score, best_prefix, best_family_desc) := best in
  let '(family_desc, prefix) := family in
  let family_desc_lower := strip (lower family_desc) in
  let score := token_set_score family_text_lower family_desc_lower in
  if Qgtb score best_score
  then (score, Some prefix, Some family_desc)
  else best.

Definition spec_fuzzy_match_family (family_text : str)
    (families : list (str * str)) (threshold : option Q)
  : option str * option str :=
  let threshold := threshold_or_default threshold in
  let family_text_lower := strip (lower family_text) in
  let '(best_score, best_prefix, best_family_desc) :=
    fold_left (spec_family_step family_text_lower) families (0%Q, None, None) in
  if Qgeb best_score threshold
  then (best_prefix, best_family_desc)
  else (None, None).

(** ** Vocabulary of the further properties *)

(** [cache.get(customer_id)]. *)
Fixpoint cache_get (cache : customer_cache) (customer_id : Z)
  : option cached_customer :=
  match cache with
  | [] => None
  | (k, v) :: cache' =>
      if Z.eqb k customer_id then Some v else cache_get cache' customer_id
  end.

(** The entry [_initialize_customer_cache] stores for a name of the
    registry. *)
Definition cache_entry_of (db_customer_name : str) : cached_customer :=
  let db_name_clean := clean_name db_customer_name in
  let is_personal := is_personal_name db_name_clean in
  {| cc_original := db_customer_name;
     cc_normalized :=
       if is_personal then normalize_personal_name db_name_clean
       else normalize_business_name db_name_clean;
     cc_keywords :=
       if negb is_personal then extract_buying_group_keywords db_name_clean
       else [];
     cc_is_personal := is_personal |}.

(** The name of the last row of the registry with a given id. *)
Fixpoint registered_name (rows : list (Z * str)) (customer_id : Z)
  : option str :=
  match rows with
  | [] => None
  | (k, name) :: rest =>
      match registered_name rest customer_id with
      | Some later => Some later
      | None => if Z.eqb k customer_id then Some name else None
      end
  end.

(** The final score [fuzzy_match_customer] gives to a potential name and a
    cache entry. *)
Definition pair_final_score (jaro_winkler : str -> str -> Q)
    (potential_name : str) (cached_data : cached_customer) : Q :=
  let clean := clean_name potential_name in
  let personal := is_personal_name clean in
  fst (fst (score_pair jaro_winkler
              (if personal then normalize_personal_name clean
               else normalize_business_name clean)
              personal
              (if personal then [] else extract_buying_group_keywords clean)
              cached_data)).

(** [best] is the best of the pairs [seen] describes: no pair scores
    higher, and [best] is either empty with score 0 or one of the pairs with
    a positive score. *)
Definition best_among (jaro_winkler : str -> str -> Q)
    (seen : str -> Z -> cached_customer -> Prop) (best : best_so_far) : Prop :=
  (forall name id entry,
      seen name id entry ->
      (pair_final_score jaro_winkler name entry <= best_score best)%Q)
  /\ ((best_customer_id best = None /\ best_customer_name best = None
       /\ best_match best = None /\ best_score best = 0%Q)
      \/ exists name id entry,
           seen name id entry
           /\ best_customer_id best = Some id
           /\ best_customer_name best = Some (cc_original entry)
           /\ best_match best = Some name
           /\ best_score best = pair_final_score jaro_winkler name entry
           /\ (0 < best_score best)%Q).

(** The values [v in VALID_VALVE_VALUES] can hash: every JSON value but a
    list and a dict. *)
Definition hashable (v : json) : bool :=
  match v with
  | JArr _ | JObj _ => false
  | _ => true
  end.

(** What [re.sub(r'\s+', ' ', s)] computes: every run of white space
    becomes one space.  [in_run] holds inside a run. *)
Fixpoint collapse_from (in_run : bool) (s : str) : str :=
  match s with
  | [] => []
  | c :: s' =>
      if isspace c
      then if in_run then collapse_from true s'
           else space :: collapse_from true s'
      else c :: collapse_from false s'
  end.

(** White space occurs in [s] only as single spaces; [after_space] holds
    when the character before [s] is white space. *)
Fixpoint tidy_from (after_space : bool) (s : str) : bool :=
  match s with
  | [] => true
  | c :: s' =>
      if isspace c
      then (c =? space)%N && negb after_space && tidy_from true s'
      else tidy_from false s'
  end.

(** [tidy_from], and [s] does not end with white space. *)
Fixpoint words_from (after_space : bool) (s : str) : bool :=
  match s with
  | [] => negb after_space
  | c :: s' =>
      if isspace c
      then (c =? space)%N && negb after_space && words_from true s'
      else words_from false s'
  end.

(** * Properties *)

(** ** SKU composition *)

Section SkuFacts.

(** A dimension of at most three digits pads to exactly three
    characters. *)
Lemma zfill_three_digits (d : Z) :
  (0 <= d <= 999)%Z -> List.length (zfill 3 (str_of_int d)) = 3.
Proof.
  intros Hd.
  assert (Hall : forallb
            (fun n => Nat.eqb (List.length (zfill 3 (str_of_int (Z.of_nat n)))) 3)
            (seq 0 1000) = true) by (vm_compute; reflexivity).
  rewrite forallb_forall in Hall.
  specialize (Hall (Z.to_nat d)).
  rewrite Z2Nat.id in Hall by lia.
  apply Nat.eqb_eq, Hall, in_seq. lia.
Qed.

(** The two dimensions commute. *)
Lemma construct_sku_swap (family : str) (l w : Z) (color : str) :
  construct_sku family l w color = construct_sku family w l color.
Proof.
  unfold construct_sku.
  destruct (Z.gtb_spec w l), (Z.gtb_spec l w); try reflexivity; try lia.
  assert (l = w) by lia. subst. reflexivity.
Qed.

(** What a successful call returns: the larger dimension first. *)
Lemma construct_sku_larger_first (family : str) (l w : Z) (color sku : str) :
  construct_sku family l w color = Some sku ->
  sku = family ++ zfill 3 (str_of_int (Z.max l w))
          ++ zfill 3 (str_of_int (Z.min l w)) ++ color.
Proof.
  unfold construct_sku.
  destruct (Z.gtb_spec w l) as [Hgt | Hle].
  - rewrite Z.max_r, Z.min_l by lia.
    destruct (Nat.eqb _ 13); intros E; inversion E; reflexivity.
  - rewrite Z.max_l, Z.min_r by lia.
    destruct (Nat.eqb _ 13); intros E; inversion E; reflexivity.
Qed.

End SkuFacts.

(** C3: [construct_sku] puts the larger of the two dimensions first, so the
    order of the dimensions does not matter (in particular 80 x 140 and
    140 x 80 give the same result for every family and colour); with a
    3-character family code, a 4-character colour code and two dimensions of
    at most three digits the SKU is returned and has exactly 13 characters;
    and [construct_sku("NAT", 80, 140, "BLCO")] is ["NAT140080BLCO"]. *)
Theorem construct_sku_canonical :
  (forall family l w color sku,
      construct_sku family l w color = Some sku ->
      sku = family ++ zfill 3 (str_of_int (Z.max l w))
              ++ zfill 3 (str_of_int (Z.min l w)) ++ color)
  /\ (forall family l w color,
         construct_sku family l w color = construct_sku family w l color)
  /\ (forall family color,
         construct_sku family 80 140 color = construct_sku family 140 80 color)
  /\ (forall family l w color,
         List.length family = 3 -> List.length color = 4 ->
         (0 <= l <= 999)%Z -> (0 <= w <= 999)%Z ->
         exists sku, construct_sku family l w color = Some sku
                     /\ List.length sku = 13)
  /\ construct_sku (py "NAT") 80 140 (py "BLCO") = Some (py "NAT140080BLCO").
Proof.
  split; [exact construct_sku_larger_first |].
  split; [exact construct_sku_swap |].
  split; [intros; apply construct_sku_swap |].
  split; [| vm_compute; reflexivity].
  intros family l w color Hf Hc Hl Hw.
  assert (Hlen : forall a b, (0 <= a <= 999)%Z -> (0 <= b <= 999)%Z ->
            List.length (family ++ zfill 3 (str_of_int a)
                           ++ zfill 3 (str_of_int b) ++ color) = 13).
  { intros a b Ha Hb. rewrite !length_app, !zfill_three_digits by assumption.
    rewrite Hf, Hc. reflexivity. }
  unfold construct_sku.
  destruct (w >? l)%Z; rewrite Hlen by assumption; simpl;
    eexists; (split; [reflexivity | apply Hlen; assumption]).
Qed.

(** The scenario of the specification, through the hypotheses of C3. *)
Lemma construct_sku_canonical_witness :
  exists sku, construct_sku (py "NAT") 80 140 (py "BLCO") = Some sku
              /\ List.length sku = 13.
Proof.
  apply (proj1 (proj2 (proj2 (proj2 construct_sku_canonical)))).
  - reflexivity.
  - reflexivity.
  - lia.
  - lia.
Defined.

(** ** Phase 4: alignment of the extracted lists *)

Section Alignment.

Lemma assign_cpsds_length (cpsds : list (option str)) (n : nat) :
  List.length (assign_cpsds cpsds n) = n.
Proof.
  unfold assign_cpsds.
  destruct (Nat.eqb_spec (List.length cpsds) n) as [E | _]; [exact E |].
  destruct (Nat.eqb (List.length cpsds) 1); [apply repeat_length |].
  destruct (Nat.eqb (List.length cpsds) 0); apply repeat_length.
Qed.

Lemma assign_references_length (reference_nos : list str) (n : nat) :
  List.length (assign_references reference_nos n) = n.
Proof.
  unfold assign_references.
  destruct (Nat.eqb_spec (List.length reference_nos) n) as [E | _].
  { rewrite length_map. exact E. }
  destruct (Nat.eqb (List.length reference_nos) 1); [apply repeat_length |].
  destruct (Nat.ltb 1 (List.length reference_nos)); simpl.
  - destruct (Nat.eqb_spec n 1) as [E | _]; [subst; reflexivity |].
    destruct (Nat.eqb (List.length reference_nos) 0); apply repeat_length.
  - destruct (Nat.eqb (List.length reference_nos) 0); apply repeat_length.
Qed.

Lemma assign_valves_length (valves : list str) (n : nat) :
  List.length (assign_valves valves n) = n.
Proof.
  unfold assign_valves.
  destruct (Nat.eqb_spec (List.length valves) n) as [E | _]; [exact E |].
  destruct (Nat.ltb_spec (List.length valves) n).
  - rewrite length_app, repeat_length. lia.
  - rewrite length_firstn. lia.
Qed.

(** Every assigned valve comes from the list or is the default. *)
Lemma assign_valves_in (valves : list str) (n : nat) (v : str) :
  In v (assign_valves valves n) -> In v valves \/ v = py "no".
Proof.
  unfold assign_valves.
  destruct (Nat.eqb (List.length valves) n); [auto |].
  destruct (Nat.ltb (List.length valves) n); intros Hin.
  - apply in_app_or in Hin. destruct Hin as [Hin | Hin]; [auto |].
    right. exact (repeat_spec _ _ _ Hin).
  - left. rewrite <- (firstn_skipn n valves). apply in_or_app. left. exact Hin.
Qed.

Variables (order_number : Z) (customer_id : option Z)
          (customer_name : option str) (final_entry_id : str)
          (address : address_result) (options : options_result).
Variables (ref_assignments : list (option str))
          (valve_assignments : list str)
          (cpsd_assignments : list (option str)).

Lemma index_in_range (A : Type) (xs : list A) (idx : nat) :
  idx < List.length xs -> exists x, index xs idx = Returned x /\ In x xs.
Proof.
  intros H. unfold index.
  destruct (nth_error xs idx) as [x |] eqn:E.
  - exists x. split; [reflexivity | eapply nth_error_In; eassumption].
  - apply nth_error_None in E. lia.
Qed.

(** The loop emits one record per product line when the three lists are
    long enough, and no index is out of range. *)
Lemma merge_from_total (order_lines : list sku_line) :
  forall idx,
    idx + List.length order_lines <= List.length ref_assignments ->
    idx + List.length order_lines <= List.length valve_assignments ->
    idx + List.length order_lines <= List.length cpsd_assignments ->
    exists merged,
      merge_from idx order_lines order_number customer_id customer_name
        ref_assignments valve_assignments cpsd_assignments final_entry_id
        address options
      = Returned merged
      /\ List.length merged = List.length order_lines.
Proof.
  induction order_lines as [| line rest IH]; intros idx Hr Hv Hc; simpl in *.
  - exists []. split; reflexivity.
  - destruct (@index_in_range _ ref_assignments idx) as (r & Er & _); [lia |].
    destruct (@index_in_range _ valve_assignments idx) as (v & Ev & _); [lia |].
    destruct (@index_in_range _ cpsd_assignments idx) as (c & Ec & _); [lia |].
    rewrite Er, Ev, Ec.
    destruct (IH (S idx)) as (merged & Em & Hlen); try lia.
    rewrite Em. eexists. split; [reflexivity |]. simpl. rewrite Hlen.
    reflexivity.
Qed.

(** The valve of a merged record is one of the assigned valves. *)
Lemma merge_from_valves (order_lines : list sku_line) :
  forall idx merged,
    merge_from idx order_lines order_number customer_id customer_name
        ref_assignments valve_assignments cpsd_assignments final_entry_id
        address options
    = Returned merged ->
    forall r, In r merged -> In (ol_valve r) valve_assignments.
Proof.
  induction order_lines as [| line rest IH]; intros idx merged; simpl.
  - intros E r Hin. inversion E; subst. destruct Hin.
  - unfold index at 1 2 3.
    destruct (nth_error ref_assignments idx); [| discriminate].
    destruct (nth_error valve_assignments idx) as [v |] eqn:Ev; [| discriminate].
    destruct (nth_error cpsd_assignments idx); [| discriminate].
    destruct (merge_from (S idx) rest _ _ _ _ _ _ _ _ _) as [more |] eqn:Em;
      [| discriminate].
    intros E r Hin. inversion E; subst. destruct Hin as [<- | Hin].
    + simpl. eapply nth_error_In; eassumption.
    + eapply IH; eassumption.
Qed.

End Alignment.

(** C2: whatever the lengths of the extracted lists, for a target of
    [N >= 1] product lines the assignment lists of phase 4 for dates,
    reference numbers and valve flags have length exactly [N], and the merge
    loop returns exactly [N] order-line records. *)
Theorem phase4_alignment_cardinality
    (cpsds : list (option str)) (reference_nos valves : list str)
    (order_lines : list sku_line)
    (order_number : Z) (customer_id : option Z) (customer_name : option str)
    (final_entry_id : str) (address : address_result)
    (options : options_result) :
  let N := List.length order_lines in
  1 <= N ->
  List.length (assign_cpsds cpsds N) = N
  /\ List.length (assign_references reference_nos N) = N
  /\ List.length (assign_valves valves N) = N
  /\ exists merged,
       merge_from 0 order_lines order_number customer_id customer_name
         (assign_references reference_nos N) (assign_valves valves N)
         (assign_cpsds cpsds N) final_entry_id address options
       = Returned merged
       /\ List.length merged = N.
Proof.
  intros N _.
  repeat split;
    [apply assign_cpsds_length | apply assign_references_length
    | apply assign_valves_length |].
  apply merge_from_total; simpl;
    rewrite ?assign_cpsds_length, ?assign_references_length,
      ?assign_valves_length; apply Nat.le_refl.
Qed.

(** Three product lines, one date, two reference numbers and four valve
    flags: every list is aligned to three entries. *)
Lemma phase4_alignment_cardinality_witness :
  let order_lines :=
    [ {| sl_sku := py "NAT140080BLCO"; sl_quantity := 1; sl_family_desc := None |};
      {| sl_sku := py "NAT150080BLCO"; sl_quantity := 1; sl_family_desc := None |};
      {| sl_sku := py "NAT130080BLCO"; sl_quantity := 2; sl_family_desc := None |} ] in
  let cpsds := [Some (py "2025-10-15")] in
  let reference_nos := [py "A1"; py "A2"] in
  let valves := [py "Yes"; py "no"; py "no"; py "no"] in
  List.length (assign_cpsds cpsds 3) = 3
  /\ List.length (assign_references reference_nos 3) = 3
  /\ List.length (assign_valves valves 3) = 3
  /\ exists merged,
       merge_from 0 order_lines 7 (Some 2522%Z) None
         (assign_references reference_nos 3) (assign_valves valves 3)
         (assign_cpsds cpsds 3) (py "msg-1")
         {| ar_delivery_address := None; ar_telephone_number := None;
            ar_contact_name := None |}
         {| op_option_sku := None; op_option_qty := None |}
       = Returned merged
       /\ List.length merged = 3.
Proof.
  intros order_lines cpsds reference_nos valves.
  apply (@phase4_alignment_cardinality cpsds reference_nos valves order_lines).
  simpl. lia.
Defined.

(** ** Valve flags *)

Section ValveFacts.

Lemma no_is_valid : valid_valve (py "no").
Proof. reflexivity. Qed.

Lemma valve_or_default_kept (v : json) (ok : bool) :
  in_valid_valves v = Returned ok -> valve_or_default v ok = kept_valve v.
Proof.
  destruct v; simpl; intros E; inversion E; reflexivity.
Qed.

Lemma kept_valve_valid (v : json) : valid_valve (kept_valve v).
Proof.
  destruct v; cbn [kept_valve]; try exact no_is_valid.
  destruct (mem s VALID_VALVE_VALUES) eqn:E; [exact E | exact no_is_valid].
Qed.

(** A validation that returns keeps [kept_valve] of every element. *)
Lemma validate_valves_returned (valves : list json) :
  forall checked,
    validate_valves valves = Returned checked ->
    checked = List.map kept_valve valves.
Proof.
  induction valves as [| v rest IH]; simpl; intros checked E.
  - inversion E. reflexivity.
  - destruct (in_valid_valves v) as [ok |] eqn:Eok; [| discriminate].
    destruct (validate_valves rest) as [more |]; [| discriminate].
    inversion E; subst. rewrite (valve_or_default_kept _ Eok), (IH more eq_refl).
    reflexivity.
Qed.

Lemma validate_valves_defaults (k : nat) :
  validate_valves (repeat (JStr no_valve) k) = Returned (repeat (py "no") k).
Proof.
  induction k as [| k IH]; simpl; [reflexivity |].
  rewrite IH. reflexivity.
Qed.

Lemma sized_length (valves : list json) (n : nat) :
  List.length (sized valves n) = n.
Proof.
  unfold sized.
  destruct (Nat.eqb_spec (List.length valves) n) as [E | _]; simpl; [exact E |].
  destruct (Nat.ltb_spec (List.length valves) n).
  - rewrite length_app, repeat_length. lia.
  - rewrite length_firstn. lia.
Qed.

Lemma sized_nth (valves : list json) (n i : nat) :
  i < n -> nth i (sized valves n) (JStr no_valve) = nth i valves (JStr no_valve).
Proof.
  intros Hi. unfold sized.
  destruct (Nat.eqb_spec (List.length valves) n) as [E | _]; simpl;
    [reflexivity |].
  destruct (Nat.ltb_spec (List.length valves) n).
  - destruct (Nat.lt_ge_cases i (List.length valves)).
    + apply app_nth1. assumption.
    + rewrite app_nth2 by assumption. rewrite nth_repeat.
      symmetry. apply nth_overflow. assumption.
  - rewrite nth_firstn. destruct (Nat.ltb_spec i n); [reflexivity | lia].
Qed.

(** [detect_valve_request] returns [n] valid values: at each position the
    value of the oracle when it is a valid string, and "no" otherwise;
    or "no" everywhere when the call or the validation raised. *)
Lemma detect_valve_request_spec (response : outcome (option json)) (n : nat) :
  let out := vr_valves (detect_valve_request response n) in
  List.length out = n
  /\ Forall valid_valve out
  /\ (out = repeat (py "no") n
      \/ exists items,
           response = Returned (Some (JArr items))
           /\ forall i, i < n ->
                nth i out (py "no") = kept_valve (nth i items (JStr no_valve))).
Proof.
  assert (Hno : forall k, Forall valid_valve (repeat (py "no") k)).
  { intros k. apply Forall_forall. intros x Hx.
    rewrite (repeat_spec _ _ _ Hx). exact no_is_valid. }
  unfold detect_valve_request.
  destruct response as [found | e]; simpl;
    [| rewrite repeat_length; auto].
  fold (sized match found with
              | Some (JArr items) => items
              | Some _ => repeat (JStr no_valve) n
              | None => []
              end n).
  set (valves := match found with
                 | Some (JArr items) => items
                 | Some _ => repeat (JStr no_valve) n
                 | None => []
                 end).
  destruct (validate_valves (sized valves n)) as [checked | e] eqn:Ev; simpl;
    [| rewrite repeat_length; auto].
  apply validate_valves_returned in Ev. subst checked.
  rewrite length_map, sized_length.
  split; [reflexivity |].
  split.
  { apply Forall_forall. intros x Hx. apply in_map_iff in Hx.
    destruct Hx as (v & <- & _). apply kept_valve_valid. }
  assert (Hnth : forall i, i < n ->
            nth i (List.map kept_valve (sized valves n)) (py "no")
            = kept_valve (nth i valves (JStr no_valve))).
  { intros i Hi.
    change (py "no") with (kept_valve (JStr no_valve)).
    rewrite map_nth, sized_nth by assumption. reflexivity. }
  assert (Hdefault : (forall i, i < n ->
                        kept_valve (nth i valves (JStr no_valve)) = py "no") ->
                     List.map kept_valve (sized valves n) = repeat (py "no") n).
  { intros Hall. apply (nth_ext _ _ (py "no") (py "no")).
    - rewrite length_map, sized_length, repeat_length. reflexivity.
    - intros i Hi. rewrite length_map, sized_length in Hi.
      rewrite Hnth, nth_repeat by assumption. apply Hall. assumption. }
  destruct found as [[| | | | | items |] |]; subst valves;
    try (left; apply Hdefault; intros i Hi;
         first [ rewrite nth_repeat; reflexivity
               | destruct i; reflexivity ]).
  right. exists items. split; [reflexivity | exact Hnth].
Qed.

End ValveFacts.

(** C4 as stated fails: one extracted valve flag for three product lines is
    not given to the three lines, neither by [detect_valve_request] nor by
    the assignment of phase 4. *)
Lemma single_valve_not_broadcast :
  assign_valves [py "Vertical valve"] 3 <> repeat (py "Vertical valve") 3
  /\ vr_valves (detect_valve_request
                  (Returned (Some (JArr [JStr (py "Vertical valve")]))) 3)
     <> repeat (py "Vertical valve") 3.
Proof.
  split; intros H; vm_compute in H; discriminate H.
Qed.

(** C4, amended: when one valve flag is extracted for [N > 1] product lines,
    the first line gets that flag (or "no" when the flag is not a valid
    value) and each of the other [N - 1] lines gets the default "no"; this
    is what [detect_valve_request], the assignment of phase 4, and the two
    in sequence do. *)
Theorem single_valve_padded_with_default (v : str) (N : nat) :
  1 < N ->
  let first := if mem v VALID_VALVE_VALUES then v else py "no" in
  let detected :=
    vr_valves (detect_valve_request (Returned (Some (JArr [JStr v]))) N) in
  assign_valves [v] N = v :: repeat (py "no") (N - 1)
  /\ detected = first :: repeat (py "no") (N - 1)
  /\ assign_valves detected N = first :: repeat (py "no") (N - 1).
Proof.
  intros HN first detected.
  assert (Hdet : detected = first :: repeat (py "no") (N - 1)).
  { unfold detected, detect_valve_request. simpl List.length.
    destruct (Nat.eqb_spec 1 N) as [E | _]; [lia |]. simpl negb.
    destruct (Nat.ltb_spec 1 N) as [_ | H]; [| lia].
    cbn [app validate_valves in_valid_valves].
    rewrite validate_valves_defaults. reflexivity. }
  split; [| split; [exact Hdet |]].
  - unfold assign_valves. simpl List.length.
    destruct (Nat.eqb_spec 1 N) as [E | _]; [lia |].
    destruct (Nat.ltb_spec 1 N) as [_ | H]; [reflexivity | lia].
  - rewrite Hdet. unfold assign_valves. simpl List.length.
    rewrite repeat_length.
    replace (S (N - 1)) with N by lia. rewrite Nat.eqb_refl. reflexivity.
Qed.

(** One vertical valve for three lines: the two other lines get "no". *)
Lemma single_valve_padded_with_default_witness :
  assign_valves [py "Vertical valve"] 3
  = [py "Vertical valve"; py "no"; py "no"].
Proof.
  exact (proj1 (@single_valve_padded_with_default (py "Vertical valve") 3
                  ltac:(lia))).
Defined.

(** ** The orchestrator *)

Section OrchestratorFacts.

Variable jaro_winkler : str -> str -> Q.
Variable w : world.
Variables (db_helper : DatabaseHelper) (email_text : str)
          (order_number : Z) (message_id : str)
          (email_metadata_map : list (str * email_metadata)).

(** A call of the oracle that raises leaves phase 1 without customer. *)
Lemma extract_customer_id_raised (e : str)
    (all_customers : outcome (list (Z * str)))
    (email_lookup : str -> option (Z * str)) (text : str) :
  cr_customer_id
    (fst (extract_customer_id jaro_winkler db_helper (Raised e)
            all_customers email_lookup text)) = None.
Proof. reflexivity. Qed.

Lemma failure_stub_is_stub (n : Z) (cid : option Z) (cname : option str)
    (mid : str) (err : option str) (text : str) :
  is_failure_stub (failure_stub n cid cname mid err text).
Proof.
  unfold is_failure_stub, failure_stub; simpl.
  repeat split; discriminate.
Qed.

(** The three ways [process_single_email] ends. *)
Lemma process_single_email_cases :
  let text1 := with_metadata email_text message_id email_metadata_map in
  let customer_result :=
    fst (extract_customer_id jaro_winkler db_helper
           (customer_response_for w text1) (get_all_customers w)
           (email_lookup_for_customer w) text1) in
  let sku_result := extract_sku_and_quantity w email_text in
  let run :=
    process_single_email jaro_winkler w db_helper email_text order_number
      message_id email_metadata_map in
  let failed1 :=
    truthy_opt_str (cr_error customer_result)
    || negb (truthy_opt_int (cr_customer_id customer_result)) in
  let failed2 :=
    truthy_opt_str (sr_error sku_result)
    || is_empty (sr_order_lines sku_result) in
  (failed1 = true
   /\ snd (fst run) = [phase1_extract_customer_id]
   /\ exists failure_contexts,
        fst (fst run)
        = Returned ([failure_stub order_number None None message_id
                       (cr_error customer_result) email_text],
                    failure_contexts)
        /\ List.length failure_contexts <= 1)
  \/ (failed1 = false /\ failed2 = true
      /\ snd (fst run)
         = [phase1_extract_customer_id; phase2_extract_sku_and_quantity]
      /\ exists failure_contexts,
           fst (fst run)
           = Returned ([failure_stub order_number
                          (cr_customer_id customer_result)
                          (cr_customer_name customer_result) message_id
                          (sr_error sku_result) email_text],
                       failure_contexts)
           /\ List.length failure_contexts <= 1)
  \/ (failed1 = false /\ failed2 = false
      /\ exists merged,
           fst (fst run) = Returned (merged, [])
           /\ List.length merged = List.length (sr_order_lines sku_result)
           /\ Forall (fun r => valid_valve (ol_valve r)) merged).
Proof.
  intros text1 customer_result sku_result run failed1 failed2.
  subst run failed1 failed2 customer_result. unfold process_single_email.
  fold text1.
  destruct (extract_customer_id jaro_winkler db_helper
              (customer_response_for w text1) (get_all_customers w)
              (email_lookup_for_customer w) text1) as [cr db'].
  cbn [fst].
  destruct (truthy_opt_str (cr_error cr)
            || negb (truthy_opt_int (cr_customer_id cr))).
  { left. split; [reflexivity |]. split; [reflexivity |].
    destruct (cr_failure_context cr); eexists; (split; [reflexivity |]);
      simpl; lia. }
  right. fold sku_result.
  destruct (truthy_opt_str (sr_error sku_result)
            || is_empty (sr_order_lines sku_result)).
  { left. split; [reflexivity |]. split; [reflexivity |]. split; [reflexivity |].
    destruct (sr_failure_context sku_result); eexists;
      (split; [reflexivity |]); simpl; lia. }
  right. split; [reflexivity |]. split; [reflexivity |].
  set (num_lines := List.length (sr_order_lines sku_result)).
  set (valves := assign_valves _ num_lines).
  set (refs := assign_references _ num_lines).
  set (cpsds := assign_cpsds _ num_lines).
  match goal with
  | |- context [merge_from 0 ?ls ?n ?c ?cn refs valves cpsds ?e ?a ?o] =>
      destruct (@merge_from_total n c cn e a o refs valves cpsds ls 0)
        as (merged & Em & Hlen);
      [ subst refs; rewrite assign_references_length; apply Nat.le_refl
      | subst valves; rewrite assign_valves_length; apply Nat.le_refl
      | subst cpsds; rewrite assign_cpsds_length; apply Nat.le_refl
      | pose proof (@merge_from_valves n c cn e a o refs valves cpsds ls 0
                      merged Em) as Hval;
        rewrite Em ]
  end.
  exists merged. split; [reflexivity |]. split; [exact Hlen |].
  apply Forall_forall. intros r Hr. specialize (Hval r Hr).
  subst valves. apply assign_valves_in in Hval.
  destruct Hval as [Hin | ->]; [| exact no_is_valid].
  cbn [read] in Hin.
  pose proof (detect_valve_request_spec
                (valves_response_for w email_text num_lines) num_lines)
    as (_ & Hall & _).
  rewrite Forall_forall in Hall. apply Hall. exact Hin.
Qed.

End OrchestratorFacts.

(** C8: when phase 1 fails (its result has an error), returns no result (no
    customer id) or raises (the call of the oracle raises), or when phase 2
    fails, returns no product line or raises (the result of its [except]
    branch), [process_single_email] returns exactly one record, a failure
    stub, and at most one failure context, and none of the five sub-agents
    of phase 3 is submitted nor the merge of phase 4 reached. *)
Theorem hard_failure_yields_one_stub
    (jaro_winkler : str -> str -> Q) (w : world) (db_helper : DatabaseHelper)
    (email_text : str) (order_number : Z) (message_id : str)
    (email_metadata_map : list (str * email_metadata)) :
  let text1 := with_metadata email_text message_id email_metadata_map in
  let customer_result :=
    fst (extract_customer_id jaro_winkler db_helper
           (customer_response_for w text1) (get_all_customers w)
           (email_lookup_for_customer w) text1) in
  let sku_result := extract_sku_and_quantity w email_text in
  let run :=
    process_single_email jaro_winkler w db_helper email_text order_number
      message_id email_metadata_map in
  truthy_opt_str (cr_error customer_result) = true
  \/ truthy_opt_int (cr_customer_id customer_result) = false
  \/ (exists e, customer_response_for w text1 = Raised e)
  \/ truthy_opt_str (sr_error sku_result) = true
  \/ sr_order_lines sku_result = []
  \/ (exists e, sku_result = sku_exception_result e email_text) ->
  exists stub failure_contexts,
    fst (fst run) = Returned ([stub], failure_contexts)
    /\ is_failure_stub stub
    /\ List.length failure_contexts <= 1
    /\ forall e, In e (snd (fst run)) -> later_phase e = false.
Proof.
  intros text1 customer_result sku_result run Hfail.
  pose proof (process_single_email_cases jaro_winkler w db_helper email_text
                order_number message_id email_metadata_map) as Hcases.
  cbv zeta in Hcases. fold text1 in Hcases. fold customer_result in Hcases.
  fold sku_result in Hcases. fold run in Hcases.
  destruct Hcases as [(_ & Htrace & fcs & Hrun & Hlen)
                     | [(_ & _ & Htrace & fcs & Hrun & Hlen)
                       | (H1 & H2 & _)]].
  - eexists; exists fcs. split; [exact Hrun |].
    split; [apply failure_stub_is_stub |]. split; [exact Hlen |].
    rewrite Htrace. intros e [<- | []]. reflexivity.
  - eexists; exists fcs. split; [exact Hrun |].
    split; [apply failure_stub_is_stub |]. split; [exact Hlen |].
    rewrite Htrace. intros e [<- | [<- | []]]; reflexivity.
  - exfalso.
    apply orb_false_iff in H1. destruct H1 as [H1e H1c].
    apply negb_false_iff in H1c.
    apply orb_false_iff in H2. destruct H2 as [H2e H2l].
    destruct Hfail as [H | [H | [(e & H) | [H | [H | (e & H)]]]]].
    + congruence.
    + congruence.
    + subst customer_result. rewrite H in H1c.
      rewrite extract_customer_id_raised in H1c. discriminate H1c.
    + congruence.
    + rewrite H in H2l. discriminate H2l.
    + rewrite H in H2l. discriminate H2l.
Qed.

(** An email with no customer name and no sender line, and an email whose
    customer is known but with no product line: one stub each. *)
Lemma hard_failure_yields_one_stub_witness :
  (exists stub failure_contexts,
      fst (fst (process_single_email (fun _ _ => 0%Q)
                  (example_world (Returned no_names) two_lines (Returned None))
                  empty_helper (py "PEDIDO") 1 (py "msg-1") []))
      = Returned ([stub], failure_contexts)
      /\ is_failure_stub stub)
  /\ (exists stub failure_contexts,
         fst (fst (process_single_email (fun _ _ => 0%Q)
                     (example_world (Returned direct_customer) no_lines
                        (Returned None))
                     empty_helper (py "PEDIDO") 2 (py "msg-2") []))
         = Returned ([stub], failure_contexts)
         /\ is_failure_stub stub).
Proof.
  split.
  - destruct (@hard_failure_yields_one_stub (fun _ _ => 0%Q)
                (example_world (Returned no_names) two_lines (Returned None))
                empty_helper (py "PEDIDO") 1 (py "msg-1") [])
      as (stub & fcs & Hrun & Hstub & _).
    + left. vm_compute. reflexivity.
    + exists stub, fcs. split; assumption.
  - destruct (@hard_failure_yields_one_stub (fun _ _ => 0%Q)
                (example_world (Returned direct_customer) no_lines
                   (Returned None))
                empty_helper (py "PEDIDO") 2 (py "msg-2") [])
      as (stub & fcs & Hrun & Hstub & _).
    + right. right. right. right. left. reflexivity.
    + exists stub, fcs. split; assumption.
Defined.

(** C9: every record [process_single_email] returns, and every record the
    loop of [extract_data_task] appends for an email (merged line or failure
    stub of phase 1 or 2; the loop appends the records of the email, and its
    handler appends none), has a valve among "no", "Yes",
    "Horizontal valve", "Vertical valve" and "Rectangular valve";
    [detect_valve_request] returns one such value per order line, the value
    of the oracle where it is a valid one and "no" where it is missing or
    invalid. *)
Theorem valve_always_in_enumeration
    (jaro_winkler : str -> str -> Q) (w : world) (db_helper : DatabaseHelper)
    (email_text : str) (order_number : Z) (message_id : str)
    (email_metadata_map : list (str * email_metadata)) :
  (forall order_lines failure_contexts,
      fst (fst (process_single_email jaro_winkler w db_helper email_text
                  order_number message_id email_metadata_map))
      = Returned (order_lines, failure_contexts) ->
      Forall (fun r => valid_valve (ol_valve r)) order_lines)
  /\ (exists order_lines failure_contexts,
         fst (extract_data_task_step jaro_winkler w db_helper email_text
                order_number message_id email_metadata_map)
         = Returned (order_lines, failure_contexts)
         /\ Forall (fun r => valid_valve (ol_valve r)) order_lines)
  /\ (forall response n,
         let out := vr_valves (detect_valve_request response n) in
         List.length out = n
         /\ Forall valid_valve out
         /\ (out = repeat (py "no") n
             \/ exists items,
                  response = Returned (Some (JArr items))
                  /\ forall i, i < n ->
                       nth i out (py "no")
                       = kept_valve (nth i items (JStr no_valve)))).
Proof.
  assert (Hstub : forall n cid cname mid err text,
             Forall (fun r => valid_valve (ol_valve r))
                    [failure_stub n cid cname mid err text]).
  { intros. constructor; [exact no_is_valid | constructor]. }
  assert (Hrun : forall order_lines failure_contexts,
             fst (fst (process_single_email jaro_winkler w db_helper email_text
                         order_number message_id email_metadata_map))
             = Returned (order_lines, failure_contexts) ->
             Forall (fun r => valid_valve (ol_valve r)) order_lines).
  { intros order_lines fcs E.
    pose proof (process_single_email_cases jaro_winkler w db_helper email_text
                  order_number message_id email_metadata_map) as Hcases.
    cbv zeta in Hcases. rewrite E in Hcases.
    destruct Hcases as [(_ & _ & fcs' & Hr & _)
                       | [(_ & _ & _ & fcs' & Hr & _)
                         | (_ & _ & merged & Hr & _ & Hvalid)]];
      inversion Hr; subst; auto. }
  split; [exact Hrun |]. split; [| exact detect_valve_request_spec].
  unfold extract_data_task_step.
  pose proof (process_single_email_cases jaro_winkler w db_helper email_text
                order_number message_id email_metadata_map) as Hcases.
  cbv zeta in Hcases.
  destruct (process_single_email jaro_winkler w db_helper email_text
              order_number message_id email_metadata_map)
    as [[[[order_lines fcs] | e] trace] db'] eqn:E; cbn [fst] in *.
  - exists order_lines, fcs. split; [reflexivity |].
    apply (Hrun order_lines fcs). reflexivity.
  - exfalso.
    destruct Hcases as [(_ & _ & fcs' & Hr & _)
                       | [(_ & _ & _ & fcs' & Hr & _)
                         | (_ & _ & merged & Hr & _)]];
      discriminate Hr.
Qed.

(** An email with two product lines for which the oracle answers a valid
    flag, an unknown word and a number: the two records carry the valid flag
    and "no". *)
Lemma valve_always_in_enumeration_witness :
  exists order_lines,
    fst (fst (process_single_email (fun _ _ => 0%Q)
                (example_world (Returned direct_customer) two_lines
                   (Returned (Some (JArr [JStr (py "Vertical valve");
                                          JStr (py "maybe"); JInt 3]))))
                empty_helper (py "PEDIDO") 3 (py "msg-3") []))
    = Returned (order_lines, [])
    /\ List.map ol_valve order_lines = [py "Vertical valve"; py "no"]
    /\ Forall (fun r => valid_valve (ol_valve r)) order_lines.
Proof.
  eexists. split; [vm_compute; reflexivity |].
  split; [vm_compute; reflexivity |].
  apply (proj1 (@valve_always_in_enumeration (fun _ _ => 0%Q)
                  (example_world (Returned direct_customer) two_lines
                     (Returned (Some (JArr [JStr (py "Vertical valve");
                                            JStr (py "maybe"); JInt 3]))))
                  empty_helper (py "PEDIDO") 3 (py "msg-3") []))
    with (failure_contexts := []).
  vm_compute. reflexivity.
Defined.

(** ** Customer identification *)

(** The sibling path of C1: with candidate names that match no customer and
    a failed address fallback, the result carries a failure context of kind
    [customer_id] whose [email_lookup_attempted] is true. *)
Lemma unmatched_names_failure_context
    (jaro_winkler : str -> str -> Q) (db_helper db_helper' : DatabaseHelper)
    (response : customer_response) (all_customers : outcome (list (Z * str)))
    (email_lookup : str -> option (Z * str)) (email_text : str)
    (closest : option str) (details : match_details) :
  resp_customer_id response = None \/ resp_needs_fuzzy_match response = true ->
  resp_customer_names response <> [] ->
  fuzzy_match_customer jaro_winkler db_helper all_customers
    (resp_customer_names response) (Some (85 # 100)%Q)
  = (Returned (None, closest, details), db_helper') ->
  try_email_lookup_fallback email_lookup email_text = None ->
  exists d,
    option_map fc_details
      (cr_failure_context
         (fst (extract_customer_id jaro_winkler db_helper (Returned response)
                 all_customers email_lookup email_text)))
    = Some (customer_id_type d)
    /\ email_lookup_attempted d = true.
Proof.
  intros Hdirect Hnames Hfuzzy Hfallback. unfold extract_customer_id.
  destruct (resp_customer_names response) as [| name names] eqn:En;
    [contradiction |].
  rewrite Hfuzzy, Hfallback.
  destruct (resp_customer_id response), (resp_needs_fuzzy_match response);
    try (eexists; split; reflexivity).
  destruct Hdirect; discriminate.
Qed.

(** C1, on the code: with zero candidate names and a failed address
    fallback, [extract_customer_id] returns a no-match result that carries
    no failure context at all (the key is absent). *)
Theorem zero_names_result_has_no_failure_context
    (jaro_winkler : str -> str -> Q) (db_helper : DatabaseHelper)
    (response : customer_response) (all_customers : outcome (list (Z * str)))
    (email_lookup : str -> option (Z * str)) (email_text : str) :
  resp_customer_id response = None \/ resp_needs_fuzzy_match response = true ->
  resp_customer_names response = [] ->
  try_email_lookup_fallback email_lookup email_text = None ->
  let result :=
    fst (extract_customer_id jaro_winkler db_helper (Returned response)
           all_customers email_lookup email_text) in
  cr_customer_id result = None
  /\ cr_error result
     = Some (py "No customer names found in email and email lookup fallback failed")
  /\ cr_failure_context result = None.
Proof.
  intros Hdirect Hnames Hfallback. unfold extract_customer_id.
  rewrite Hnames, Hfallback.
  destruct (resp_customer_id response), (resp_needs_fuzzy_match response);
    try (repeat split; reflexivity).
  destruct Hdirect; discriminate.
Qed.

(** The failing input of C1: no name from the oracle, an email without any
    sender line; no failure context comes back, and the orchestrator records
    none for the email. *)
Lemma zero_names_result_has_no_failure_context_witness :
  cr_failure_context
    (fst (extract_customer_id (fun _ _ => 0%Q) empty_helper (Returned no_names)
            (Returned []) (fun _ => None) (py "PEDIDO"))) = None
  /\ exists stub,
       fst (fst (process_single_email (fun _ _ => 0%Q)
                   (example_world (Returned no_names) two_lines (Returned None))
                   empty_helper (py "PEDIDO") 1 (py "msg-1") []))
       = Returned ([stub], []).
Proof.
  split.
  - apply (@zero_names_result_has_no_failure_context (fun _ _ => 0%Q)
             empty_helper no_names (Returned []) (fun _ => None) (py "PEDIDO")).
    + left. reflexivity.
    + reflexivity.
    + vm_compute. reflexivity.
  - eexists. vm_compute. reflexivity.
Defined.

(** ** Name normalisation and scoring *)

(** C7, on the code: on the example of its own docstring
    [normalize_business_name] returns a text with an upper-case "SL" (and
    the final period), which a second application lower-cases: the function
    is not idempotent there. *)
Theorem normalize_business_name_not_idempotent :
  let x := py "MATERIALES DE CONSTRUCCION SORIA S.L." in
  normalize_business_name x = py "materiales de construccion soria SL."
  /\ normalize_business_name (normalize_business_name x)
     = py "materiales de construccion soria sl."
  /\ normalize_business_name (normalize_business_name x)
     <> normalize_business_name x.
Proof.
  split; [vm_compute; reflexivity |].
  split; [vm_compute; reflexivity |].
  intros H. vm_compute in H. discriminate H.
Qed.

Section BarrosoScenario.

Variable jaro_winkler : str -> str -> Q.

Lemma candidate_normalized :
  normalize_personal_name (clean_name (py "MARIA ANTONIO BARROSO"))
  = py "antonia barroso maria".
Proof. vm_compute. reflexivity. Qed.

(** With the shared surname, the adjustment of a personal pair is the
    capped boost of one surname. *)
Lemma barroso_weighted (base_score : Q) :
  calculate_weighted_token_similarity (py "antonia barroso maria")
    (py "antonia barroso maria morales") base_score
  = Qmin (base_score + Qmin (inject_Z 1 * (3 # 100)) (6 # 100)) 1.
Proof. vm_compute. reflexivity. Qed.

Lemma barroso_final_score :
  (85 # 100
   <= fst (fst (score_pair jaro_winkler
                  (normalize_personal_name
                     (clean_name (py "MARIA ANTONIO BARROSO")))
                  true [] barroso_entry)))%Q.
Proof.
  rewrite candidate_normalized. unfold score_pair.
  cbn [cc_normalized cc_keywords cc_is_personal barroso_entry andb fst].
  replace (Fuzz.token_set_ratio (py "antonia barroso maria")
             (py "antonia barroso maria morales")) with 100%Q
    by (vm_compute; reflexivity).
  replace (Qgeb (100 / 100) (70 # 100)) with true by (vm_compute; reflexivity).
  rewrite barroso_weighted.
  pose proof (Q.le_max_l (100 / 100) (calculate_jaro_winkler_similarity
                jaro_winkler (py "antonia barroso maria")
                (py "antonia barroso maria morales"))) as Hmax.
  set (base := Qmax _ _) in *.
  replace (Qmin (inject_Z 1 * (3 # 100)) (6 # 100)) with (3 # 100)%Q
    by (vm_compute; reflexivity).
  assert (H1 : (100 / 100 == 1)%Q) by reflexivity.
  apply Q.min_glb; lra.
Qed.

(** The three scores of the pair: the token-set ratio is 100, so the base
    score is at least 1 and the capped boost of the surname leaves a final
    score of 1. *)
Lemma barroso_scores :
  let scores :=
    score_pair jaro_winkler
      (normalize_personal_name (clean_name (py "MARIA ANTONIO BARROSO")))
      true [] barroso_entry in
  (fst (fst scores) == 1)%Q
  /\ (1 <= snd (fst scores))%Q
  /\ (snd scores <= 0)%Q
  /\ ((jaro_winkler (py "antonia barroso maria")
         (py "antonia barroso maria morales") <= 1)%Q ->
      (snd (fst scores) == 1)%Q /\ (snd scores == 0)%Q).
Proof.
  rewrite candidate_normalized. unfold score_pair.
  cbn [cc_normalized cc_keywords cc_is_personal barroso_entry andb fst snd].
  replace (Fuzz.token_set_ratio (py "antonia barroso maria")
             (py "antonia barroso maria morales")) with 100%Q
    by (vm_compute; reflexivity).
  replace (Qgeb (100 / 100) (70 # 100)) with true by (vm_compute; reflexivity).
  rewrite barroso_weighted. unfold calculate_jaro_winkler_similarity.
  set (jaro := jaro_winkler _ _).
  pose proof (Q.le_max_l (100 / 100) jaro) as Hmax.
  assert (Hlub : (jaro <= 1)%Q -> (Qmax (100 / 100) jaro <= 1)%Q)
    by (intros Hj; apply Q.max_lub; [unfold Qle; simpl; lia | exact Hj]).
  set (base := Qmax (100 / 100) jaro) in *.
  replace (Qmin (inject_Z 1 * (3 # 100)) (6 # 100)) with (3 # 100)%Q
    by (vm_compute; reflexivity).
  assert (H1 : (100 / 100 == 1)%Q) by reflexivity.
  assert (Hfinal : (Qmin (base + (3 # 100)) 1 == 1)%Q).
  { apply Qle_antisym; [apply Q.le_min_r | apply Q.min_glb; lra]. }
  cbv zeta. cbn [fst snd].
  split; [exact Hfinal |]. split; [lra |]. split; [lra |].
  intros Hj. specialize (Hlub Hj). split; lra.
Qed.

(** The outer loop body, with its local names. *)
Lemma match_name_unfold (cache : customer_cache) (best : best_so_far)
    (name : str) :
  match_name jaro_winkler cache best name
  = let clean := clean_name name in
    let personal := is_personal_name clean in
    fold_left
      (match_customer jaro_winkler name
         (if personal then normalize_personal_name clean
          else normalize_business_name clean)
         personal
         (if personal then [] else extract_buying_group_keywords clean))
      cache best.
Proof. reflexivity. Qed.

(** The matcher, on a registry with this one customer, returns it. *)
Lemma barroso_matched :
  exists details,
    fst (fuzzy_match_customer jaro_winkler empty_helper
           (Returned [(2522%Z, py "BARROSO MORALES MARIA ANTONIA")])
           [py "MARIA ANTONIO BARROSO"] (Some (85 # 100)%Q))
    = Returned (Some 2522%Z, Some (py "BARROSO MORALES MARIA ANTONIA"),
                details)
    /\ (85 # 100 <= md_best_score details)%Q.
Proof.
  pose proof barroso_final_score as Hfinal.
  unfold fuzzy_match_customer.
  cbn [_normalized_customers_cache empty_helper threshold_or_default].
  replace (_initialize_customer_cache
             [(2522%Z, py "BARROSO MORALES MARIA ANTONIA")])
    with [(2522%Z, barroso_entry)] by (vm_compute; reflexivity).
  cbn [fold_left]. rewrite match_name_unfold. cbv zeta.
  replace (is_personal_name (clean_name (py "MARIA ANTONIO BARROSO")))
    with true by (vm_compute; reflexivity).
  cbn [fold_left]. unfold match_customer.
  destruct (score_pair jaro_winkler
              (normalize_personal_name (clean_name (py "MARIA ANTONIO BARROSO")))
              true [] barroso_entry) as [[final base] boost].
  cbn [fst] in Hfinal. cbn [best_score no_best].
  assert (Hgt : Qgtb final 0 = true).
  { unfold Qgtb. apply negb_true_iff.
    destruct (Qle_bool final 0) eqn:E; [| reflexivity].
    apply Qle_bool_iff in E. lra. }
  rewrite Hgt. cbn [best_score].
  assert (Hge : Qgeb final (85 # 100) = true)
    by (unfold Qgeb; apply Qle_bool_iff; exact Hfinal).
  rewrite Hge. eexists. split; [reflexivity | exact Hfinal].
Qed.

End BarrosoScenario.

(** C6 as stated fails: in this scenario the shared surname contributes no
    boost.  The token sets of the two normal forms are contained in one
    another, so the token-set score is already 100 and the base score 1.0;
    the adjustment of the personal pair returns 1.0 for the base 1.0, and
    for every Jaro-Winkler scorer the final score is not above the base
    score and the boost recorded for the pair is not positive (it is 0 for
    a scorer with values up to 1). *)
Lemma barroso_surname_adds_no_boost :
  (calculate_weighted_token_similarity (py "antonia barroso maria")
     (py "antonia barroso maria morales") 1 == 1)%Q
  /\ (Fuzz.token_set_ratio (py "antonia barroso maria")
        (py "antonia barroso maria morales") == 100)%Q
  /\ (forall jaro_winkler : str -> str -> Q,
         let scores :=
           score_pair jaro_winkler
             (normalize_personal_name
                (clean_name (py "MARIA ANTONIO BARROSO")))
             true [] barroso_entry in
         (fst (fst scores) <= snd (fst scores))%Q
         /\ (snd scores <= 0)%Q
         /\ ((forall a b, jaro_winkler a b <= 1)%Q -> (snd scores == 0)%Q)).
Proof.
  split; [vm_compute; reflexivity |].
  split; [vm_compute; reflexivity |].
  intros jaro_winkler scores.
  destruct (barroso_scores jaro_winkler) as (Hfinal & Hbase & Hboost & Hjw).
  fold scores in Hfinal, Hbase, Hboost, Hjw.
  split; [lra |]. split; [exact Hboost |].
  intros Hle. apply Hjw, Hle.
Qed.

(** C6, amended: "MARIA ANTONIO BARROSO" and "BARROSO MORALES MARIA ANTONIA"
    are both classified as personal names; their normal forms are
    "antonia barroso maria" and "antonia barroso maria morales" (the gendered
    variants unified, the tokens sorted and distinct); the token-set score
    of the two normal forms is 100; the common tokens hold exactly one
    surname, "barroso", so [calculate_weighted_token_similarity] takes its
    surname branch on this pair: for every base score it returns the base
    plus 0.03 capped at 1.0, which is above every base score below 1.0.  In
    the scenario the base score is at least 1.0, so the cap leaves a final
    score of 1.0, which is at least 0.85 whatever the Jaro-Winkler scorer
    returns, and the boost recorded is not positive; the matcher returns the
    record. *)
Theorem barroso_scenario_scores_above_threshold
    (jaro_winkler : str -> str -> Q) :
  let candidate := clean_name (py "MARIA ANTONIO BARROSO") in
  let record := py "BARROSO MORALES MARIA ANTONIA" in
  let scores :=
    score_pair jaro_winkler (normalize_personal_name candidate)
      (is_personal_name candidate) [] barroso_entry in
  is_personal_name candidate = true
  /\ is_personal_name (clean_name record) = true
  /\ normalize_personal_name candidate = py "antonia barroso maria"
  /\ _initialize_customer_cache [(2522%Z, record)] = [(2522%Z, barroso_entry)]
  /\ List.filter (fun t => mem t COMMON_SPANISH_SURNAMES)
       (set_inter (set_of (split (py "antonia barroso maria")))
          (set_of (split (py "antonia barroso maria morales"))))
     = [py "barroso"]
  /\ (Fuzz.token_set_ratio (py "antonia barroso maria")
        (py "antonia barroso maria morales") == 100)%Q
  /\ (forall base_score,
         (calculate_weighted_token_similarity (py "antonia barroso maria")
            (py "antonia barroso maria morales") base_score
          == Qmin (base_score + (3 # 100)) 1)%Q)
  /\ (forall base_score,
         (base_score < 1)%Q ->
         (base_score
          < calculate_weighted_token_similarity (py "antonia barroso maria")
              (py "antonia barroso maria morales") base_score)%Q)
  /\ (85 # 100 <= fst (fst scores))%Q
  /\ (fst (fst scores) == 1)%Q
  /\ (1 <= snd (fst scores))%Q
  /\ (snd scores <= 0)%Q
  /\ exists details,
       fst (fuzzy_match_customer jaro_winkler empty_helper
              (Returned [(2522%Z, record)]) [py "MARIA ANTONIO BARROSO"]
              (Some (85 # 100)%Q))
       = Returned (Some 2522%Z, Some record, details)
       /\ (85 # 100 <= md_best_score details)%Q.
Proof.
  intros candidate record scores.
  assert (Hweighted : forall base_score,
             (calculate_weighted_token_similarity (py "antonia barroso maria")
                (py "antonia barroso maria morales") base_score
              == Qmin (base_score + (3 # 100)) 1)%Q).
  { intros base_score. rewrite barroso_weighted.
    replace (Qmin (inject_Z 1 * (3 # 100)) (6 # 100)) with (3 # 100)%Q
      by (vm_compute; reflexivity).
    reflexivity. }
  split; [vm_compute; reflexivity |].
  split; [vm_compute; reflexivity |].
  split; [vm_compute; reflexivity |].
  split; [vm_compute; reflexivity |].
  split; [vm_compute; reflexivity |].
  split; [vm_compute; reflexivity |].
  split; [exact Hweighted |].
  split.
  { intros base_score Hlt. rewrite Hweighted.
    destruct (Q.min_spec (base_score + (3 # 100)) 1) as [(_ & ->) | (_ & ->)];
      lra. }
  subst scores.
  replace (is_personal_name candidate) with true by (vm_compute; reflexivity).
  destruct (barroso_scores jaro_winkler) as (Hfinal & Hbase & Hboost & _).
  cbv zeta in Hfinal, Hbase, Hboost.
  split; [apply barroso_final_score |].
  split; [exact Hfinal |]. split; [exact Hbase |]. split; [exact Hboost |].
  apply barroso_matched.
Qed.

(** ** Family and colour matching *)

Section BestOfFold.

(** [family_step] and [color_step] are one loop body: keep the first
    entry with the strictly highest [SequenceMatcher] ratio. *)
Variable text_lower : str.

Lemma Qgtb_true (x y : Q) : Qgtb x y = true <-> (y < x)%Q.
Proof.
  unfold Qgtb. rewrite negb_true_iff. split.
  - intros E. apply Qnot_le_lt. intros H. apply Qle_bool_iff in H. congruence.
  - intros H. destruct (Qle_bool x y) eqn:E; [| reflexivity].
    apply Qle_bool_iff in E. lra.
Qed.

Lemma Qgtb_false (x y : Q) : Qgtb x y = false <-> (x <= y)%Q.
Proof.
  unfold Qgtb. rewrite negb_false_iff. apply Qle_bool_iff.
Qed.

Lemma best_of_step (seen : list (str * str)) (best : family_best)
    (entry : str * str) :
  best_of text_lower seen best ->
  best_of text_lower (seen ++ [entry]) (family_step text_lower best entry).
Proof.
  destruct best as [[s code] desc]. destruct entry as [d c].
  unfold best_of, family_step. fold (score_of text_lower d).
  intros (Hmax & Hbest).
  assert (Hs : (0 <= s)%Q).
  { destruct Hbest as [(_ & _ & ->)
                      | (before & d' & c' & after & _ & _ & _ & _ & H & _)];
      lra. }
  destruct (Qgtb (score_of text_lower d) s) eqn:E.
  - apply Qgtb_true in E. split.
    + intros d' c' Hin. apply in_app_or in Hin.
      destruct Hin as [Hin | [Heq | []]].
      * specialize (Hmax _ _ Hin). lra.
      * inversion Heq; subst. lra.
    + right. exists seen, d, c, []. split; [reflexivity |].
      split; [reflexivity |]. split; [reflexivity |]. split; [reflexivity |].
      split; [lra |].
      intros d' c' Hin. specialize (Hmax _ _ Hin). lra.
  - apply Qgtb_false in E. split.
    + intros d' c' Hin. apply in_app_or in Hin.
      destruct Hin as [Hin | [Heq | []]].
      * exact (Hmax _ _ Hin).
      * inversion Heq; subst. exact E.
    + destruct Hbest as [H | (before & d' & c' & after & Hseen & H)];
        [left; exact H |].
      right. exists before, d', c', (after ++ [(d, c)]).
      split; [rewrite Hseen, <- app_assoc; reflexivity | exact H].
Qed.

Lemma best_of_fold (table : list (str * str)) :
  forall seen best,
    best_of text_lower seen best ->
    best_of text_lower (seen ++ table) (fold_left (family_step text_lower) table best).
Proof.
  induction table as [| entry table IH]; intros seen best H; simpl.
  - rewrite app_nil_r. exact H.
  - replace (seen ++ entry :: table) with ((seen ++ [entry]) ++ table)
      by (rewrite <- app_assoc; reflexivity).
    apply IH, best_of_step, H.
Qed.

Lemma best_of_table (table : list (str * str)) :
  best_of text_lower table (fold_left (family_step text_lower) table (0%Q, None, None)).
Proof.
  apply (best_of_fold table [] (0%Q, None, None)).
  split; [intros d c [] | left; repeat split].
Qed.

End BestOfFold.

(** C5 as stated fails: the scorer of [fuzzy_match_family] and
    [fuzzy_match_color] is not the token-set metric of the customer matcher.
    It gives "ducha plato" a lower score than "plato ducha" against
    "plato ducha", where the token-set metric gives both the same; so the
    family "Plato Ducha" is not found for "ducha plato", which the matcher
    of the specification finds, and the colour "Gris Perla" is not found for
    "perla gris". *)
Lemma family_scorer_is_order_sensitive :
  ~ (Difflib.ratio (py "ducha plato") (py "plato ducha")
     == Difflib.ratio (py "plato ducha") (py "plato ducha"))%Q
  /\ (token_set_score (py "ducha plato") (py "plato ducha")
      == token_set_score (py "plato ducha") (py "plato ducha"))%Q
  /\ fst (fuzzy_match_family (py "ducha plato")
            [(py "Plato Ducha", py "PLD")] None) = (None, None)
  /\ spec_fuzzy_match_family (py "ducha plato")
       [(py "Plato Ducha", py "PLD")] None
     = (Some (py "PLD"), Some (py "Plato Ducha"))
  /\ fst (fuzzy_match_color (py "perla gris")
            [(py "Gris Perla", py "7035")] None) = None.
Proof.
  split; [intros H; vm_compute in H; discriminate H |].
  split; [vm_compute; reflexivity |].
  split; [vm_compute; reflexivity |].
  split; vm_compute; reflexivity.
Qed.

(** C5, amended: [fuzzy_match_family] and [fuzzy_match_color] score the
    lower-cased, stripped text (for a colour, after the synonym table)
    against every description of the registry with the ratio of
    [difflib.SequenceMatcher], a character-sequence metric that depends on
    word order, with no personal/business distinction.  The best score is
    at least the score of every entry; the entry returned is the first
    entry of the registry with that score (every entry before it scores
    strictly lower), and the score reaches the threshold, whose default is
    0.6; nothing is returned when the best score is below the threshold or
    no entry has a positive score. *)
Theorem family_and_color_scored_by_sequence_ratio
    (text : str) (table : list (str * str)) (threshold : option Q) :
  (threshold_or_default None == 6 # 10)%Q
  /\ (let t := threshold_or_default threshold in
      let key := strip (lower text) in
      let result := fuzzy_match_family text table threshold in
      let details := snd result in
      (forall d c, In (d, c) table ->
                   (score_of key d <= fm_best_score details)%Q)
      /\ fm_threshold_used details = t
      /\ match fst (fst result), snd (fst result) with
         | Some c, Some d =>
             In (d, c) table /\ fm_best_score details = score_of key d
             /\ (t <= fm_best_score details)%Q
             /\ exists before after,
                  table = before ++ (d, c) :: after
                  /\ forall d' c', In (d', c') before ->
                                   (score_of key d' < score_of key d)%Q
         | None, None =>
             (fm_best_score details < t)%Q \/ fm_best_score details = 0%Q
         | _, _ => False
         end)
  /\ (let t := threshold_or_default threshold in
      let key := color_key text in
      let result := fuzzy_match_color text table threshold in
      let details := snd result in
      (forall d c, In (d, c) table ->
                   (score_of key d <= cm_best_score details)%Q)
      /\ cm_threshold_used details = t
      /\ match fst result with
         | Some c =>
             exists d, In (d, c) table /\ cm_best_score details = score_of key d
                       /\ (t <= cm_best_score details)%Q
                       /\ exists before after,
                            table = before ++ (d, c) :: after
                            /\ forall d' c', In (d', c') before ->
                                             (score_of key d' < score_of key d)%Q
         | None =>
             (cm_best_score details < t)%Q \/ cm_best_score details = 0%Q
         end).
Proof.
  split; [reflexivity |]. split.
  - cbv zeta. unfold fuzzy_match_family.
    pose proof (best_of_table (strip (lower text)) table) as Hbest.
    destruct (fold_left (family_step (strip (lower text))) table
                (0%Q, None, None)) as [[s code] desc].
    destruct Hbest as (Hmax & Hbest).
    destruct (Qgeb s (threshold_or_default threshold)) eqn:E;
      cbn [fst snd fm_best_score fm_threshold_used];
      (split; [exact Hmax |]); (split; [reflexivity |]).
    + apply Qle_bool_iff in E.
      destruct Hbest as [(-> & -> & ->)
                        | (before & d & c & after & Htable & -> & -> & Hs & _
                           & Hfirst)].
      * right. reflexivity.
      * split; [rewrite Htable; apply in_or_app; right; left; reflexivity |].
        split; [exact Hs |]. split; [exact E |].
        exists before, after. split; [exact Htable |].
        intros d' c' Hin. rewrite <- Hs. exact (Hfirst d' c' Hin).
    + left. apply Qgtb_true. unfold Qgtb, Qgeb in *. rewrite E. reflexivity.
  - cbv zeta. unfold fuzzy_match_color. fold (color_key text).
    change (fold_left (color_step (color_key text)) table (0%Q, None, None))
    with (fold_left (family_step (color_key text)) table (0%Q, None, None)).
    pose proof (best_of_table (color_key text) table) as Hbest.
    destruct (fold_left (family_step (color_key text)) table
                (0%Q, None, None)) as [[s code] desc].
    destruct Hbest as (Hmax & Hbest).
    destruct (Qgeb s (threshold_or_default threshold)) eqn:E;
      cbn [fst snd cm_best_score cm_threshold_used];
      (split; [exact Hmax |]); (split; [reflexivity |]).
    + apply Qle_bool_iff in E.
      destruct Hbest as [(-> & -> & ->)
                        | (before & d & c & after & Htable & -> & -> & Hs & _
                           & Hfirst)].
      * right. reflexivity.
      * exists d.
        split; [rewrite Htable; apply in_or_app; right; left; reflexivity |].
        split; [exact Hs |]. split; [exact E |].
        exists before, after. split; [exact Htable |].
        intros d' c' Hin. rewrite <- Hs. exact (Hfirst d' c' Hin).
    + left. apply Qgtb_true. unfold Qgtb, Qgeb in *. rewrite E. reflexivity.
Qed.

(** The family "Nature" is found for "Natura": its score, 10/12, is the best
    of the table and reaches the default threshold.  Of two entries with
    the same score the first one is returned: nothing stands before it with
    that score. *)
Lemma family_and_color_scored_by_sequence_ratio_witness :
  let table := [(py "Plato Ducha", py "PLD"); (py "Nature", py "NAT")] in
  let tied := [(py "ab", py "X"); (py "AB", py "Y")] in
  (score_of (strip (lower (py "Natura"))) (py "Plato Ducha")
   <= fm_best_score (snd (fuzzy_match_family (py "Natura") table None)))%Q
  /\ fst (fuzzy_match_family (py "Natura") table None)
     = (Some (py "NAT"), Some (py "Nature"))
  /\ fst (fuzzy_match_family (py "ab") tied None)
     = (Some (py "X"), Some (py "ab"))
  /\ exists before after,
       tied = before ++ (py "ab", py "X") :: after
       /\ forall d' c', In (d', c') before ->
                        (score_of (py "ab") d' < score_of (py "ab") (py "ab"))%Q.
Proof.
  intros table tied. split; [| split; [vm_compute; reflexivity |]].
  - apply (proj1 (proj1 (proj2 (@family_and_color_scored_by_sequence_ratio
                                  (py "Natura") table None)))
             (py "Plato Ducha") (py "PLD")).
    left. reflexivity.
  - split; [vm_compute; reflexivity |].
    pose proof (proj2 (proj2 (proj1 (proj2
                  (@family_and_color_scored_by_sequence_ratio
                     (py "ab") tied None))))) as Hfirst.
    cbv zeta in Hfirst.
    replace (fuzzy_match_family (py "ab") tied None)
      with (Some (py "X"), Some (py "ab"),
            snd (fuzzy_match_family (py "ab") tied None)) in Hfirst
      by (vm_compute; reflexivity).
    cbn [fst snd] in Hfirst.
    destruct Hfirst as (_ & _ & _ & before & after & Htied & Hbefore).
    exists before, after. split; [exact Htied |].
    replace (py "ab") with (strip (lower (py "ab"))) at 1 3
      by (vm_compute; reflexivity).
    exact Hbefore.
Defined.

(** ** Personal names *)

Section StringOrder.

Lemma str_eqb_eq (a b : str) : str_eqb a b = true <-> a = b.
Proof.
  revert b. induction a as [| x a IH]; intros [| y b]; simpl;
    try (split; [discriminate | discriminate]); [tauto |].
  unfold char_eqb. rewrite andb_true_iff, N.eqb_eq, IH.
  split; [intros [-> ->]; reflexivity | intros E; inversion E; auto].
Qed.

Lemma str_eqb_refl (a : str) : str_eqb a a = true.
Proof. apply str_eqb_eq. reflexivity. Qed.

Lemma str_ltb_irrefl (a : str) : str_ltb a a = false.
Proof.
  induction a as [| x a IH]; simpl; [reflexivity |].
  rewrite N.ltb_irrefl. exact IH.
Qed.

Lemma str_ltb_asym (a b : str) : str_ltb a b = true -> str_ltb b a = false.
Proof.
  revert b. induction a as [| x a IH]; intros [| y b]; simpl;
    try discriminate; try reflexivity.
  destruct (N.ltb_spec x y), (N.ltb_spec y x); try lia; auto.
Qed.

(** Two strings neither of which is below the other are equal. *)
Lemma str_ltb_antisym (a b : str) :
  str_ltb a b = false -> str_ltb b a = false -> a = b.
Proof.
  revert b. induction a as [| x a IH]; intros [| y b]; simpl;
    try discriminate; [reflexivity |].
  destruct (N.ltb_spec x y), (N.ltb_spec y x); try discriminate; try lia.
  intros H1 H2. assert (x = y) by lia. subst. f_equal. auto.
Qed.

Lemma str_ltb_trans (a b c : str) :
  str_ltb a b = true -> str_ltb b c = true -> str_ltb a c = true.
Proof.
  revert b c. induction a as [| x a IH]; intros [| y b] [| z c]; simpl;
    try discriminate; try reflexivity.
  destruct (N.ltb_spec x y), (N.ltb_spec y x), (N.ltb_spec y z),
    (N.ltb_spec z y), (N.ltb_spec x z), (N.ltb_spec z x);
    try discriminate; try reflexivity; try lia.
  apply IH.
Qed.

Lemma str_le_lt_trans (a b c : str) : str_lt a b -> str_le b c -> str_le a c.
Proof.
  unfold str_lt, str_le. intros Hab Hbc.
  destruct (str_ltb c a) eqn:Hca; [| reflexivity].
  destruct (str_ltb b c) eqn:Hbc'.
  - pose proof (str_ltb_trans _ _ _ Hbc' Hca) as Hba.
    rewrite (str_ltb_asym _ _ Hab) in Hba. discriminate.
  - pose proof (str_ltb_antisym _ _ Hbc' Hbc). subst c.
    rewrite (str_ltb_asym _ _ Hab) in Hca. discriminate.
Qed.

Lemma mem_In (x : str) (xs : list str) : mem x xs = true <-> In x xs.
Proof.
  unfold mem. rewrite existsb_exists. split.
  - intros (y & Hin & E). apply str_eqb_eq in E. subst. exact Hin.
  - intros Hin. exists x. split; [exact Hin | apply str_eqb_refl].
Qed.

End StringOrder.

Section SplitJoin.

Lemma split_from_clean (s : str) :
  forall cur,
    Forall (fun c => isspace c = false) cur ->
    Forall clean_token (split_from cur s).
Proof.
  assert (Hrun : forall cur, cur <> [] ->
             Forall (fun c => isspace c = false) cur -> clean_token (rev cur)).
  { intros cur Hne Hall. split.
    - intros E. apply Hne. rewrite <- (rev_involutive cur), E. reflexivity.
    - apply Forall_rev. exact Hall. }
  induction s as [| c s IH]; intros cur Hcur; simpl.
  - destruct cur as [| c0 cur0]; constructor; [| constructor].
    apply Hrun; [discriminate | exact Hcur].
  - destruct (isspace c) eqn:Ec.
    + destruct cur as [| c0 cur0]; [apply IH; constructor |].
      constructor; [apply Hrun; [discriminate | exact Hcur] |].
      apply IH. constructor.
    + apply IH. constructor; assumption.
Qed.

Lemma split_clean (s : str) : Forall clean_token (split s).
Proof. apply split_from_clean. constructor. Qed.

Lemma split_from_token (t : str) :
  forall cur rest,
    Forall (fun c => isspace c = false) t ->
    split_from cur (t ++ rest) = split_from (rev t ++ cur) rest.
Proof.
  induction t as [| c t IH]; intros cur rest Ht; simpl; [reflexivity |].
  inversion Ht as [| ? ? Hc Ht']; subst. rewrite Hc, IH by assumption.
  rewrite <- app_assoc. reflexivity.
Qed.

(** Splitting the join of clean tokens gives the tokens back. *)
Lemma split_join (ts : list str) :
  Forall clean_token ts -> split (join [space] ts) = ts.
Proof.
  unfold split.
  induction ts as [| t ts IH]; intros Hts; [reflexivity |].
  inversion Hts as [| ? ? (Hne & Ht) Hts']; subst.
  assert (Hrev : rev t <> []).
  { intros E. apply Hne. rewrite <- (rev_involutive t), E. reflexivity. }
  destruct ts as [| t2 ts].
  - simpl. rewrite <- (app_nil_r t) at 1.
    rewrite split_from_token by assumption. simpl. rewrite app_nil_r.
    destruct (rev t) eqn:E; [contradiction |].
    rewrite <- E, rev_involutive. reflexivity.
  - change (join [space] (t :: t2 :: ts))
      with (t ++ [space] ++ join [space] (t2 :: ts)).
    rewrite split_from_token by assumption. rewrite app_nil_r.
    change ([space] ++ join [space] (t2 :: ts))
      with (space :: join [space] (t2 :: ts)).
    cbn [split_from].
    replace (isspace space) with true by reflexivity.
    destruct (rev t) eqn:E; [contradiction |].
    rewrite <- E, rev_involutive. f_equal. apply IH. assumption.
Qed.

End SplitJoin.

Section SortDistinct.

Lemma place_In (x y : str) (l : list str) :
  In y (place x l) <-> y = x \/ In y l.
Proof.
  induction l as [| z l IH]; simpl; [intuition |].
  destruct (str_ltb x z); simpl; [intuition |].
  rewrite IH. intuition.
Qed.

Lemma sort_In (y : str) (l : list str) : In y (sort l) <-> In y l.
Proof.
  unfold sort. induction l as [| x l IH]; simpl; [tauto |].
  rewrite place_In, IH. intuition.
Qed.

Lemma place_sorted (x : str) (l : list str) :
  StronglySorted str_le l -> StronglySorted str_le (place x l).
Proof.
  induction l as [| z l IH]; intros Hs; simpl.
  - constructor; constructor.
  - apply StronglySorted_inv in Hs. destruct Hs as [Hs Hz].
    destruct (str_ltb x z) eqn:E.
    + constructor; [constructor; assumption |].
      constructor; [exact (str_ltb_asym _ _ E) |].
      rewrite Forall_forall in *. intros y Hy.
      exact (str_le_lt_trans E (Hz y Hy)).
    + constructor; [apply IH; exact Hs |].
      rewrite Forall_forall in *. intros y Hy. apply place_In in Hy.
      destruct Hy as [-> | Hy]; [exact E | exact (Hz y Hy)].
Qed.

Lemma sort_sorted (l : list str) : StronglySorted str_le (sort l).
Proof.
  unfold sort. induction l as [| x l IH]; simpl; [constructor |].
  apply place_sorted, IH.
Qed.

(** A strictly increasing list is left as it is by [sort]. *)
Lemma sort_increasing (l : list str) :
  StronglySorted str_lt l -> sort l = l.
Proof.
  unfold sort. induction l as [| x l IH]; intros Hs; simpl; [reflexivity |].
  apply StronglySorted_inv in Hs. destruct Hs as [Hs Hx].
  rewrite (IH Hs). destruct l as [| y l]; [reflexivity |].
  simpl. inversion Hx as [| ? ? Hxy _]; subst. rewrite Hxy. reflexivity.
Qed.

Lemma distinct_In (xs : list str) :
  forall seen y,
    In y (distinct seen xs) -> In y xs /\ mem y seen = false.
Proof.
  induction xs as [| x xs IH]; intros seen y; simpl; [tauto |].
  destruct (mem x seen) eqn:E.
  - intros H. apply IH in H. tauto.
  - intros [<- | H]; [auto |].
    apply IH in H. destruct H as [Hin Hm]. split; [auto |].
    simpl in Hm. apply orb_false_iff in Hm. tauto.
Qed.

(** The distinct elements of a sorted list are strictly increasing. *)
Lemma distinct_increasing (xs : list str) :
  forall seen,
    StronglySorted str_le xs -> StronglySorted str_lt (distinct seen xs).
Proof.
  induction xs as [| x xs IH]; intros seen Hs; simpl; [constructor |].
  apply StronglySorted_inv in Hs. destruct Hs as [Hs Hx].
  destruct (mem x seen); [apply IH; exact Hs |].
  constructor; [apply IH; exact Hs |].
  rewrite Forall_forall in *. intros y Hy. apply distinct_In in Hy.
  destruct Hy as [Hin Hm]. specialize (Hx y Hin).
  simpl in Hm. apply orb_false_iff in Hm. destruct Hm as [Hne _].
  unfold str_lt, str_le in *.
  destruct (str_ltb x y) eqn:E; [reflexivity |].
  rewrite (str_ltb_antisym _ _ E Hx), str_eqb_refl in Hne. discriminate.
Qed.

(** A strictly increasing list has no duplicate to remove. *)
Lemma distinct_of_increasing (xs : list str) :
  forall seen,
    StronglySorted str_lt xs ->
    (forall y, In y xs -> mem y seen = false) ->
    distinct seen xs = xs.
Proof.
  induction xs as [| x xs IH]; intros seen Hs Hseen; simpl; [reflexivity |].
  apply StronglySorted_inv in Hs. destruct Hs as [Hs Hx].
  rewrite (Hseen x (or_introl eq_refl)). f_equal. apply IH; [exact Hs |].
  intros y Hy. simpl. apply orb_false_iff. split.
  - rewrite Forall_forall in Hx. specialize (Hx y Hy). unfold str_lt in Hx.
    destruct (str_eqb y x) eqn:E; [| reflexivity].
    apply str_eqb_eq in E. subst. rewrite str_ltb_irrefl in Hx. discriminate.
  - apply Hseen. right. exact Hy.
Qed.

End SortDistinct.

Section GenderedNames.

Lemma dict_get_In (d : list (str * str)) (key v : str) :
  dict_get d key = Some v -> In (key, v) d.
Proof.
  induction d as [| [k v'] d IH]; simpl; [discriminate |].
  destruct (str_eqb key k) eqn:E.
  - apply str_eqb_eq in E. intros H. inversion H; subst. left. reflexivity.
  - intros H. right. apply IH, H.
Qed.

Lemma clean_tokenb_spec (t : str) : clean_tokenb t = true -> clean_token t.
Proof.
  unfold clean_tokenb, clean_token. rewrite andb_true_iff, forallb_forall.
  intros [Hne Hall]. split.
  - intros ->. discriminate.
  - apply Forall_forall. intros c Hc. apply negb_true_iff, Hall, Hc.
Qed.

(** Every pair of the table: the smaller variant is clean and is its own
    normal form. *)
Lemma gendered_pairs_checked :
  forall k v, In (k, v) SPANISH_GENDERED_NAMES ->
              clean_token (min_str k v)
              /\ normalize_token (min_str k v) = min_str k v.
Proof.
  assert (H : forallb
                (fun kv =>
                   clean_tokenb (min_str (fst kv) (snd kv))
                   && str_eqb (normalize_token (min_str (fst kv) (snd kv)))
                              (min_str (fst kv) (snd kv)))
                SPANISH_GENDERED_NAMES = true) by (vm_compute; reflexivity).
  rewrite forallb_forall in H. intros k v Hin.
  specialize (H (k, v) Hin). apply andb_true_iff in H. destruct H as [Hc He].
  split; [apply clean_tokenb_spec, Hc | apply str_eqb_eq, He].
Qed.

Lemma normalize_token_idempotent (t : str) :
  normalize_token (normalize_token t) = normalize_token t.
Proof.
  unfold normalize_token at 2 3.
  destruct (dict_get SPANISH_GENDERED_NAMES t) as [v |] eqn:E.
  - apply dict_get_In in E. apply gendered_pairs_checked, E.
  - unfold normalize_token. rewrite E. reflexivity.
Qed.

Lemma normalize_token_clean (t : str) :
  clean_token t -> clean_token (normalize_token t).
Proof.
  intros Ht. unfold normalize_token.
  destruct (dict_get SPANISH_GENDERED_NAMES t) as [v |] eqn:E; [| exact Ht].
  apply dict_get_In in E. apply gendered_pairs_checked, E.
Qed.

End GenderedNames.

Section PersonalNameFacts.

Variable x : str.

(** The tokens [normalize_personal_name] joins. *)
Lemma normalize_personal_name_tokens :
  let tokens := distinct [] (sort (List.map normalize_token (split x))) in
  normalize_personal_name x = join [space] tokens
  /\ Forall clean_token tokens
  /\ StronglySorted str_lt tokens
  /\ Forall (fun t => normalize_token t = t) tokens.
Proof.
  intros tokens. split; [reflexivity |].
  assert (Hfrom : forall t, In t tokens ->
            exists t0, In t0 (split x) /\ t = normalize_token t0).
  { intros t Ht. apply distinct_In in Ht. destruct Ht as [Ht _].
    apply sort_In, in_map_iff in Ht. destruct Ht as (t0 & <- & Hin).
    exists t0. split; [exact Hin | reflexivity]. }
  pose proof (split_clean x) as Hclean. rewrite Forall_forall in Hclean.
  split; [| split].
  - apply Forall_forall. intros t Ht. destruct (Hfrom t Ht) as (t0 & Hin & ->).
    apply normalize_token_clean, Hclean, Hin.
  - apply distinct_increasing, sort_sorted.
  - apply Forall_forall. intros t Ht. destruct (Hfrom t Ht) as (t0 & Hin & ->).
    apply normalize_token_idempotent.
Qed.

End PersonalNameFacts.

(** C10: [normalize_personal_name] is idempotent on every string, because
    its result is the join with single spaces of tokens that are free of
    white space, strictly increasing (so sorted and without duplicate), and
    each already the normal form of its gendered pair (the smaller of the
    two variants). *)
Theorem normalize_personal_name_idempotent (x : str) :
  normalize_personal_name (normalize_personal_name x)
  = normalize_personal_name x
  /\ exists tokens,
       normalize_personal_name x = join [space] tokens
       /\ Forall clean_token tokens
       /\ StronglySorted str_lt tokens
       /\ Forall (fun t => normalize_token t = t) tokens
       /\ Forall (fun t => forall variant,
                      dict_get SPANISH_GENDERED_NAMES t = Some variant ->
                      str_ltb variant t = false) tokens.
Proof.
  destruct (normalize_personal_name_tokens x) as (Hjoin & Hclean & Hinc & Hfix).
  set (tokens := distinct [] (sort (List.map normalize_token (split x)))) in *.
  split.
  - rewrite Hjoin. unfold normalize_personal_name.
    rewrite (split_join Hclean).
    replace (List.map normalize_token tokens) with tokens.
    + rewrite (sort_increasing Hinc).
      rewrite (@distinct_of_increasing tokens [] Hinc); [reflexivity |].
      intros; reflexivity.
    + clear -Hfix. induction tokens as [| t ts IH]; [reflexivity |].
      inversion Hfix; subst. simpl. f_equal; [congruence | auto].
  - exists tokens. repeat (split; [assumption |]).
    rewrite Forall_forall in *. intros t Ht variant Hv.
    specialize (Hfix t Ht). unfold normalize_token in Hfix. rewrite Hv in Hfix.
    unfold min_str in Hfix. destruct (str_ltb variant t) eqn:E; [| reflexivity].
    subst t. rewrite str_ltb_irrefl in E. discriminate.
Qed.

(** * Further properties of the code *)

(** ** Personal names: what the normal form forgets *)

Section NormalFormFacts.

Lemma distinct_complete (xs : list str) :
  forall seen y,
    In y xs -> mem y seen = false -> In y (distinct seen xs).
Proof.
  induction xs as [| x xs IH]; intros seen y Hin Hm; simpl; [destruct Hin |].
  destruct (str_eqb y x) eqn:E.
  - apply str_eqb_eq in E. subst y. rewrite Hm. left. reflexivity.
  - destruct Hin as [-> | Hin]; [rewrite str_eqb_refl in E; discriminate |].
    destruct (mem x seen).
    + apply IH; assumption.
    + right. apply IH; [assumption |]. simpl. rewrite E, Hm. reflexivity.
Qed.

Lemma normal_tokens_In (l : list str) (t : str) :
  In t (distinct [] (sort l)) <-> In t l.
Proof.
  split.
  - intros H. apply distinct_In in H. apply sort_In, H.
  - intros H. apply distinct_complete; [apply sort_In, H | reflexivity].
Qed.

(** Two strictly increasing lists with the same elements are the same
    list. *)
Lemma increasing_unique (l1 : list str) :
  forall l2,
    StronglySorted str_lt l1 -> StronglySorted str_lt l2 ->
    (forall t, In t l1 <-> In t l2) -> l1 = l2.
Proof.
  induction l1 as [| x l1 IH]; intros [| y l2] H1 H2 Hsame.
  - reflexivity.
  - destruct (proj2 (Hsame y) (or_introl eq_refl)).
  - destruct (proj1 (Hsame x) (or_introl eq_refl)).
  - apply StronglySorted_inv in H1. destruct H1 as [H1 Hx].
    apply StronglySorted_inv in H2. destruct H2 as [H2 Hy].
    rewrite Forall_forall in Hx, Hy. unfold str_lt in Hx, Hy.
    assert (Exy : x = y).
    { destruct (proj1 (Hsame x) (or_introl eq_refl)) as [E | Hin]; [auto |].
      destruct (proj2 (Hsame y) (or_introl eq_refl)) as [E | Hin']; [auto |].
      pose proof (Hy x Hin) as Hyx. pose proof (Hx y Hin') as Hxy.
      rewrite (str_ltb_asym _ _ Hyx) in Hxy. discriminate. }
    subst y. f_equal. apply IH; [assumption | assumption |].
    intros t. split; intros Hin.
    + destruct (proj1 (Hsame t) (or_intror Hin)) as [E | H]; [| exact H].
      subst t. specialize (Hx x Hin). rewrite str_ltb_irrefl in Hx.
      discriminate.
    + destruct (proj2 (Hsame t) (or_intror Hin)) as [E | H]; [| exact H].
      subst t. specialize (Hy x Hin). rewrite str_ltb_irrefl in Hy.
      discriminate.
Qed.

(** The normal form depends only on the set of normalised tokens. *)
Lemma normalize_personal_name_set (x y : str) :
  (forall t, In t (List.map normalize_token (split x))
             <-> In t (List.map normalize_token (split y))) ->
  normalize_personal_name x = normalize_personal_name y.
Proof.
  intros Hsame. unfold normalize_personal_name. f_equal.
  apply increasing_unique.
  - apply distinct_increasing, sort_sorted.
  - apply distinct_increasing, sort_sorted.
  - intros t. rewrite !normal_tokens_In. apply Hsame.
Qed.

(** The two variants of every gendered pair have the same normal form. *)
Lemma gendered_variants_unified (k v : str) :
  dict_get SPANISH_GENDERED_NAMES k = Some v ->
  normalize_token k = normalize_token v.
Proof.
  intros Hkv. apply dict_get_In in Hkv.
  assert (H : forallb
                (fun kv => str_eqb (normalize_token (fst kv))
                                   (normalize_token (snd kv)))
                SPANISH_GENDERED_NAMES = true) by (vm_compute; reflexivity).
  rewrite forallb_forall in H. apply str_eqb_eq. exact (H (k, v) Hkv).
Qed.

End NormalFormFacts.

(** X1: the order of the words of a personal name, and the repetition of a
    word, do not change its normal form: two texts whose token lists have
    the same elements normalise to the same string; in particular when one
    list of tokens is a permutation of the other. *)
Theorem normalize_personal_name_order_invariant (x y : str) :
  (Permutation (split x) (split y) ->
   normalize_personal_name x = normalize_personal_name y)
  /\ ((forall t, In t (split x) <-> In t (split y)) ->
      normalize_personal_name x = normalize_personal_name y).
Proof.
  assert (Hset : (forall t, In t (split x) <-> In t (split y)) ->
                 normalize_personal_name x = normalize_personal_name y).
  { intros Hsame. apply normalize_personal_name_set. intros t.
    rewrite !in_map_iff. split; intros (t0 & E & Hin); exists t0;
      (split; [exact E | apply Hsame, Hin]). }
  split; [| exact Hset].
  intros Hperm. apply Hset. intros t. split; apply Permutation_in;
    [exact Hperm | apply Permutation_sym, Hperm].
Qed.

(** "garcia jose" and "jose garcia jose". *)
Lemma normalize_personal_name_order_invariant_witness :
  normalize_personal_name (py "garcia jose")
  = normalize_personal_name (py "jose garcia")
  /\ normalize_personal_name (py "garcia jose")
     = normalize_personal_name (py "jose garcia jose").
Proof.
  split.
  - apply (proj1 (normalize_personal_name_order_invariant
                    (py "garcia jose") (py "jose garcia"))).
    vm_compute. apply perm_swap.
  - apply (proj2 (normalize_personal_name_order_invariant
                    (py "garcia jose") (py "jose garcia jose"))).
    intros t. vm_compute. tauto.
Defined.

(** X2: grammatical gender does not change the normal form: replacing any
    tokens of a personal name by their variants in the table of gendered
    names gives the same normal form. *)
Theorem normalize_personal_name_gender_invariant (x y : str) :
  Forall2 (fun a b => a = b \/ dict_get SPANISH_GENDERED_NAMES a = Some b)
          (split x) (split y) ->
  normalize_personal_name x = normalize_personal_name y.
Proof.
  intros Hrel. unfold normalize_personal_name.
  replace (List.map normalize_token (split y))
    with (List.map normalize_token (split x)); [reflexivity |].
  induction Hrel as [| a b la lb Hab _ IH]; [reflexivity |].
  simpl. f_equal; [| exact IH].
  destruct Hab as [-> | Hab]; [reflexivity | apply gendered_variants_unified, Hab].
Qed.

(** "maria antonio barroso" and "mario antonia barroso". *)
Lemma normalize_personal_name_gender_invariant_witness :
  normalize_personal_name (py "maria antonio barroso")
  = normalize_personal_name (py "mario antonia barroso").
Proof.
  apply normalize_personal_name_gender_invariant.
  vm_compute.
  constructor; [right; reflexivity |].
  constructor; [right; reflexivity |].
  constructor; [left; reflexivity |].
  constructor.
Defined.

(** ** Score adjustments *)

Section AdjustmentFacts.

Lemma distinct_NoDup (xs : list str) : forall seen, NoDup (distinct seen xs).
Proof.
  induction xs as [| x xs IH]; intros seen; simpl; [constructor |].
  destruct (mem x seen); [apply IH |].
  constructor; [| apply IH].
  intros Hin. apply distinct_In in Hin. destruct Hin as [_ Hm].
  simpl in Hm. rewrite str_eqb_refl in Hm. discriminate.
Qed.

Lemma set_of_In (xs : list str) (t : str) : In t (set_of xs) <-> In t xs.
Proof.
  unfold set_of. split.
  - intros H. apply distinct_In in H. tauto.
  - intros H. apply distinct_complete; [exact H | reflexivity].
Qed.

Lemma set_inter_In (a b : list str) (t : str) :
  In t (set_inter a b) <-> In t a /\ In t b.
Proof. unfold set_inter. rewrite filter_In, mem_In. tauto. Qed.

(** The tokens two texts share, as [calculate_weighted_token_similarity]
    computes them. *)
Lemma common_tokens_In (text1 text2 t : str) :
  In t (set_inter (set_of (split text1)) (set_of (split text2)))
  <-> In t (split text1) /\ In t (split text2).
Proof. rewrite set_inter_In, !set_of_In. tauto. Qed.

Lemma common_tokens_NoDup (text1 text2 : str) :
  NoDup (set_inter (set_of (split text1)) (set_of (split text2))).
Proof. apply NoDup_filter, distinct_NoDup. Qed.

Lemma count_in_swap (names : list str) (text1 text2 : str) :
  count_in names (set_inter (set_of (split text1)) (set_of (split text2)))
  = count_in names (set_inter (set_of (split text2)) (set_of (split text1))).
Proof.
  unfold count_in. apply Permutation_length, NoDup_Permutation.
  - apply NoDup_filter, common_tokens_NoDup.
  - apply NoDup_filter, common_tokens_NoDup.
  - intros t. rewrite !filter_In, !common_tokens_In. tauto.
Qed.

Lemma inject_nat_nonneg (n : nat) : (0 <= inject_Z (Z.of_nat n))%Q.
Proof. unfold Qle. simpl. lia. Qed.

Lemma capped_step_bounds (n : nat) (unit cap : Q) :
  (0 <= unit)%Q -> (0 <= cap)%Q ->
  (0 <= Qmin (inject_Z (Z.of_nat n) * unit) cap <= cap)%Q.
Proof.
  intros Hu Hc. split; [| apply Q.le_min_r].
  apply Q.min_glb; [| exact Hc].
  apply Qmult_le_0_compat; [apply inject_nat_nonneg | exact Hu].
Qed.

End AdjustmentFacts.

(** X3: for a base score between 0 and 1, the buying-group boost never
    lowers the score, adds at most 0.15 and never exceeds 1.0; the score is
    unchanged when the two names share no buying-group keyword; and the two
    normalised texts passed to the function play no part in the result. *)
Theorem calculate_boosted_similarity_bounds
    (text1 text2 : str) (keywords1 keywords2 : list str) (base_score : Q) :
  (0 <= base_score <= 1)%Q ->
  let boosted :=
    calculate_boosted_similarity text1 text2 keywords1 keywords2 base_score in
  (base_score <= boosted)%Q /\ (boosted <= 1)%Q
  /\ (boosted <= base_score + (15 # 100))%Q
  /\ ((forall k, In k keywords1 -> In k keywords2 -> False) ->
      boosted = base_score)
  /\ (forall other1 other2,
         calculate_boosted_similarity other1 other2 keywords1 keywords2
           base_score = boosted).
Proof.
  intros Hbase boosted. subst boosted. unfold calculate_boosted_similarity.
  destruct keywords1 as [| k1 ks1]; [repeat split; (lra || reflexivity) |].
  destruct keywords2 as [| k2 ks2]; [repeat split; (lra || reflexivity) |].
  set (k1s := k1 :: ks1). set (k2s := k2 :: ks2).
  destruct (set_inter (set_of k1s) (set_of k2s)) as [| m ms] eqn:E;
    [repeat split; (lra || reflexivity) |].
  set (boost := if Nat.eqb (List.length (m :: ms)) 1 then (10 # 100)%Q
                else (15 # 100)%Q).
  assert (Hboost : (0 <= boost <= 15 # 100)%Q).
  { subst boost. destruct (Nat.eqb _ 1); lra. }
  pose proof (Q.le_min_l (base_score + boost) 1).
  pose proof (Q.le_min_r (base_score + boost) 1).
  assert ((base_score <= Qmin (base_score + boost) 1)%Q)
    by (apply Q.min_glb; lra).
  split; [assumption |]. split; [assumption |]. split; [lra |].
  split; [| reflexivity].
  intros Hdisjoint. exfalso.
  assert (Hin : In m (set_inter (set_of k1s) (set_of k2s)))
    by (rewrite E; left; reflexivity).
  apply set_inter_In in Hin. rewrite !set_of_In in Hin.
  exact (Hdisjoint m (proj1 Hin) (proj2 Hin)).
Qed.

(** A base of 0.78 with the keyword "gamma" on both sides: 0.88. *)
Lemma calculate_boosted_similarity_bounds_witness :
  (78 # 100
   <= calculate_boosted_similarity (py "a") (py "b") [py "gamma"]
        [py "grupo"; py "gamma"] (78 # 100))%Q.
Proof.
  apply (@calculate_boosted_similarity_bounds (py "a") (py "b") [py "gamma"]
           [py "grupo"; py "gamma"] (78 # 100)%Q).
  lra.
Defined.

(** X4: for a base score between 0 and 1, the adjustment of a pair of
    personal names keeps the score between 0 and 1, lowers it by at most
    0.04 and raises it by at most 0.06; a common token that is a known
    surname rules out any penalty; and two names without a common token
    keep the base score. *)
Theorem calculate_weighted_token_similarity_bounds
    (text1 text2 : str) (base_score : Q) :
  (0 <= base_score <= 1)%Q ->
  let final := calculate_weighted_token_similarity text1 text2 base_score in
  (0 <= final <= 1)%Q
  /\ (base_score - (4 # 100) <= final <= base_score + (6 # 100))%Q
  /\ ((exists t, In t (split text1) /\ In t (split text2)
                 /\ In t COMMON_SPANISH_SURNAMES) ->
      (base_score <= final)%Q)
  /\ ((forall t, In t (split text1) -> In t (split text2) -> False) ->
      final = base_score).
Proof.
  intros Hbase final. subst final.
  unfold calculate_weighted_token_similarity.
  set (common := set_inter (set_of (split text1)) (set_of (split text2))).
  assert (Hcommon : forall t, In t common
                              <-> In t (split text1) /\ In t (split text2))
    by (intros t; apply common_tokens_In).
  destruct common as [| c cs] eqn:Ec.
  { repeat split; try lra. }
  rewrite <- Ec in *.
  set (surnames := count_in COMMON_SPANISH_SURNAMES common).
  set (given := count_in COMMON_SPANISH_GIVEN_NAMES common).
  pose proof (@capped_step_bounds surnames (3 # 100) (6 # 100)
                ltac:(lra) ltac:(lra)) as Hs.
  pose proof (@capped_step_bounds given (2 # 100) (4 # 100)
                ltac:(lra) ltac:(lra)) as Hg.
  set (boost := Qmin (inject_Z (Z.of_nat surnames) * (3 # 100)) (6 # 100)) in *.
  set (penalty := Qmin (inject_Z (Z.of_nat given) * (2 # 100)) (4 # 100)) in *.
  pose proof (Q.le_min_l (base_score + boost) 1).
  pose proof (Q.le_min_r (base_score + boost) 1).
  assert ((base_score <= Qmin (base_score + boost) 1)%Q)
    by (apply Q.min_glb; lra).
  pose proof (Q.le_max_l (base_score - penalty) 0).
  pose proof (Q.le_max_r (base_score - penalty) 0).
  assert ((Qmax (base_score - penalty) 0 <= base_score)%Q)
    by (apply Q.max_lub; lra).
  split; [| split; [| split]].
  - destruct (Nat.ltb 0 surnames); [lra |].
    destruct (Nat.ltb 0 given); lra.
  - destruct (Nat.ltb 0 surnames); [lra |].
    destruct (Nat.ltb 0 given); lra.
  - intros (t & Ht1 & Ht2 & Hsur).
    assert (Hpos : Nat.ltb 0 surnames = true).
    { apply Nat.ltb_lt. subst surnames. unfold count_in.
      assert (Hin : In t (List.filter (fun token => mem token COMMON_SPANISH_SURNAMES)
                            common)).
      { apply filter_In. split; [apply Hcommon; tauto | apply mem_In, Hsur]. }
      destruct (List.filter _ common); [destruct Hin | simpl; lia]. }
    rewrite Hpos. assumption.
  - intros Hnone. exfalso.
    assert (Hin : In c common) by (rewrite Ec; left; reflexivity).
    apply Hcommon in Hin. exact (Hnone c (proj1 Hin) (proj2 Hin)).
Qed.

(** The normal forms of the Barroso scenario at base score 0.84. *)
Lemma calculate_weighted_token_similarity_bounds_witness :
  (84 # 100
   <= calculate_weighted_token_similarity (py "antonia barroso maria")
        (py "antonia barroso maria morales") (84 # 100))%Q.
Proof.
  apply (proj1 (proj2 (proj2
           (@calculate_weighted_token_similarity_bounds
              (py "antonia barroso maria") (py "antonia barroso maria morales")
              (84 # 100)%Q ltac:(lra))))).
  exists (py "barroso"). vm_compute. tauto.
Defined.

(** X5: the adjustment of a pair of personal names does not depend on which
    of the two names comes first. *)
Theorem calculate_weighted_token_similarity_symmetric
    (text1 text2 : str) (base_score : Q) :
  calculate_weighted_token_similarity text1 text2 base_score
  = calculate_weighted_token_similarity text2 text1 base_score.
Proof.
  unfold calculate_weighted_token_similarity.
  rewrite (count_in_swap COMMON_SPANISH_SURNAMES text1 text2).
  rewrite (count_in_swap COMMON_SPANISH_GIVEN_NAMES text1 text2).
  assert (Hperm : Permutation
                    (set_inter (set_of (split text1)) (set_of (split text2)))
                    (set_inter (set_of (split text2)) (set_of (split text1)))).
  { apply NoDup_Permutation; try apply common_tokens_NoDup.
    intros t. rewrite !common_tokens_In. tauto. }
  destruct (set_inter (set_of (split text1)) (set_of (split text2))) as [| a l],
    (set_inter (set_of (split text2)) (set_of (split text1))) as [| b l'];
    try reflexivity.
  apply Permutation_nil in Hperm. discriminate.
Qed.

(** ** The customer cache *)

Section CacheFacts.

Lemma cache_customer_entry (cache : customer_cache) (customer_id : Z)
    (name : str) :
  cache_customer cache (customer_id, name)
  = cache_set cache customer_id (cache_entry_of name).
Proof. reflexivity. Qed.

Lemma cache_get_set_same (cache : customer_cache) (k : Z) (v : cached_customer) :
  cache_get (cache_set cache k v) k = Some v.
Proof.
  induction cache as [| [k' v'] cache IH]; simpl.
  - rewrite Z.eqb_refl. reflexivity.
  - destruct (Z.eqb_spec k' k) as [-> | Hne]; simpl.
    + rewrite Z.eqb_refl. reflexivity.
    + destruct (Z.eqb_spec k' k); [contradiction | exact IH].
Qed.

Lemma cache_get_set_other (cache : customer_cache) (k k' : Z)
    (v : cached_customer) :
  k' <> k -> cache_get (cache_set cache k v) k' = cache_get cache k'.
Proof.
  intros Hne. induction cache as [| [k0 v0] cache IH]; simpl.
  - destruct (Z.eqb_spec k k'); [congruence | reflexivity].
  - destruct (Z.eqb_spec k0 k) as [-> | Hk]; simpl.
    + destruct (Z.eqb_spec k k'); [congruence | reflexivity].
    + destruct (Z.eqb_spec k0 k'); [reflexivity | exact IH].
Qed.

Lemma cache_set_keys (cache : customer_cache) (k : Z) (v : cached_customer) :
  List.map fst (cache_set cache k v)
  = if existsb (Z.eqb k) (List.map fst cache) then List.map fst cache
    else List.map fst cache ++ [k].
Proof.
  induction cache as [| [k0 v0] cache IH]; simpl; [reflexivity |].
  rewrite (Z.eqb_sym k k0).
  destruct (Z.eqb k0 k); simpl; [reflexivity |].
  rewrite IH. destruct (existsb (Z.eqb k) (List.map fst cache)); reflexivity.
Qed.

Lemma cache_set_NoDup (cache : customer_cache) (k : Z) (v : cached_customer) :
  NoDup (List.map fst cache) -> NoDup (List.map fst (cache_set cache k v)).
Proof.
  intros Hnd. rewrite cache_set_keys.
  destruct (existsb (Z.eqb k) (List.map fst cache)) eqn:E; [exact Hnd |].
  apply NoDup_app; [exact Hnd | constructor; [intros [] | constructor] |].
  intros x Hx [Ekx | []]. subst x.
  assert (Hex : existsb (Z.eqb k) (List.map fst cache) = true).
  { apply existsb_exists. exists k. split; [exact Hx | apply Z.eqb_refl]. }
  congruence.
Qed.

Lemma cache_get_In (cache : customer_cache) (k : Z) (v : cached_customer) :
  cache_get cache k = Some v -> In (k, v) cache.
Proof.
  induction cache as [| [k0 v0] cache IH]; simpl; [discriminate |].
  destruct (Z.eqb_spec k0 k) as [-> | _].
  - intros E. inversion E. left. reflexivity.
  - intros E. right. apply IH, E.
Qed.

Lemma In_cache_get (cache : customer_cache) (k : Z) (v : cached_customer) :
  NoDup (List.map fst cache) -> In (k, v) cache -> cache_get cache k = Some v.
Proof.
  induction cache as [| [k0 v0] cache IH]; simpl; intros Hnd Hin;
    [destruct Hin |].
  inversion Hnd as [| ? ? Hnotin Hnd']; subst.
  destruct Hin as [E | Hin].
  - inversion E; subst. rewrite Z.eqb_refl. reflexivity.
  - destruct (Z.eqb_spec k0 k) as [-> | _]; [| apply IH; assumption].
    exfalso. apply Hnotin. apply in_map_iff. exists (k, v). split; auto.
Qed.

(** The state of the cache after the rows [done], read from the end. *)
Lemma initialize_fold (rows : list (Z * str)) :
  forall cache customer_id,
    cache_get (fold_left cache_customer rows cache) customer_id
    = match registered_name rows customer_id with
      | Some name => Some (cache_entry_of name)
      | None => cache_get cache customer_id
      end.
Proof.
  induction rows as [| [k name] rows IH]; intros cache customer_id;
    cbn [fold_left registered_name]; [reflexivity |].
  rewrite IH. destruct (registered_name rows customer_id); [reflexivity |].
  rewrite cache_customer_entry.
  destruct (Z.eqb_spec k customer_id) as [-> | Hne].
  - apply cache_get_set_same.
  - apply cache_get_set_other. congruence.
Qed.

Lemma initialize_NoDup (rows : list (Z * str)) :
  forall cache,
    NoDup (List.map fst cache) ->
    NoDup (List.map fst (fold_left cache_customer rows cache)).
Proof.
  induction rows as [| [k name] rows IH]; intros cache Hnd; cbn [fold_left];
    [exact Hnd |].
  apply IH. rewrite cache_customer_entry. apply cache_set_NoDup, Hnd.
Qed.

Lemma registered_name_In (rows : list (Z * str)) (customer_id : Z) (name : str) :
  registered_name rows customer_id = Some name -> In (customer_id, name) rows.
Proof.
  induction rows as [| [k n] rows IH]; simpl; [discriminate |].
  destruct (registered_name rows customer_id) as [later |].
  - intros E. right. apply IH. exact E.
  - destruct (Z.eqb_spec k customer_id) as [-> | _]; [| discriminate].
    intros E. inversion E. left. reflexivity.
Qed.

Lemma In_registered_name (rows : list (Z * str)) (customer_id : Z) (name : str) :
  In (customer_id, name) rows -> registered_name rows customer_id <> None.
Proof.
  induction rows as [| [k n] rows IH]; simpl; [tauto |].
  intros [E | Hin].
  - inversion E; subst. destruct (registered_name rows customer_id);
      [discriminate |]. rewrite Z.eqb_refl. discriminate.
  - specialize (IH Hin). destruct (registered_name rows customer_id);
      [discriminate | contradiction].
Qed.

End CacheFacts.

(** X6: the customer cache is a dict keyed by customer id.  It holds one
    entry per id of the registry; when the registry has several rows with
    the same id, the entry is the one of the last of them; each entry keeps
    the name of its row unchanged next to its normal form; and an entry
    classified as a personal name carries no buying-group keyword. *)
Theorem customer_cache_contents (all_customers : list (Z * str)) :
  let cache := _initialize_customer_cache all_customers in
  NoDup (List.map fst cache)
  /\ (forall customer_id,
         cache_get cache customer_id
         = option_map cache_entry_of
             (registered_name all_customers customer_id))
  /\ (forall customer_id name,
         In (customer_id, name) all_customers ->
         exists entry, In (customer_id, entry) cache)
  /\ (forall customer_id entry,
         In (customer_id, entry) cache ->
         exists name,
           In (customer_id, name) all_customers
           /\ entry = cache_entry_of name
           /\ cc_original entry = name
           /\ (cc_is_personal entry = true -> cc_keywords entry = [])).
Proof.
  intros cache. subst cache. unfold _initialize_customer_cache.
  assert (Hnd : NoDup (List.map fst (fold_left cache_customer all_customers [])))
    by (apply initialize_NoDup; constructor).
  assert (Hget : forall customer_id,
             cache_get (fold_left cache_customer all_customers []) customer_id
             = option_map cache_entry_of
                 (registered_name all_customers customer_id)).
  { intros customer_id. rewrite initialize_fold.
    destruct (registered_name all_customers customer_id); reflexivity. }
  split; [exact Hnd |]. split; [exact Hget |]. split.
  - intros customer_id name Hin. apply In_registered_name in Hin.
    destruct (registered_name all_customers customer_id) as [n |] eqn:E;
      [| contradiction].
    exists (cache_entry_of n). apply cache_get_In. rewrite Hget, E. reflexivity.
  - intros customer_id entry Hin. apply In_cache_get in Hin; [| exact Hnd].
    rewrite Hget in Hin.
    destruct (registered_name all_customers customer_id) as [n |] eqn:E;
      [| discriminate].
    inversion Hin; subst. exists n.
    split; [apply registered_name_In, E |].
    split; [reflexivity |]. split; [reflexivity |].
    unfold cache_entry_of. cbn [cc_is_personal cc_keywords].
    intros ->. reflexivity.
Qed.

(** Two rows with the id 7: the entry is the one of the second row. *)
Lemma customer_cache_contents_witness :
  exists entry,
    In (7%Z, entry)
       (_initialize_customer_cache
          [(7%Z, py "JOSE GARCIA"); (9%Z, py "ACME SL"); (7%Z, py "ACME SA")])
    /\ cc_original entry = py "ACME SA".
Proof.
  pose proof (customer_cache_contents
                [(7%Z, py "JOSE GARCIA"); (9%Z, py "ACME SL");
                 (7%Z, py "ACME SA")]) as (Hnd & Hget & Hall & _).
  destruct (Hall 7%Z (py "ACME SA")) as (entry & Hin).
  - right. right. left. reflexivity.
  - exists entry. split; [exact Hin |].
    apply In_cache_get in Hin; [| exact Hnd].
    rewrite Hget in Hin. cbn [registered_name Z.eqb Pos.eqb option_map] in Hin.
    inversion Hin. reflexivity.
Defined.

(** ** The customer matcher *)

Section MatcherFacts.

Variable jaro_winkler : str -> str -> Q.

Lemma best_among_ext (seen seen' : str -> Z -> cached_customer -> Prop)
    (best : best_so_far) :
  (forall n k e, seen n k e <-> seen' n k e) ->
  best_among jaro_winkler seen best -> best_among jaro_winkler seen' best.
Proof.
  intros Hext (Hmax & Hbest). split.
  - intros n k e Hs. apply (Hmax n k e), Hext, Hs.
  - destruct Hbest as [H | (n & k & e & Hs & H)]; [left; exact H |].
    right. exists n, k, e. split; [apply Hext, Hs | exact H].
Qed.

Lemma best_among_nonneg (seen : str -> Z -> cached_customer -> Prop)
    (best : best_so_far) :
  best_among jaro_winkler seen best -> (0 <= best_score best)%Q.
Proof.
  intros (_ & [(_ & _ & _ & ->) | (n & k & e & _ & _ & _ & _ & _ & H)]); lra.
Qed.

(** The inner loop body keeps the best pair seen so far. *)
Lemma match_customer_inv (seen : str -> Z -> cached_customer -> Prop)
    (best : best_so_far) (name : str) (id : Z) (entry : cached_customer) :
  best_among jaro_winkler seen best ->
  best_among jaro_winkler
    (fun n k e => seen n k e \/ (n = name /\ k = id /\ e = entry))
    (match_customer jaro_winkler name
       (if is_personal_name (clean_name name)
        then normalize_personal_name (clean_name name)
        else normalize_business_name (clean_name name))
       (is_personal_name (clean_name name))
       (if is_personal_name (clean_name name) then []
        else extract_buying_group_keywords (clean_name name))
       best (id, entry)).
Proof.
  intros Hinv. pose proof (best_among_nonneg Hinv) as Hnn.
  destruct Hinv as (Hmax & Hbest). unfold match_customer.
  assert (Hf : pair_final_score jaro_winkler name entry
               = fst (fst (score_pair jaro_winkler
                             (if is_personal_name (clean_name name)
                              then normalize_personal_name (clean_name name)
                              else normalize_business_name (clean_name name))
                             (is_personal_name (clean_name name))
                             (if is_personal_name (clean_name name) then []
                              else extract_buying_group_keywords (clean_name name))
                             entry))) by reflexivity.
  destruct (score_pair jaro_winkler _ _ _ entry) as [[final base] boost].
  cbn [fst] in Hf.
  destruct (Qgtb final (best_score best)) eqn:E.
  - apply Qgtb_true in E. split; cbn [best_score best_customer_id
      best_customer_name best_match].
    + intros n k e [Hs | (-> & -> & ->)].
      * specialize (Hmax n k e Hs). lra.
      * rewrite Hf. lra.
    + right. exists name, id, entry.
      split; [right; repeat split |]. repeat split; try reflexivity.
      * symmetry. exact Hf.
      * lra.
  - apply Qgtb_false in E. split.
    + intros n k e [Hs | (-> & -> & ->)].
      * exact (Hmax n k e Hs).
      * rewrite Hf. exact E.
    + destruct Hbest as [H | (n & k & e & Hs & H)]; [left; exact H |].
      right. exists n, k, e. split; [left; exact Hs | exact H].
Qed.

(** The inner loop over a part of the cache. *)
Lemma match_cache_inv (name : str) (todo : customer_cache) :
  forall (seen : str -> Z -> cached_customer -> Prop) (best : best_so_far),
    best_among jaro_winkler seen best ->
    best_among jaro_winkler
      (fun n k e => seen n k e \/ (n = name /\ In (k, e) todo))
      (fold_left
         (match_customer jaro_winkler name
            (if is_personal_name (clean_name name)
             then normalize_personal_name (clean_name name)
             else normalize_business_name (clean_name name))
            (is_personal_name (clean_name name))
            (if is_personal_name (clean_name name) then []
             else extract_buying_group_keywords (clean_name name)))
         todo best).
Proof.
  induction todo as [| [id entry] todo IH]; intros seen best Hinv;
    cbn [fold_left].
  - eapply best_among_ext; [| exact Hinv]. intros n k e. simpl. tauto.
  - eapply best_among_ext;
      [| apply IH, (match_customer_inv name id entry Hinv)].
    intros n k e. simpl. split.
    + intros [[Hs | (-> & -> & ->)] | (-> & Hin)]; auto.
    + intros [Hs | (-> & [E | Hin])]; auto.
      inversion E; subst. left. right. auto.
Qed.

(** The outer loop over the potential names. *)
Lemma match_names_inv (cache : customer_cache) (names : list str) :
  forall (seen : str -> Z -> cached_customer -> Prop) (best : best_so_far),
    best_among jaro_winkler seen best ->
    best_among jaro_winkler
      (fun n k e => seen n k e \/ (In n names /\ In (k, e) cache))
      (fold_left (match_name jaro_winkler cache) names best).
Proof.
  induction names as [| name names IH]; intros seen best Hinv;
    cbn [fold_left].
  - eapply best_among_ext; [| exact Hinv]. intros n k e. simpl. tauto.
  - rewrite match_name_unfold. cbv zeta.
    eapply best_among_ext; [| apply IH, (match_cache_inv name cache Hinv)].
    intros n k e. simpl. split.
    + intros [[Hs | (-> & Hin)] | (Hn & Hin)]; auto.
    + intros [Hs | ([-> | Hn] & Hin)]; auto.
Qed.

Lemma match_names_best (cache : customer_cache) (names : list str) :
  best_among jaro_winkler (fun n k e => In n names /\ In (k, e) cache)
    (fold_left (match_name jaro_winkler cache) names no_best).
Proof.
  eapply best_among_ext;
    [| apply (match_names_inv cache names (seen := fun _ _ _ => False))].
  - intros n k e. tauto.
  - split; [intros n k e [] | left; repeat split].
Qed.

End MatcherFacts.

(** X7: the registry of customers is read at most once.  A call with no
    candidate name, or on a helper whose cache is built, returns the helper
    unchanged and does not depend on what the registry would answer; on the
    first call with candidates a failing registry query is re-raised and
    leaves the cache unbuilt; and after a call that returned, the same call
    on the returned helper gives the same result whatever the registry
    answers then, even an exception. *)
Theorem fuzzy_match_customer_reads_registry_once
    (jaro_winkler : str -> str -> Q) (self : DatabaseHelper)
    (registry : outcome (list (Z * str))) (names : list str)
    (threshold : option Q) :
  (forall registry',
      names = [] \/ _normalized_customers_cache self <> None ->
      fuzzy_match_customer jaro_winkler self registry' names threshold
      = fuzzy_match_customer jaro_winkler self registry names threshold
      /\ snd (fuzzy_match_customer jaro_winkler self registry names threshold)
         = self)
  /\ (forall e,
         names <> [] -> _normalized_customers_cache self = None ->
         registry = Raised e ->
         fuzzy_match_customer jaro_winkler self registry names threshold
         = (Raised e, self))
  /\ (forall result self' registry',
         fuzzy_match_customer jaro_winkler self registry names threshold
         = (Returned result, self') ->
         fuzzy_match_customer jaro_winkler self' registry' names threshold
         = (Returned result, self')).
Proof.
  destruct self as [[cache |]]; unfold fuzzy_match_customer;
    cbn [_normalized_customers_cache].
  - split; [| split].
    + intros registry' _. destruct names as [| n ns]; [split; reflexivity |].
      split; [reflexivity |].
      destruct (Qgeb _ _); reflexivity.
    + intros e _ H. discriminate H.
    + intros result self' registry'. destruct names as [| n ns].
      * intros E. inversion E; subst. reflexivity.
      * destruct (Qgeb _ _) eqn:Eq; intros E; inversion E; subst;
          cbn [_normalized_customers_cache]; rewrite Eq; reflexivity.
  - split; [| split].
    + intros registry' [-> | H]; [split; reflexivity | contradiction].
    + intros e Hn _ ->. destruct names; [contradiction | reflexivity].
    + intros result self' registry'. destruct names as [| n ns].
      * intros E. inversion E; subst. reflexivity.
      * destruct registry as [rows | e]; [| discriminate].
        destruct (Qgeb _ _) eqn:Eq; intros E; inversion E; subst;
          cbn [_normalized_customers_cache]; rewrite Eq; reflexivity.
Qed.

(** A first call builds the cache; the second call, with a registry that
    raises, returns the same match. *)
Lemma fuzzy_match_customer_reads_registry_once_witness :
  exists result self',
    fuzzy_match_customer (fun _ _ => 0%Q) empty_helper
      (Returned [(2522%Z, py "BARROSO MORALES MARIA ANTONIA")])
      [py "BARROSO"] None = (Returned result, self')
    /\ fst (fst result) = Some 2522%Z
    /\ fuzzy_match_customer (fun _ _ => 0%Q) self'
         (Raised (py "connection lost")) [py "BARROSO"] None
       = (Returned result, self').
Proof.
  eexists. eexists. split; [vm_compute; reflexivity |].
  split; [reflexivity |].
  apply (proj2 (proj2 (@fuzzy_match_customer_reads_registry_once
                         (fun _ _ => 0%Q) empty_helper
                         (Returned [(2522%Z, py "BARROSO MORALES MARIA ANTONIA")])
                         [py "BARROSO"] None))).
  vm_compute. reflexivity.
Defined.

(** X8: the matcher keeps the single best pair over all potential names and
    all cached customers.  The best score it reports is at least the final
    score of every pair; a customer is returned only when that score reaches
    the threshold, and it is then a customer of the cache, returned under
    the name of the registry, whose pair with one of the potential names has
    exactly the best score; when no customer is returned the best score is
    below the threshold, or no pair scored above zero. *)
Theorem fuzzy_match_customer_global_best
    (jaro_winkler : str -> str -> Q) (cache : customer_cache)
    (registry : outcome (list (Z * str))) (names : list str)
    (threshold : option Q) :
  let self := {| _normalized_customers_cache := Some cache |} in
  exists customer_id customer_name details,
    fst (fuzzy_match_customer jaro_winkler self registry names threshold)
    = Returned (customer_id, customer_name, details)
    /\ (forall name id entry,
           In name names -> In (id, entry) cache ->
           (pair_final_score jaro_winkler name entry
            <= md_best_score details)%Q)
    /\ match customer_id with
       | Some id =>
           (threshold_or_default threshold <= md_best_score details)%Q
           /\ md_best_match_id details = Some id
           /\ exists name entry,
                In name names /\ In (id, entry) cache
                /\ customer_name = Some (cc_original entry)
                /\ md_matched_input details = Some name
                /\ md_best_score details
                   = pair_final_score jaro_winkler name entry
       | None =>
           customer_name = None
           /\ ((md_best_score details < threshold_or_default threshold)%Q
               \/ md_best_score details = 0%Q)
       end.
Proof.
  intros self. subst self. unfold fuzzy_match_customer.
  cbn [_normalized_customers_cache].
  destruct names as [| n ns].
  { eexists; eexists; eexists. split; [reflexivity |].
    cbn [md_best_score]. split; [intros name id entry [] |].
    split; [reflexivity | right; reflexivity]. }
  pose proof (match_names_best jaro_winkler cache (n :: ns)) as (Hmax & Hbest).
  set (best := fold_left (match_name jaro_winkler cache) (n :: ns) no_best) in *.
  destruct (Qgeb (best_score best) (threshold_or_default threshold)) eqn:E;
    eexists; eexists; eexists; (split; [reflexivity |]);
    cbn [md_best_score md_best_match_id md_matched_input];
    (split; [intros name id entry Hn He; apply (Hmax name id entry); auto |]).
  - apply Qle_bool_iff in E.
    destruct Hbest as [(-> & -> & _ & Hz) | (name & id & entry & (Hn & He) & -> & -> & Hm & Hs & _)].
    + split; [reflexivity | right; exact Hz].
    + split; [exact E |]. split; [reflexivity |].
      exists name, entry. repeat split; assumption.
  - split; [reflexivity |]. left. apply Qgtb_true.
    unfold Qgtb, Qgeb in *. rewrite E. reflexivity.
Qed.

(** The two customers of the registry against "Maria Antonio Barroso". *)
Lemma fuzzy_match_customer_global_best_witness :
  exists customer_id customer_name details,
    fst (fuzzy_match_customer (fun _ _ => 0%Q)
           {| _normalized_customers_cache :=
                Some (_initialize_customer_cache
                        [(1%Z, py "GARCIA LOPEZ JOSE");
                         (2522%Z, py "BARROSO MORALES MARIA ANTONIA")]) |}
           (Raised (py "unused")) [py "Maria Antonio Barroso"]
           (Some (85 # 100)%Q))
    = Returned (customer_id, customer_name, details)
    /\ (pair_final_score (fun _ _ => 0%Q) (py "Maria Antonio Barroso")
          (cache_entry_of (py "GARCIA LOPEZ JOSE"))
        <= md_best_score details)%Q.
Proof.
  destruct (@fuzzy_match_customer_global_best (fun _ _ => 0%Q)
              (_initialize_customer_cache
                 [(1%Z, py "GARCIA LOPEZ JOSE");
                  (2522%Z, py "BARROSO MORALES MARIA ANTONIA")])
              (Raised (py "unused")) [py "Maria Antonio Barroso"]
              (Some (85 # 100)%Q))
    as (customer_id & customer_name & details & Hrun & Hmax & _).
  exists customer_id, customer_name, details. split; [exact Hrun |].
  apply (Hmax (py "Maria Antonio Barroso") 1%Z).
  - left. reflexivity.
  - left. reflexivity.
Defined.

(** ** Sender address and customer identification *)

Section SenderFacts.

Lemma first_pass_skip (skipped rest : list str) :
  (forall l, In l skipped -> Re.match_start de_at_start_pattern l = None) ->
  first_pass (skipped ++ rest) = first_pass rest.
Proof.
  induction skipped as [| l skipped IH]; intros Hnone; simpl; [reflexivity |].
  rewrite (Hnone l (or_introl eq_refl)). apply IH.
  intros l' Hl'. apply Hnone. right. exact Hl'.
Qed.

End SenderFacts.

(** X9: the sender address is read from the bottom-most line that starts
    with "De:".  Whatever the lines above it hold, the result is the address
    of that line (in angle brackets, else standing alone), and nothing when
    that line holds no address; an empty text gives nothing. *)
Theorem sender_is_read_from_bottom_most_line
    (email_text : str) (above below : list str) (line : str) :
  email_text <> [] ->
  split_lines email_text = above ++ line :: below ->
  Re.match_start de_at_start_pattern line <> None ->
  (forall l, In l below -> Re.match_start de_at_start_pattern l = None) ->
  extract_sender_email_from_text email_text = email_of_line line
  /\ extract_sender_email_from_text [] = None.
Proof.
  intros Hne Hlines Hline Hbelow. split; [| reflexivity].
  unfold extract_sender_email_from_text.
  destruct email_text as [| c text]; [contradiction |].
  rewrite Hlines, rev_app_distr. cbn [rev]. rewrite <- app_assoc.
  rewrite first_pass_skip.
  - cbn [app first_pass].
    destruct (Re.match_start de_at_start_pattern line); [reflexivity |].
    contradiction.
  - intros l Hl. apply Hbelow, in_rev. exact Hl.
Qed.

(** A thread whose bottom-most "De:" line has no address: nothing is
    returned although a line above holds one. *)
Lemma sender_is_read_from_bottom_most_line_witness :
  extract_sender_email_from_text
    (py "De: Ana <ana@example.com>" ++ [newline] ++ py "De: Fidel Castro <>"
     ++ [newline] ++ py "pedido")
  = None.
Proof.
  apply (proj1 (@sender_is_read_from_bottom_most_line
                  (py "De: Ana <ana@example.com>" ++ [newline]
                   ++ py "De: Fidel Castro <>" ++ [newline] ++ py "pedido")
                  [py "De: Ana <ana@example.com>"] [py "pedido"]
                  (py "De: Fidel Castro <>")
                  ltac:(discriminate) ltac:(vm_compute; reflexivity)
                  ltac:(vm_compute; discriminate)
                  ltac:(intros l [<- | []]; vm_compute; reflexivity))).
Defined.

Section CustomerIdFacts.

Variable jaro_winkler : str -> str -> Q.

(** What a successful fallback returns. *)
Lemma try_email_lookup_fallback_found (email_lookup : str -> option (Z * str))
    (email_text : str) (fallback : fallback_result) :
  try_email_lookup_fallback email_lookup email_text = Some fallback ->
  extract_sender_email_from_text email_text = Some (fb_matched_email fallback)
  /\ fb_matched_email fallback <> []
  /\ email_lookup (fb_matched_email fallback)
     = Some (fb_customer_id fallback, fb_customer_name fallback)
  /\ fb_matched_via fallback = py "email_lookup".
Proof.
  unfold try_email_lookup_fallback, lookup_customer_by_email.
  destruct (extract_sender_email_from_text email_text) as [[| c email] |];
    try discriminate.
  destruct (email_lookup (c :: email)) as [[id name] |] eqn:E; [| discriminate].
  intros H. inversion H; subst. cbn.
  repeat split; try reflexivity; try discriminate. exact E.
Qed.

End CustomerIdFacts.

(** X10: the address fallback resolves a customer exactly when a non-empty
    sender address is extracted from the email and the address registry has
    a row for it; the customer returned is that row, with the address and
    the marker "email_lookup". *)
Theorem try_email_lookup_fallback_spec
    (email_lookup : str -> option (Z * str)) (email_text : str) :
  (forall fallback,
      try_email_lookup_fallback email_lookup email_text = Some fallback ->
      extract_sender_email_from_text email_text
      = Some (fb_matched_email fallback)
      /\ fb_matched_email fallback <> []
      /\ email_lookup (fb_matched_email fallback)
         = Some (fb_customer_id fallback, fb_customer_name fallback)
      /\ fb_matched_via fallback = py "email_lookup")
  /\ (forall email id name,
         extract_sender_email_from_text email_text = Some email ->
         email <> [] -> email_lookup email = Some (id, name) ->
         try_email_lookup_fallback email_lookup email_text
         = Some {| fb_customer_id := id; fb_customer_name := name;
                   fb_matched_via := py "email_lookup";
                   fb_matched_email := email |})
  /\ (extract_sender_email_from_text email_text = None ->
      try_email_lookup_fallback email_lookup email_text = None).
Proof.
  split; [apply try_email_lookup_fallback_found |]. split.
  - intros email id name Hsender Hne Hrow.
    unfold try_email_lookup_fallback, lookup_customer_by_email.
    rewrite Hsender. destruct email as [| c email]; [contradiction |].
    rewrite Hrow. reflexivity.
  - intros Hnone. unfold try_email_lookup_fallback. rewrite Hnone. reflexivity.
Qed.

(** The sender of a quoted message is found in the address registry. *)
Lemma try_email_lookup_fallback_spec_witness :
  try_email_lookup_fallback
    (fun email => if str_eqb email (py "dist.generalife@gmail.com")
                  then Some (77%Z, py "DISTRIBUCIONES GENERALIFE MARACENA, S.L.")
                  else None)
    (py "pedido" ++ [newline]
     ++ py "De: generalife maracena <Dist.Generalife@gmail.com>")
  = Some {| fb_customer_id := 77%Z;
            fb_customer_name := py "DISTRIBUCIONES GENERALIFE MARACENA, S.L.";
            fb_matched_via := py "email_lookup";
            fb_matched_email := py "dist.generalife@gmail.com" |}.
Proof.
  apply (proj1 (proj2 (try_email_lookup_fallback_spec _ _))).
  - vm_compute. reflexivity.
  - discriminate.
  - vm_compute. reflexivity.
Defined.

(** The proof steps shared by the paths of [extract_customer_id]. *)
Ltac result_with_error :=
  split; [split; [intros Habs; discriminate Habs
                 | intros Habs; exfalso; apply Habs; reflexivity] |];
  split; [intros fc Habs; discriminate Habs | intros via Habs; discriminate Habs].

Ltac result_with_customer :=
  split; [split; [intros _ Habs; discriminate Habs | intros _; reflexivity] |];
  split; [intros fc Habs; discriminate Habs | intros via Habs; discriminate Habs].

(** X11: every result of [extract_customer_id] has an error exactly when it
    has no customer.  A failure context is attached only to a result without
    customer, for an answer of the oracle that held candidate names, and it
    records that the address lookup was attempted.  A result marked as
    matched through the address registry carries the row of that registry
    for the sender address extracted from the email. *)
Theorem extract_customer_id_result_shape
    (jaro_winkler : str -> str -> Q) (db_helper : DatabaseHelper)
    (response : outcome customer_response)
    (registry : outcome (list (Z * str)))
    (email_lookup : str -> option (Z * str)) (email_text : str) :
  let result :=
    fst (extract_customer_id jaro_winkler db_helper response registry
           email_lookup email_text) in
  (cr_error result = None <-> cr_customer_id result <> None)
  /\ (forall fc,
         cr_failure_context result = Some fc ->
         cr_customer_id result = None
         /\ (exists answer, response = Returned answer
                            /\ resp_customer_names answer <> [])
         /\ exists d, fc_details fc = customer_id_type d
                      /\ email_lookup_attempted d = true
                      /\ threshold_used d = (85 # 100)%Q)
  /\ (forall via,
         cr_matched_via result = Some via ->
         exists email id name,
           extract_sender_email_from_text email_text = Some email
           /\ email_lookup email = Some (id, name)
           /\ cr_customer_id result = Some id
           /\ cr_customer_name result = Some name
           /\ cr_matched_email result = Some email
           /\ via = py "email_lookup").
Proof.
  intros result. subst result. unfold extract_customer_id.
  assert (Hvia : forall fb names,
             try_email_lookup_fallback email_lookup email_text = Some fb ->
             let r :=
               {| cr_customer_id := Some (fb_customer_id fb);
                  cr_customer_name := Some (fb_customer_name fb);
                  cr_potential_names := names;
                  cr_matched_via := Some (fb_matched_via fb);
                  cr_matched_email := Some (fb_matched_email fb);
                  cr_error := None; cr_failure_context := None |} in
             forall via,
               cr_matched_via r = Some via ->
               exists email id name,
                 extract_sender_email_from_text email_text = Some email
                 /\ email_lookup email = Some (id, name)
                 /\ cr_customer_id r = Some id
                 /\ cr_customer_name r = Some name
                 /\ cr_matched_email r = Some email
                 /\ via = py "email_lookup").
  { intros fb names Hfb r via Hv. subst r.
    cbn [cr_matched_via cr_customer_id cr_customer_name cr_matched_email] in *.
    apply try_email_lookup_fallback_found in Hfb.
    destruct Hfb as (Hs & _ & Hrow & Hm).
    exists (fb_matched_email fb), (fb_customer_id fb), (fb_customer_name fb).
    inversion Hv; subst via. repeat split; assumption. }
  destruct response as [answer | e]; [| cbn; result_with_error].
  assert (Hpaths :
    let body :=
      fst (match resp_customer_names answer with
           | [] =>
               match try_email_lookup_fallback email_lookup email_text with
               | Some fallback =>
                   ({| cr_customer_id := Some (fb_customer_id fallback);
                       cr_customer_name := Some (fb_customer_name fallback);
                       cr_potential_names := List.map Some [];
                       cr_matched_via := Some (fb_matched_via fallback);
                       cr_matched_email := Some (fb_matched_email fallback);
                       cr_error := None; cr_failure_context := None |},
                    db_helper)
               | None =>
                   ({| cr_customer_id := None; cr_customer_name := None;
                       cr_potential_names := []; cr_matched_via := None;
                       cr_matched_email := None;
                       cr_error :=
                         Some (py "No customer names found in email and email lookup fallback failed");
                       cr_failure_context := None |}, db_helper)
               end
           | _ :: _ =>
               match fuzzy_match_customer jaro_winkler db_helper registry
                       (resp_customer_names answer) (Some (85 # 100)%Q) with
               | (Raised e, db_helper) =>
                   ({| cr_customer_id := None; cr_customer_name := None;
                       cr_potential_names := []; cr_matched_via := None;
                       cr_matched_email := None; cr_error := Some e;
                       cr_failure_context := None |}, db_helper)
               | (Returned (customer_id, customer_name, match_details),
                  db_helper) =>
                   match customer_id with
                   | None =>
                       match try_email_lookup_fallback email_lookup
                               email_text with
                       | Some fallback =>
                           ({| cr_customer_id := Some (fb_customer_id fallback);
                               cr_customer_name :=
                                 Some (fb_customer_name fallback);
                               cr_potential_names :=
                                 List.map Some (resp_customer_names answer);
                               cr_matched_via := Some (fb_matched_via fallback);
                               cr_matched_email :=
                                 Some (fb_matched_email fallback);
                               cr_error := None;
                               cr_failure_context := None |}, db_helper)
                       | None =>
                           ({| cr_customer_id := None;
                               cr_customer_name := None;
                               cr_potential_names :=
                                 List.map Some (resp_customer_names answer);
                               cr_matched_via := None;
                               cr_matched_email := None;
                               cr_error :=
                                 Some (py "No database match found for: "
                                       ++ repr_names (resp_customer_names answer)
                                       ++ py " (email lookup also failed)");
                               cr_failure_context :=
                                 Some (new_failure_context
                                         (customer_id_type
                                            {| extracted_names :=
                                                 resp_customer_names answer;
                                               best_match_name :=
                                                 md_best_match_name match_details;
                                               best_match_id :=
                                                 md_best_match_id match_details;
                                               best_match_score :=
                                                 md_best_score match_details;
                                               threshold_used := (85 # 100)%Q;
                                               email_snippet :=
                                                 snippet_of email_text;
                                               email_lookup_attempted := true;
                                               email_lookup_address :=
                                                 extract_sender_email_from_text
                                                   email_text |})) |},
                            db_helper)
                       end
                   | Some _ =>
                       ({| cr_customer_id := customer_id;
                           cr_customer_name := customer_name;
                           cr_potential_names :=
                             List.map Some (resp_customer_names answer);
                           cr_matched_via := None; cr_matched_email := None;
                           cr_error := None; cr_failure_context := None |},
                        db_helper)
                   end
               end
           end) in
    (cr_error body = None <-> cr_customer_id body <> None)
    /\ (forall fc,
           cr_failure_context body = Some fc ->
           cr_customer_id body = None
           /\ (exists answer0, Returned answer = Returned answer0
                               /\ resp_customer_names answer0 <> [])
           /\ exists d, fc_details fc = customer_id_type d
                        /\ email_lookup_attempted d = true
                        /\ threshold_used d = (85 # 100)%Q)
    /\ (forall via,
           cr_matched_via body = Some via ->
           exists email id name,
             extract_sender_email_from_text email_text = Some email
             /\ email_lookup email = Some (id, name)
             /\ cr_customer_id body = Some id
             /\ cr_customer_name body = Some name
             /\ cr_matched_email body = Some email
             /\ via = py "email_lookup")).
  { cbv zeta.
    destruct (resp_customer_names answer) as [| n ns] eqn:Enames.
    - destruct (try_email_lookup_fallback email_lookup email_text)
        as [fb |] eqn:Efb; cbn [fst]; [| result_with_error].
      split; [split; [intros _ Habs; discriminate Habs | intros _; reflexivity] |].
      split; [intros fc Habs; discriminate Habs |].
      exact (Hvia fb (List.map Some []) eq_refl).
    - destruct (fuzzy_match_customer jaro_winkler db_helper registry (n :: ns)
                  (Some (85 # 100)%Q))
        as [[[[[cid |] cname] details] | e] helper]; cbn [fst];
        [result_with_customer | | result_with_error].
      destruct (try_email_lookup_fallback email_lookup email_text)
        as [fb |] eqn:Efb; cbn [fst].
      + split; [split; [intros _ Habs; discriminate Habs
                       | intros _; reflexivity] |].
        split; [intros fc Habs; discriminate Habs |].
        exact (Hvia fb (List.map Some (n :: ns)) eq_refl).
      + split; [split; [intros Habs; discriminate Habs
                       | intros Habs; exfalso; apply Habs; reflexivity] |].
        split; [| intros via Habs; discriminate Habs].
        intros fc Hfc. cbn [cr_failure_context cr_customer_id] in *.
        inversion Hfc; subst fc. split; [reflexivity |].
        split; [exists answer; split; [reflexivity |];
                rewrite Enames; discriminate |].
        eexists. repeat split. }
  cbv zeta in Hpaths.
  destruct (resp_customer_id answer) as [direct |],
    (resp_needs_fuzzy_match answer);
    first [exact Hpaths | cbn [fst]; result_with_customer].
Qed.


(** Candidate names that match no customer and no sender line: the result
    has an error, no customer, and a failure context. *)
Lemma extract_customer_id_result_shape_witness :
  exists fc,
    cr_failure_context
      (fst (extract_customer_id (fun _ _ => 0%Q) empty_helper
              (Returned {| resp_customer_id := None;
                           resp_customer_name := None;
                           resp_needs_fuzzy_match := true;
                           resp_customer_names := [py "ACME"] |})
              (Returned [(2522%Z, py "BARROSO MORALES MARIA ANTONIA")])
              (fun _ => None) (py "PEDIDO")))
    = Some fc
    /\ exists d, fc_details fc = customer_id_type d
                 /\ email_lookup_attempted d = true
                 /\ threshold_used d = (85 # 100)%Q.
Proof.
  eexists. split; [vm_compute; reflexivity |].
  eapply (proj1 (proj2 (@extract_customer_id_result_shape (fun _ _ => 0%Q)
                          empty_helper
                          (Returned {| resp_customer_id := None;
                                       resp_customer_name := None;
                                       resp_needs_fuzzy_match := true;
                                       resp_customer_names := [py "ACME"] |})
                          (Returned [(2522%Z, py "BARROSO MORALES MARIA ANTONIA")])
                          (fun _ => None) (py "PEDIDO")))).
  vm_compute. reflexivity.
Defined.

(** X12: two paths of [extract_customer_id] never consult the address
    registry.  A customer the oracle gives directly (with
    [needs_fuzzy_match] false) is returned as it is, without reading any
    registry and with the helper unchanged.  When the query of the customer
    registry raises on the path of the candidate names, the extraction ends
    with that error, no customer and no failure context: the address
    fallback is not tried, whatever it would have found. *)
Theorem extract_customer_id_without_fallback
    (jaro_winkler : str -> str -> Q) (db_helper : DatabaseHelper)
    (answer : customer_response) (registry : outcome (list (Z * str)))
    (email_lookup : str -> option (Z * str)) (email_text : str) :
  (forall id,
      resp_customer_id answer = Some id ->
      resp_needs_fuzzy_match answer = false ->
      let run :=
        extract_customer_id jaro_winkler db_helper (Returned answer) registry
          email_lookup email_text in
      cr_customer_id (fst run) = Some id
      /\ cr_customer_name (fst run) = resp_customer_name answer
      /\ cr_error (fst run) = None
      /\ cr_matched_via (fst run) = None
      /\ snd run = db_helper)
  /\ (forall e,
         resp_customer_id answer = None \/ resp_needs_fuzzy_match answer = true ->
         resp_customer_names answer <> [] ->
         _normalized_customers_cache db_helper = None ->
         registry = Raised e ->
         let run :=
           extract_customer_id jaro_winkler db_helper (Returned answer) registry
             email_lookup email_text in
         cr_customer_id (fst run) = None
         /\ cr_error (fst run) = Some e
         /\ cr_failure_context (fst run) = None
         /\ cr_matched_via (fst run) = None
         /\ snd run = db_helper).
Proof.
  split.
  - intros id Hid Hneeds. unfold extract_customer_id. rewrite Hid, Hneeds.
    cbn. repeat split.
  - intros e Hdirect Hnames Hcache ->. unfold extract_customer_id.
    destruct (resp_customer_names answer) as [| n ns] eqn:En; [contradiction |].
    unfold fuzzy_match_customer. rewrite Hcache. cbn.
    destruct (resp_customer_id answer), (resp_needs_fuzzy_match answer);
      try (cbn; repeat split; fail).
    destruct Hdirect; discriminate.
Qed.

(** The customer registry is unreachable; the sender of the email is in the
    address registry, yet no customer is returned. *)
Lemma extract_customer_id_without_fallback_witness :
  let email_lookup :=
    fun email => if str_eqb email (py "ana@example.com")
                 then Some (5%Z, py "ANA GARCIA") else None in
  let email_text := py "De: Ana <ana@example.com>" in
  try_email_lookup_fallback email_lookup email_text <> None
  /\ cr_customer_id
       (fst (extract_customer_id (fun _ _ => 0%Q) empty_helper
               (Returned {| resp_customer_id := None;
                            resp_customer_name := None;
                            resp_needs_fuzzy_match := true;
                            resp_customer_names := [py "Ana Garcia"] |})
               (Raised (py "connection refused")) email_lookup email_text))
     = None.
Proof.
  intros email_lookup email_text. split; [vm_compute; discriminate |].
  apply (proj2 (@extract_customer_id_without_fallback (fun _ _ => 0%Q)
                  empty_helper
                  {| resp_customer_id := None; resp_customer_name := None;
                     resp_needs_fuzzy_match := true;
                     resp_customer_names := [py "Ana Garcia"] |}
                  (Raised (py "connection refused")) email_lookup email_text)
           (py "connection refused")).
  - left. reflexivity.
  - discriminate.
  - reflexivity.
  - reflexivity.
Defined.

(** ** The merge of phase 4 *)

Section MergeFacts.

Variables (order_number : Z) (customer_id : option Z)
          (customer_name : option str) (final_entry_id : str)
          (address : address_result) (options : options_result).
Variables (ref_assignments : list (option str))
          (valve_assignments : list str)
          (cpsd_assignments : list (option str)).

Lemma skipn_nth_error (A : Type) (xs : list A) :
  forall idx x,
    nth_error xs idx = Some x -> skipn idx xs = x :: skipn (S idx) xs.
Proof.
  induction xs as [| y xs IH]; intros [| idx] x E; simpl in *;
    try discriminate.
  - inversion E. reflexivity.
  - apply IH, E.
Qed.

(** The records the loop builds: the product of each line in order, the
    three aligned lists read from [idx] on, and the same scalar fields on
    every record. *)
Lemma merge_from_fields (order_lines : list sku_line) :
  forall idx merged,
    merge_from idx order_lines order_number customer_id customer_name
      ref_assignments valve_assignments cpsd_assignments final_entry_id
      address options
    = Returned merged ->
    List.map ol_sku merged = List.map (fun l => Some (sl_sku l)) order_lines
    /\ List.map ol_quantity merged
       = List.map (fun l => Some (sl_quantity l)) order_lines
    /\ List.map ol_reference_no merged
       = firstn (List.length order_lines) (skipn idx ref_assignments)
    /\ List.map ol_valve merged
       = firstn (List.length order_lines) (skipn idx valve_assignments)
    /\ List.map ol_cpsd merged
       = firstn (List.length order_lines) (skipn idx cpsd_assignments)
    /\ Forall (fun r =>
                 ol_orderno r = order_number
                 /\ ol_customerid r = customer_id
                 /\ ol_customer_name r = customer_name
                 /\ ol_entry_id r = final_entry_id
                 /\ ol_delivery_address r = ar_delivery_address address
                 /\ ol_telephone_number r = ar_telephone_number address
                 /\ ol_contact_name r = ar_contact_name address
                 /\ ol_option_sku r = op_option_sku options
                 /\ ol_option_qty r = op_option_qty options
                 /\ ol_error r = None /\ ol_email_text r = None) merged.
Proof.
  induction order_lines as [| line rest IH]; intros idx merged; simpl.
  - intros E. inversion E; subst. simpl. repeat split; constructor.
  - unfold index at 1 2 3.
    destruct (nth_error ref_assignments idx) as [r |] eqn:Er; [| discriminate].
    destruct (nth_error valve_assignments idx) as [v |] eqn:Ev;
      [| discriminate].
    destruct (nth_error cpsd_assignments idx) as [c |] eqn:Ec; [| discriminate].
    destruct (merge_from (S idx) rest _ _ _ _ _ _ _ _ _) as [more |] eqn:Em;
      [| discriminate].
    intros E. inversion E; subst merged. clear E.
    destruct (IH (S idx) more Em) as (Hsku & Hqty & Href & Hval & Hcp & Hall).
    rewrite (skipn_nth_error _ _ Er), (skipn_nth_error _ _ Ev),
      (skipn_nth_error _ _ Ec).
    cbn [List.map firstn ol_sku ol_quantity ol_reference_no ol_valve ol_cpsd].
    rewrite Hsku, Hqty, Href, Hval, Hcp.
    repeat split; try reflexivity.
    constructor; [cbn; repeat split | exact Hall].
Qed.

End MergeFacts.

(** X13: when phases 1 and 2 succeed, [process_single_email] returns one
    record per product line, in the order of the lines and with the SKU and
    quantity of each, and no failure context, whatever the five sub-agents
    of phase 3 return or raise.  The reference numbers, dates and valves of
    the records are the aligned lists; every record carries the same order
    number, customer, delivery address, telephone, contact and options,
    where a field of a sub-agent that raised is [None]; and the entry id is
    the one of the date sub-agent when it returned a non-empty one, else the
    message id. *)
Theorem process_single_email_merged_lines
    (jaro_winkler : str -> str -> Q) (w : world) (db_helper : DatabaseHelper)
    (email_text : str) (order_number : Z) (message_id : str)
    (email_metadata_map : list (str * email_metadata)) :
  let text1 := with_metadata email_text message_id email_metadata_map in
  let customer_result :=
    fst (extract_customer_id jaro_winkler db_helper
           (customer_response_for w text1) (get_all_customers w)
           (email_lookup_for_customer w) text1) in
  let customer_id := cr_customer_id customer_result in
  let customer_name := cr_customer_name customer_result in
  let sku_result := extract_sku_and_quantity w email_text in
  let order_lines := sr_order_lines sku_result in
  let N := List.length order_lines in
  let address_task :=
    extract_delivery_address w email_text customer_id customer_name in
  let run :=
    process_single_email jaro_winkler w db_helper email_text order_number
      message_id email_metadata_map in
  truthy_opt_str (cr_error customer_result) = false ->
  truthy_opt_int customer_id = true ->
  truthy_opt_str (sr_error sku_result) = false ->
  order_lines <> [] ->
  exists merged,
    fst (fst run) = Returned (merged, [])
    /\ List.map ol_sku merged = List.map (fun l => Some (sl_sku l)) order_lines
    /\ List.map ol_quantity merged
       = List.map (fun l => Some (sl_quantity l)) order_lines
    /\ List.map ol_reference_no merged
       = assign_references
           (read (extract_reference_no w email_text customer_id)
                 rr_reference_nos []) N
    /\ List.map ol_cpsd merged
       = assign_cpsds (read (extract_cpsd w email_text) cp_cpsds []) N
    /\ List.map ol_valve merged
       = vr_valves (detect_valve_request (valves_response_for w email_text N) N)
    /\ Forall (fun r =>
                 ol_orderno r = order_number
                 /\ ol_customerid r = customer_id
                 /\ ol_customer_name r = customer_name
                 /\ ol_entry_id r
                    = match read (extract_cpsd w email_text) cp_entry_id None with
                      | Some (c :: e) => c :: e
                      | _ => message_id
                      end
                 /\ ol_delivery_address r
                    = read address_task ar_delivery_address None
                 /\ ol_telephone_number r
                    = read address_task ar_telephone_number None
                 /\ ol_contact_name r = read address_task ar_contact_name None
                 /\ ol_option_sku r
                    = read (extract_options w email_text order_lines)
                        op_option_sku None
                 /\ ol_option_qty r
                    = read (extract_options w email_text order_lines)
                        op_option_qty None
                 /\ ol_error r = None /\ ol_email_text r = None) merged.
Proof.
  intros text1 customer_result customer_id customer_name sku_result
    order_lines N address_task run Herr Hcid Hserr Hlines.
  subst run customer_id customer_name address_task customer_result.
  unfold process_single_email. fold text1.
  destruct (extract_customer_id jaro_winkler db_helper
              (customer_response_for w text1) (get_all_customers w)
              (email_lookup_for_customer w) text1) as [cr db'].
  cbn [fst] in *. rewrite Herr, Hcid. cbn [negb orb].
  fold sku_result. rewrite Hserr. fold order_lines.
  assert (Hne : is_empty order_lines = false)
    by (destruct order_lines; [contradiction | reflexivity]).
  rewrite Hne. cbn [orb]. fold N.
  set (valves := assign_valves _ N).
  set (refs := assign_references _ N).
  set (cpsds := assign_cpsds _ N).
  match goal with
  | |- context [merge_from 0 order_lines ?n ?c ?cn refs valves cpsds ?e ?a ?o] =>
      destruct (@merge_from_total n c cn e a o refs valves cpsds order_lines 0)
        as (merged & Em & Hlen);
      [ subst refs; rewrite assign_references_length; apply Nat.le_refl
      | subst valves; rewrite assign_valves_length; apply Nat.le_refl
      | subst cpsds; rewrite assign_cpsds_length; apply Nat.le_refl
      | destruct (@merge_from_fields n c cn e a o refs valves cpsds order_lines
                    0 merged Em)
          as (Hsku & Hqty & Href & Hval & Hcp & Hall);
        rewrite Em ]
  end.
  assert (Hfull : forall (A : Type) (xs : list A),
             List.length xs = N -> firstn (List.length order_lines) (skipn 0 xs) = xs).
  { intros A xs Hxs. cbn [skipn]. fold N. rewrite <- Hxs. apply firstn_all. }
  rewrite Hfull in Href by (subst refs; apply assign_references_length).
  rewrite Hfull in Hval by (subst valves; apply assign_valves_length).
  rewrite Hfull in Hcp by (subst cpsds; apply assign_cpsds_length).
  exists merged. cbn [fst].
  split; [reflexivity |]. split; [exact Hsku |]. split; [exact Hqty |].
  split; [exact Href |]. split; [exact Hcp |]. split; [| exact Hall].
  rewrite Hval. subst valves. cbn [read]. unfold assign_valves.
  destruct (detect_valve_request_spec (valves_response_for w email_text N) N)
    as (Hn & _). rewrite Hn, Nat.eqb_refl. reflexivity.
Qed.

(** Two product lines, a delivery address sub-agent that raises: two
    records, without address. *)
Lemma process_single_email_merged_lines_witness :
  exists merged,
    fst (fst (process_single_email (fun _ _ => 0%Q)
                (example_world (Returned direct_customer) two_lines
                   (Returned None))
                empty_helper (py "PEDIDO") 4 (py "msg-4") []))
    = Returned (merged, [])
    /\ List.map ol_sku merged
       = [Some (py "NAT140080BLCO"); Some (py "NAT150080BLCO")]
    /\ List.map ol_delivery_address merged = [None; None].
Proof.
  destruct (@process_single_email_merged_lines (fun _ _ => 0%Q)
              (example_world (Returned direct_customer) two_lines
                 (Returned None))
              empty_helper (py "PEDIDO") 4 (py "msg-4") [])
    as (merged & Hrun & Hsku & _); try reflexivity; try discriminate.
  exists merged. split; [exact Hrun |]. split; [exact Hsku |].
  vm_compute in Hrun. inversion Hrun. reflexivity.
Defined.

(** X14: a failure context returned by [process_single_email] is the only
    one of the email, it is the context of the sub-agent of the failing
    phase stamped with the order number and, as entry id, the message id, and
    it comes with exactly one record, a failure stub with the same order
    number and entry id.  A context of phase 2 is stamped with the customer
    phase 1 found, which the stub carries too; a context of phase 1 keeps the
    customer fields of the sub-agent and its stub has no customer. *)
Theorem failure_context_is_stamped
    (jaro_winkler : str -> str -> Q) (w : world) (db_helper : DatabaseHelper)
    (email_text : str) (order_number : Z) (message_id : str)
    (email_metadata_map : list (str * email_metadata))
    (lines : list order_line) (fcs : list failure_context)
    (fc : failure_context) :
  let text1 := with_metadata email_text message_id email_metadata_map in
  let customer_result :=
    fst (extract_customer_id jaro_winkler db_helper
           (customer_response_for w text1) (get_all_customers w)
           (email_lookup_for_customer w) text1) in
  let sku_result := extract_sku_and_quantity w email_text in
  fst (fst (process_single_email jaro_winkler w db_helper email_text
              order_number message_id email_metadata_map))
  = Returned (lines, fcs) ->
  In fc fcs ->
  fcs = [fc]
  /\ fc_order_number fc = Some order_number
  /\ fc_entry_id fc = Some message_id
  /\ (exists stub,
        lines = [stub] /\ is_failure_stub stub
        /\ ol_orderno stub = order_number /\ ol_entry_id stub = message_id
        /\ ((exists fc1,
               cr_failure_context customer_result = Some fc1
               /\ fc_details fc = fc_details fc1
               /\ fc_customer_id fc = fc_customer_id fc1
               /\ fc_customer_name fc = fc_customer_name fc1
               /\ ol_customerid stub = None /\ ol_customer_name stub = None
               /\ ol_error stub = cr_error customer_result)
            \/ (exists fc2,
                  sr_failure_context sku_result = Some fc2
                  /\ fc_details fc = fc_details fc2
                  /\ cr_customer_id customer_result <> None
                  /\ fc_customer_id fc = cr_customer_id customer_result
                  /\ fc_customer_name fc = cr_customer_name customer_result
                  /\ ol_customerid stub = cr_customer_id customer_result
                  /\ ol_customer_name stub = cr_customer_name customer_result
                  /\ ol_error stub = sr_error sku_result))).
Proof.
  intros text1 customer_result sku_result.
  subst customer_result. unfold process_single_email. fold text1.
  destruct (extract_customer_id jaro_winkler db_helper
              (customer_response_for w text1) (get_all_customers w)
              (email_lookup_for_customer w) text1) as [cr db'].
  cbn [fst].
  destruct (truthy_opt_str (cr_error cr)
            || negb (truthy_opt_int (cr_customer_id cr))) eqn:E1.
  { cbn [fst]. intros Hrun Hin. inversion Hrun; subst lines fcs. clear Hrun.
    destruct (cr_failure_context cr) as [fc1 |]; [| destruct Hin].
    destruct Hin as [<- | []]. cbn.
    split; [reflexivity |]. split; [reflexivity |]. split; [reflexivity |].
    eexists. split; [reflexivity |].
    split; [apply failure_stub_is_stub |]. cbn.
    split; [reflexivity |]. split; [reflexivity |].
    left. exists fc1. repeat split; reflexivity. }
  fold sku_result.
  destruct (truthy_opt_str (sr_error sku_result)
            || is_empty (sr_order_lines sku_result)) eqn:E2.
  { cbn [fst]. intros Hrun Hin. inversion Hrun; subst lines fcs. clear Hrun.
    destruct (sr_failure_context sku_result) as [fc2 |]; [| destruct Hin].
    destruct Hin as [<- | []]. cbn.
    split; [reflexivity |]. split; [reflexivity |]. split; [reflexivity |].
    eexists. split; [reflexivity |].
    split; [apply failure_stub_is_stub |]. cbn.
    split; [reflexivity |]. split; [reflexivity |].
    right. exists fc2.
    split; [reflexivity |]. split; [reflexivity |].
    split; [| repeat split; reflexivity].
    apply orb_false_iff in E1. destruct E1 as [_ E1].
    intros Hnone. rewrite Hnone in E1. discriminate E1. }
  set (num_lines := List.length (sr_order_lines sku_result)).
  match goal with
  | |- context [merge_from 0 ?ls ?n ?c ?cn ?r ?v ?cp ?e ?a ?o] =>
      destruct (@merge_from_total n c cn e a o r v cp ls 0) as (merged & Em & _);
      [ rewrite assign_references_length; apply Nat.le_refl
      | rewrite assign_valves_length; apply Nat.le_refl
      | rewrite assign_cpsds_length; apply Nat.le_refl
      | rewrite Em ]
  end.
  cbn [fst]. intros Hrun Hin. inversion Hrun; subst lines fcs. destruct Hin.
Qed.

(** A customer given by the oracle and a phase 2 that finds no line: the
    context of phase 2, stamped with order 7, the message id and customer
    2522. *)
Lemma failure_context_is_stamped_witness :
  let fc :=
    {| fc_details := sku_extraction_type (py "no_order_lines") [];
       fc_order_number := Some 7%Z;
       fc_entry_id := Some (py "msg-7");
       fc_customer_id := Some 2522%Z;
       fc_customer_name := Some (py "BARROSO MORALES MARIA ANTONIA") |} in
  let stub :=
    failure_stub 7 (Some 2522%Z) (Some (py "BARROSO MORALES MARIA ANTONIA"))
      (py "msg-7") (Some (py "No order lines found in email")) (py "PEDIDO") in
  fst (fst (process_single_email (fun _ _ => 0%Q)
              (example_world (Returned direct_customer) no_lines
                 (Returned None))
              empty_helper (py "PEDIDO") 7 (py "msg-7") []))
  = Returned ([stub], [fc])
  /\ fc_order_number fc = Some 7%Z
  /\ fc_entry_id fc = Some (py "msg-7").
Proof.
  intros fc stub.
  assert (Hrun : fst (fst (process_single_email (fun _ _ => 0%Q)
                             (example_world (Returned direct_customer) no_lines
                                (Returned None))
                             empty_helper (py "PEDIDO") 7 (py "msg-7") []))
                 = Returned ([stub], [fc]))
    by (vm_compute; reflexivity).
  split; [exact Hrun |].
  destruct (@failure_context_is_stamped (fun _ _ => 0%Q)
              (example_world (Returned direct_customer) no_lines
                 (Returned None))
              empty_helper (py "PEDIDO") 7 (py "msg-7") [] [stub] [fc] fc
              Hrun (or_introl eq_refl))
    as (_ & Hon & Hid & _).
  split; [exact Hon | exact Hid].
Defined.

(** ** The scores of one pair *)

Section PairScoreFacts.

Lemma norm_distance_bounds (dist lensum : nat) :
  dist <= lensum -> (0 <= Fuzz.norm_distance dist lensum <= 100)%Q.
Proof.
  intros Hd. unfold Fuzz.norm_distance.
  destruct lensum as [| k]; [split; unfold Qle; simpl; lia |].
  unfold Qle, Qminus, Qplus, Qopp. cbn [Qnum Qden].
  rewrite Pos.mul_1_l.
  assert (Hp : Z.pos (Pos.of_nat (S k)) = Z.of_nat (S k))
    by (rewrite <- Pos.of_nat_succ, Zpos_P_of_succ_nat; lia).
  rewrite Hp. split; nia.
Qed.

Lemma Qmax3_bounds (x y z lo hi : Q) :
  (lo <= x <= hi)%Q -> (lo <= y <= hi)%Q -> (lo <= z <= hi)%Q ->
  (lo <= Fuzz.Qmax3 x y z <= hi)%Q.
Proof.
  intros Hx Hy Hz. unfold Fuzz.Qmax3. split.
  - apply Qle_trans with (Qmax x y); [| apply Q.le_max_l].
    apply Qle_trans with x; [tauto | apply Q.le_max_l].
  - repeat apply Q.max_lub; tauto.
Qed.

(** The token-set ratio is a percentage. *)
Lemma token_set_ratio_bounds (s1 s2 : str) :
  (0 <= Fuzz.token_set_ratio s1 s2 <= 100)%Q.
Proof.
  unfold Fuzz.token_set_ratio.
  destruct s1 as [| c1 s1]; [lra |]. destruct s2 as [| c2 s2]; [lra |].
  destruct (set_of (split (c1 :: s1))) as [| a ta]; [lra |].
  destruct (set_of (split (c2 :: s2))) as [| b tb]; [lra |].
  destruct (negb _ && _); [lra |].
  set (ab := join [32%N] (sort (set_diff (a :: ta) (b :: tb)))).
  set (ba := join [32%N] (sort (set_diff (b :: tb) (a :: ta)))).
  set (sect := List.length (join [32%N] (set_inter (a :: ta) (b :: tb)))).
  assert (Hdist : Fuzz.indel_distance ab ba <= List.length ab + List.length ba)
    by (unfold Fuzz.indel_distance; lia).
  destruct (Nat.eqb sect 0).
  - apply norm_distance_bounds. lia.
  - apply Qmax3_bounds; apply norm_distance_bounds; lia.
Qed.

Lemma boosted_range (text1 text2 : str) (keywords1 keywords2 : list str)
    (base_score : Q) :
  (0 <= base_score <= 1)%Q ->
  (base_score
   <= calculate_boosted_similarity text1 text2 keywords1 keywords2 base_score
   <= 1)%Q
  /\ (calculate_boosted_similarity text1 text2 keywords1 keywords2 base_score
      <= base_score + (15 # 100))%Q.
Proof.
  intros Hbase. unfold calculate_boosted_similarity.
  destruct keywords1 as [| k1 ks1]; [lra |].
  destruct keywords2 as [| k2 ks2]; [lra |].
  destruct (set_inter _ _) as [| m ms]; [lra |].
  set (boost := if Nat.eqb (List.length (m :: ms)) 1 then (10 # 100)%Q
                else (15 # 100)%Q).
  assert (Hboost : (0 <= boost <= 15 # 100)%Q)
    by (subst boost; destruct (Nat.eqb _ 1); lra).
  pose proof (Q.le_min_l (base_score + boost) 1).
  pose proof (Q.le_min_r (base_score + boost) 1).
  assert ((base_score <= Qmin (base_score + boost) 1)%Q)
    by (apply Q.min_glb; lra).
  lra.
Qed.

Lemma weighted_range (text1 text2 : str) (base_score : Q) :
  (0 <= base_score <= 1)%Q ->
  (0 <= calculate_weighted_token_similarity text1 text2 base_score <= 1)%Q
  /\ (base_score - (4 # 100)
      <= calculate_weighted_token_similarity text1 text2 base_score
      <= base_score + (6 # 100))%Q.
Proof.
  intros Hbase. unfold calculate_weighted_token_similarity.
  destruct (set_inter _ _) as [| c cs]; [lra |].
  set (common := c :: cs).
  set (surnames := count_in COMMON_SPANISH_SURNAMES common).
  set (given := count_in COMMON_SPANISH_GIVEN_NAMES common).
  pose proof (@capped_step_bounds surnames (3 # 100) (6 # 100)
                ltac:(lra) ltac:(lra)) as Hs.
  pose proof (@capped_step_bounds given (2 # 100) (4 # 100)
                ltac:(lra) ltac:(lra)) as Hg.
  set (boost := Qmin (inject_Z (Z.of_nat surnames) * (3 # 100)) (6 # 100)) in *.
  set (penalty := Qmin (inject_Z (Z.of_nat given) * (2 # 100)) (4 # 100)) in *.
  pose proof (Q.le_min_l (base_score + boost) 1).
  pose proof (Q.le_min_r (base_score + boost) 1).
  assert ((base_score <= Qmin (base_score + boost) 1)%Q)
    by (apply Q.min_glb; lra).
  pose proof (Q.le_max_l (base_score - penalty) 0).
  pose proof (Q.le_max_r (base_score - penalty) 0).
  assert ((Qmax (base_score - penalty) 0 <= base_score)%Q)
    by (apply Q.max_lub; lra).
  destruct (Nat.ltb 0 surnames); [lra |].
  destruct (Nat.ltb 0 given); lra.
Qed.

End PairScoreFacts.

(** X15: the three scores [fuzzy_match_customer] computes for one pair of
    names, for a Jaro-Winkler scorer with values between 0 and 1.  The base
    score is at least the token-set score and at most 1; below a token-set
    score of 0.70 it is the token-set score and the Jaro-Winkler scorer
    plays no part.  The final score lies between 0 and 1, at most 0.04 below
    and at most 0.15 above the base score, and the boost is their
    difference.  A pair of a personal and a business name gets the base
    score with a boost of 0; a pair of business names is never scored below
    its base score; a pair of personal names is raised by at most 0.06. *)
Theorem score_pair_bounds
    (jaro_winkler : str -> str -> Q)
    (potential_name_normalized : str) (potential_is_personal : bool)
    (potential_keywords : list str) (cached_data : cached_customer) :
  (forall a b, 0 <= jaro_winkler a b <= 1)%Q ->
  let token_score :=
    (Fuzz.token_set_ratio potential_name_normalized (cc_normalized cached_data)
     / 100)%Q in
  let scores :=
    score_pair jaro_winkler potential_name_normalized potential_is_personal
      potential_keywords cached_data in
  let final_score := fst (fst scores) in
  let base_score := snd (fst scores) in
  let boost := snd scores in
  (0 <= token_score <= base_score)%Q /\ (base_score <= 1)%Q
  /\ ((token_score < 70 # 100)%Q ->
      base_score = token_score
      /\ forall other_scorer,
           score_pair other_scorer potential_name_normalized
             potential_is_personal potential_keywords cached_data
           = scores)
  /\ (0 <= final_score <= 1)%Q
  /\ (base_score - (4 # 100) <= final_score <= base_score + (15 # 100))%Q
  /\ (boost == final_score - base_score)%Q
  /\ (potential_is_personal <> cc_is_personal cached_data ->
      final_score = base_score /\ boost = 0%Q)
  /\ (potential_is_personal = false -> cc_is_personal cached_data = false ->
      (base_score <= final_score)%Q)
  /\ (potential_is_personal = true -> cc_is_personal cached_data = true ->
      (final_score <= base_score + (6 # 100))%Q).
Proof.
  intros Hjw token_score scores final_score base_score boost.
  subst final_score base_score boost scores. unfold score_pair.
  fold token_score. unfold calculate_jaro_winkler_similarity.
  pose proof (token_set_ratio_bounds potential_name_normalized
                (cc_normalized cached_data)) as Hratio.
  assert (Htoken : (0 <= token_score <= 1)%Q).
  { subst token_score. unfold Qdiv. split.
    - apply Qmult_le_0_compat; [tauto | unfold Qle; simpl; lia].
    - setoid_replace 1%Q with (100 * / 100)%Q by reflexivity.
      apply Qmult_le_compat_r; [tauto | unfold Qle; simpl; lia]. }
  set (jaro := jaro_winkler potential_name_normalized
                 (cc_normalized cached_data)).
  pose proof (Hjw potential_name_normalized (cc_normalized cached_data))
    as Hjaro. fold jaro in Hjaro.
  set (base := if Qgeb token_score (70 # 100) then Qmax token_score jaro
               else token_score).
  assert (Hbase : (token_score <= base <= 1)%Q).
  { subst base. destruct (Qgeb token_score (70 # 100)); [| lra].
    split; [apply Q.le_max_l | apply Q.max_lub; lra]. }
  assert (Hlow : (token_score < 70 # 100)%Q ->
                 Qgeb token_score (70 # 100) = false).
  { intros Hlt. unfold Qgeb. destruct (Qle_bool _ _) eqn:E; [| reflexivity].
    apply Qle_bool_iff in E. lra. }
  pose proof (@boosted_range potential_name_normalized
                (cc_normalized cached_data) potential_keywords
                (cc_keywords cached_data) base ltac:(lra)) as Hboosted.
  pose proof (@weighted_range potential_name_normalized
                (cc_normalized cached_data) base ltac:(lra)) as Hweighted.
  split; [destruct potential_is_personal, (cc_is_personal cached_data);
          cbn [andb negb fst snd]; lra |].
  split; [destruct potential_is_personal, (cc_is_personal cached_data);
          cbn [andb negb fst snd]; lra |].
  split.
  { intros Hlt. split.
    - subst base. rewrite (Hlow Hlt).
      destruct potential_is_personal, (cc_is_personal cached_data);
        reflexivity.
    - intros other. unfold score_pair, calculate_jaro_winkler_similarity.
      fold token_score. subst base. rewrite (Hlow Hlt). reflexivity. }
  destruct potential_is_personal, (cc_is_personal cached_data);
    cbn [andb negb fst snd];
    (split; [lra |]); (split; [lra |]); (split; [ring |]);
    (split; [intros Hne; try (exfalso; apply Hne; reflexivity);
             split; reflexivity |]);
    (split; [intros Hp Hd; try discriminate; lra
            | intros Hp Hd; try discriminate; lra]).
Qed.

(** Two business names with token-set score 0.5: the Jaro-Winkler scorer is
    not consulted. *)
Lemma score_pair_bounds_witness :
  score_pair (fun _ _ => 1%Q) (py "ab cd") false []
    (cache_entry_of (py "AB EF"))
  = score_pair (fun _ _ => 0%Q) (py "ab cd") false []
      (cache_entry_of (py "AB EF")).
Proof.
  destruct (@score_pair_bounds (fun _ _ => 0%Q) (py "ab cd") false []
              (cache_entry_of (py "AB EF")))
    as (_ & _ & Hlow & _); [intros; lra |].
  apply Hlow. vm_compute. reflexivity.
Defined.

(** ** The errors of the valve sub-agent *)

Section ValveErrorFacts.

Lemma validate_valves_hashable (valves : list json) :
  forallb hashable valves = true ->
  validate_valves valves = Returned (List.map kept_valve valves).
Proof.
  induction valves as [| v rest IH]; simpl; intros H; [reflexivity |].
  apply andb_true_iff in H. destruct H as [Hv Hrest].
  rewrite (IH Hrest).
  destruct v; try discriminate Hv; reflexivity.
Qed.

Lemma validate_valves_unhashable (valves : list json) :
  forallb hashable valves = false ->
  exists e, validate_valves valves = Raised e.
Proof.
  induction valves as [| v rest IH]; simpl; intros H; [discriminate |].
  apply andb_false_iff in H.
  destruct v; simpl in *;
    try (eexists; reflexivity);
    (destruct H as [H | H]; [discriminate |]);
    destruct (IH H) as (e & ->); eexists; reflexivity.
Qed.

Lemma forallb_hashable_sized (valves : list json) (n : nat) :
  forallb hashable (sized valves n) = forallb hashable (firstn n valves).
Proof.
  unfold sized.
  destruct (Nat.eqb_spec (List.length valves) n) as [E | Hne]; simpl.
  - rewrite <- E, firstn_all. reflexivity.
  - destruct (Nat.ltb_spec (List.length valves) n) as [Hlt | Hge];
      [| reflexivity].
    rewrite forallb_app, firstn_all2 by lia.
    assert (Hpad : forall k, forallb hashable (repeat (JStr no_valve) k) = true)
      by (induction k; simpl; auto).
    rewrite Hpad. apply andb_true_r.
Qed.

Lemma kept_valve_defaults (k : nat) :
  List.map kept_valve (repeat (JStr no_valve) k) = repeat (py "no") k.
Proof.
  assert (Hno : kept_valve (JStr no_valve) = py "no")
    by (vm_compute; reflexivity).
  induction k as [| k IH]; [reflexivity |].
  cbn [repeat List.map]. rewrite Hno, IH. reflexivity.
Qed.

End ValveErrorFacts.

(** X16: [detect_valve_request] reports an error in two cases only: the
    call of the oracle raised, or the answer is a list with a list or a dict
    among its first [num_order_lines] elements, which the membership test
    cannot hash.  In both cases every line gets "no".  An element beyond
    [num_order_lines] is cut before the validation and never causes an
    error; an answer without the key, or with a value that is not a list,
    gives "no" for every line without error. *)
Theorem detect_valve_request_error_cases
    (response : outcome (option json)) (num_order_lines : nat) :
  let result := detect_valve_request response num_order_lines in
  (vr_error result <> None
   <-> (exists e, response = Raised e)
       \/ exists items, response = Returned (Some (JArr items))
                        /\ forallb hashable (firstn num_order_lines items)
                           = false)
  /\ (vr_error result <> None ->
      vr_valves result = repeat (py "no") num_order_lines)
  /\ (forall e, response = Raised e -> vr_error result = Some e)
  /\ (forall found,
         response = Returned found ->
         (forall items, found <> Some (JArr items)) ->
         vr_error result = None
         /\ vr_valves result = repeat (py "no") num_order_lines).
Proof.
  intros result. subst result. unfold detect_valve_request.
  destruct response as [found | e].
  2:{ cbn. split; [split; [intros _; left; eexists; reflexivity
                          | intros _; discriminate] |].
      split; [reflexivity |]. split; [intros e' E; inversion E; reflexivity |].
      intros found E. discriminate E. }
  fold (sized match found with
              | Some (JArr items) => items
              | Some _ => repeat (JStr no_valve) num_order_lines
              | None => []
              end num_order_lines).
  set (valves := match found with
                 | Some (JArr items) => items
                 | Some _ => repeat (JStr no_valve) num_order_lines
                 | None => []
                 end).
  assert (Hother : (forall items, found <> Some (JArr items)) ->
                   forallb hashable (firstn num_order_lines valves) = true).
  { intros Hnot. subst valves.
    assert (Hpad : forall k m,
               forallb hashable (firstn m (repeat (JStr no_valve) k)) = true).
    { induction k; destruct m; simpl; auto. }
    destruct found as [[] |]; try apply Hpad;
      [exfalso; eapply Hnot; reflexivity | destruct num_order_lines; reflexivity]. }
  destruct (forallb hashable (firstn num_order_lines valves)) eqn:Eh.
  - rewrite (@validate_valves_hashable (sized valves num_order_lines))
      by (rewrite forallb_hashable_sized; exact Eh).
    cbn [vr_error vr_valves].
    split; [split; [intros Habs; exfalso; apply Habs; reflexivity |] |].
    { intros [(e & E) | (items & E & Hun)]; [discriminate E |].
      inversion E; subst found. subst valves. cbn in Eh. congruence. }
    split; [intros Habs; exfalso; apply Habs; reflexivity |].
    split; [intros e E; discriminate E |].
    intros found' E Hnot. inversion E; subst found'.
    split; [reflexivity |].
    subst valves. destruct found as [[] |];
      try (unfold sized; rewrite repeat_length, Nat.eqb_refl; cbn [negb];
           apply kept_valve_defaults).
    + exfalso. eapply Hnot. reflexivity.
    + unfold sized. cbn [List.length].
      destruct num_order_lines as [| k]; [reflexivity |].
      cbn [Nat.eqb negb Nat.ltb Nat.leb app Nat.sub].
      apply (kept_valve_defaults (S k)).
  - destruct (@validate_valves_unhashable (sized valves num_order_lines))
      as (e & ->); [rewrite forallb_hashable_sized; exact Eh |].
    cbn [vr_error vr_valves].
    split; [split; [intros _ | intros _; discriminate] |].
    { right. destruct found as [[] |] eqn:Ef;
        try (exfalso; assert (Habs : false = true)
               by (apply Hother; intros; discriminate); discriminate Habs).
      eexists. split; [reflexivity | exact Eh]. }
    split; [reflexivity |]. split; [intros e' E; discriminate E |].
    intros found' E Hnot. inversion E; subst found'.
    discriminate (Hother Hnot).
Qed.

(** One line and an answer of two elements, the second a list: the second
    element is cut, no error is reported. *)
Lemma detect_valve_request_error_cases_witness :
  vr_error (detect_valve_request
              (Returned (Some (JArr [JStr (py "Yes"); JArr []]))) 1)
  = None.
Proof.
  destruct (vr_error (detect_valve_request
                        (Returned (Some (JArr [JStr (py "Yes"); JArr []]))) 1))
    as [e |] eqn:E; [| reflexivity].
  exfalso.
  destruct (proj1 (proj1 (@detect_valve_request_error_cases
                            (Returned (Some (JArr [JStr (py "Yes"); JArr []])))
                            1)))
    as [(e' & He) | (items & Hi & Hun)].
  - rewrite E. discriminate.
  - discriminate He.
  - inversion Hi; subst items. vm_compute in Hun. discriminate Hun.
Defined.

(** ** The dimensions [construct_sku] accepts *)

Section SkuRangeFacts.

Lemma digits_from_length_acc (fuel : nat) :
  forall n acc,
    (List.length acc <= List.length (digits_from fuel n acc))%nat.
Proof.
  induction fuel as [| fuel IH]; intros n acc; cbn [digits_from];
    [apply Nat.le_refl |].
  destruct (n / 10 =? 0)%N; [simpl; lia |].
  eapply Nat.le_trans; [| apply IH]. simpl. lia.
Qed.

Lemma size_nat_ge_4 (n : N) : (8 <= n)%N -> (4 <= N.size_nat n)%nat.
Proof.
  intros Hn.
  destruct n as [| p]; [lia |].
  destruct p as [[[p | p |] | [p | p |] |] | [[p | p |] | [p | p |] |] |];
    try lia; cbn [N.size_nat Pos.size_nat]; destruct p; simpl; lia.
Qed.

(** A number of three digits or more, and of four digits or more. *)
Lemma str_of_N_length_3 (n : N) :
  (100 <= n)%N -> (3 <= List.length (str_of_N n))%nat.
Proof.
  intros Hn. unfold str_of_N.
  pose proof (@size_nat_ge_4 n ltac:(lia)) as Hsize.
  destruct (N.size_nat n) as [| [| f]]; try lia.
  assert (H1 : (10 <= n / 10)%N) by (apply N.div_le_lower_bound; lia).
  assert (H2 : (1 <= n / 10 / 10)%N) by (apply N.div_le_lower_bound; lia).
  cbn [digits_from].
  destruct (N.eqb_spec (n / 10) 0) as [E | _]; [lia |].
  destruct (N.eqb_spec (n / 10 / 10) 0) as [E | _]; [lia |].
  destruct (n / 10 / 10 / 10 =? 0)%N; [simpl; lia |].
  eapply Nat.le_trans; [| apply digits_from_length_acc]. simpl. lia.
Qed.

Lemma str_of_N_length_4 (n : N) :
  (1000 <= n)%N -> (4 <= List.length (str_of_N n))%nat.
Proof.
  intros Hn. unfold str_of_N.
  pose proof (@size_nat_ge_4 n ltac:(lia)) as Hsize.
  destruct (N.size_nat n) as [| [| [| f]]]; try lia.
  assert (H1 : (100 <= n / 10)%N) by (apply N.div_le_lower_bound; lia).
  assert (H2 : (10 <= n / 10 / 10)%N) by (apply N.div_le_lower_bound; lia).
  assert (H3 : (1 <= n / 10 / 10 / 10)%N)
    by (apply N.div_le_lower_bound; lia).
  cbn [digits_from].
  destruct (N.eqb_spec (n / 10) 0) as [E | _]; [lia |].
  destruct (N.eqb_spec (n / 10 / 10) 0) as [E | _]; [lia |].
  destruct (N.eqb_spec (n / 10 / 10 / 10) 0) as [E | _]; [lia |].
  destruct (n / 10 / 10 / 10 / 10 =? 0)%N; [simpl; lia |].
  eapply Nat.le_trans; [| apply digits_from_length_acc]. simpl. lia.
Qed.

(** [zfill] pads to the width and never shortens. *)
Lemma zfill_length (width : nat) (s : str) :
  List.length (zfill width s) = Nat.max width (List.length s).
Proof.
  unfold zfill.
  destruct s as [| c rest]; [rewrite repeat_length; cbn [List.length]; lia |].
  destruct ((c =? 43)%N || (c =? 45)%N);
    cbn [List.length]; rewrite length_app, repeat_length; cbn [List.length];
    unfold char; lia.
Qed.

(** The integers [str] writes with three characters or less. *)
Lemma str_of_int_short (d : Z) :
  (List.length (str_of_int d) <= 3)%nat <-> (-99 <= d <= 999)%Z.
Proof.
  split.
  - intros Hlen.
    destruct (Z_lt_le_dec 999 d) as [Hbig |].
    { exfalso. unfold str_of_int in Hlen.
      destruct (Z.ltb_spec d 0); [lia |].
      pose proof (@str_of_N_length_4 (Z.to_N d) ltac:(lia)). lia. }
    destruct (Z_lt_le_dec d (-99)) as [Hsmall |]; [| lia].
    exfalso. unfold str_of_int in Hlen.
    destruct (Z.ltb_spec d 0); [| lia].
    pose proof (@str_of_N_length_3 (Z.abs_N d) ltac:(lia)).
    cbn [List.length] in Hlen. lia.
  - intros Hd.
    assert (Hall : forallb
              (fun n => Nat.leb (List.length (str_of_int (Z.of_nat n - 99))) 3)
              (seq 0 1099) = true) by (vm_compute; reflexivity).
    rewrite forallb_forall in Hall.
    specialize (Hall (Z.to_nat (d + 99))).
    replace (Z.of_nat (Z.to_nat (d + 99)) - 99)%Z with d in Hall by lia.
    apply Nat.leb_le, Hall, in_seq. lia.
Qed.

End SkuRangeFacts.

(** X17: for a family code of 3 characters and a colour code of 4,
    [construct_sku] returns a SKU exactly when both dimensions lie between
    -99 and 999: a dimension of four digits makes the text longer than 13
    characters and the function returns [None], whereas a negative dimension
    down to -99 is accepted and written with its sign
    ([construct_sku("NAT", -5, 80, "BLCO")] is ["NAT080-05BLCO"]).  Whatever
    the codes, a SKU that is returned has 13 characters. *)
Theorem construct_sku_defined_range
    (family_prefix : str) (length width : Z) (color_code : str) :
  (forall sku,
      construct_sku family_prefix length width color_code = Some sku ->
      List.length sku = 13%nat)
  /\ (List.length family_prefix = 3%nat -> List.length color_code = 4%nat ->
      (construct_sku family_prefix length width color_code <> None
       <-> (-99 <= length <= 999)%Z /\ (-99 <= width <= 999)%Z)).
Proof.
  split.
  - intros sku. unfold construct_sku.
    destruct (width >? length)%Z;
      match goal with
      | |- (if Nat.eqb ?n 13 then _ else _) = _ -> _ =>
          destruct (Nat.eqb_spec n 13) as [E | _];
          [intros H; inversion H; subst; exact E | discriminate]
      end.
  - intros Hf Hc.
    pose proof (str_of_int_short length) as Hl.
    pose proof (str_of_int_short width) as Hw.
    unfold construct_sku.
    destruct (width >? length)%Z;
      rewrite !length_app, !zfill_length, Hf, Hc;
      match goal with
      | |- (if Nat.eqb ?n 13 then _ else _) <> None <-> _ =>
          destruct (Nat.eqb_spec n 13) as [E | E]
      end;
      (split; [intros H; try (exfalso; apply H; reflexivity) | intros H;
               try discriminate]); lia.
Qed.

(** A negative dimension is written with its sign. *)
Lemma construct_sku_defined_range_witness :
  construct_sku (py "NAT") (-5) 80 (py "BLCO") = Some (py "NAT080-05BLCO")
  /\ construct_sku (py "NAT") (-5) 80 (py "BLCO") <> None.
Proof.
  split; [vm_compute; reflexivity |].
  apply (proj2 (@construct_sku_defined_range (py "NAT") (-5) 80 (py "BLCO")));
    [reflexivity | reflexivity | lia].
Defined.

(** ** The white space of a normalised business name *)

Section WhiteSpaceFacts.

(** The pattern [\s+] at the head of a text: it matches the longest run of
    white space, and nothing when the text does not start with one. *)
Lemma match_here_spaces (s : str) (prev : option char) :
  match s with
  | c :: s' =>
      if isspace c
      then exists p, Re.match_here [Re.plus isspace] prev s
                     = Some (p, lstrip s')
      else Re.match_here [Re.plus isspace] prev s = None
  | [] => Re.match_here [Re.plus isspace] prev s = None
  end.
Proof.
  unfold Re.match_here, Re.plus.
  match goal with
  | |- context [?f O prev s] =>
      match type of f with
      | nat -> option char -> str -> _ => set (rep := f)
      end
  end.
  assert (Hstep : forall n p c t,
             rep n p (c :: t)
             = if isspace c && Re.below n None
               then match rep (S n) (Some c) t with
                    | Some m => Some m
                    | None => if Nat.leb 1 n then Some (p, c :: t) else None
                    end
               else if Nat.leb 1 n then Some (p, c :: t) else None)
    by reflexivity.
  assert (Hnil : forall n p,
             rep n p [] = if Nat.leb 1 n then Some (p, []) else None)
    by reflexivity.
  clearbody rep.
  assert (Hrep : forall t n p,
             exists q, rep (S n) p t = Some (q, lstrip t)).
  { induction t as [| c t IH]; intros n p.
    - exists p. rewrite Hnil. reflexivity.
    - rewrite Hstep. cbn [lstrip Re.below].
      destruct (isspace c) eqn:Ec; cbn [andb].
      + destruct (IH (S n) (Some c)) as (q & ->). exists q. reflexivity.
      + exists p. reflexivity. }
  destruct s as [| c s']; [apply Hnil |].
  rewrite Hstep. cbn [Re.below].
  destruct (isspace c) eqn:Ec; cbn [andb]; [| reflexivity].
  destruct (Hrep s' O (Some c)) as (q & ->). exists q. reflexivity.
Qed.

Lemma lstrip_length (s : str) : (List.length (lstrip s) <= List.length s)%nat.
Proof.
  induction s as [| c s IH]; simpl; [lia |].
  destruct (isspace c); simpl; lia.
Qed.

Lemma collapse_from_lstrip (s : str) :
  collapse_from true s = collapse_from false (lstrip s).
Proof.
  induction s as [| c s IH]; [reflexivity |].
  cbn [collapse_from lstrip]. destruct (isspace c) eqn:Ec; [exact IH |].
  cbn [collapse_from]. rewrite Ec. reflexivity.
Qed.

(** [re.sub(r'\s+', ' ', s)]. *)
Lemma sub_spaces (fuel : nat) :
  forall s prev,
    (List.length s <= fuel)%nat ->
    Re.sub_from fuel [Re.plus isspace] [space] prev s = collapse_from false s.
Proof.
  induction fuel as [| fuel IH]; intros s prev Hlen.
  - destruct s; [reflexivity | simpl in Hlen; lia].
  - destruct s as [| c s']; [reflexivity |].
    cbn [Re.sub_from collapse_from].
    pose proof (match_here_spaces (c :: s') prev) as Hm. cbn beta iota in Hm.
    cbn [List.length] in Hlen.
    destruct (isspace c) eqn:Ec.
    + destruct Hm as (p & ->).
      pose proof (lstrip_length s') as Hls.
      replace (Nat.ltb (List.length (lstrip s')) (List.length (c :: s')))
        with true
        by (symmetry; apply Nat.ltb_lt; cbn [List.length]; lia).
      rewrite IH by lia. rewrite collapse_from_lstrip. reflexivity.
    + rewrite Hm. rewrite IH by lia. reflexivity.
Qed.

Lemma collapse_tidy (s : str) :
  forall in_run, tidy_from in_run (collapse_from in_run s) = true.
Proof.
  induction s as [| c s IH]; intros in_run; [reflexivity |].
  cbn [collapse_from]. destruct (isspace c) eqn:Ec.
  - destruct in_run; [apply IH |].
    cbn [tidy_from]. replace (isspace space) with true by reflexivity.
    rewrite N.eqb_refl. cbn [andb negb]. apply IH.
  - cbn [tidy_from]. rewrite Ec. apply IH.
Qed.

Lemma tidy_weaken (s : str) :
  tidy_from true s = true -> tidy_from false s = true.
Proof.
  destruct s as [| c s]; [reflexivity |]. cbn [tidy_from].
  destruct (isspace c); [| tauto].
  rewrite andb_false_r. discriminate.
Qed.

Lemma lstrip_tidy (s : str) :
  tidy_from false s = true -> tidy_from true (lstrip s) = true.
Proof.
  destruct s as [| c s]; [reflexivity |]. cbn [tidy_from lstrip].
  destruct (isspace c) eqn:Ec.
  - intros H. apply andb_true_iff in H. destruct H as [_ H].
    destruct s as [| d s]; [reflexivity |].
    cbn [tidy_from lstrip] in *. destruct (isspace d) eqn:Ed.
    + rewrite andb_false_r in H. discriminate.
    + cbn [tidy_from]. rewrite Ed. exact H.
  - intros H. cbn [tidy_from]. rewrite Ec. exact H.
Qed.

Lemma lstrip_app (a b : str) :
  lstrip (a ++ b)
  = match lstrip a with [] => lstrip b | _ => lstrip a ++ b end.
Proof.
  induction a as [| c a IH]; [reflexivity |].
  cbn [app lstrip]. destruct (isspace c); [exact IH | reflexivity].
Qed.

Lemma rstrip_cons (c : char) (s : str) :
  rstrip (c :: s)
  = match rstrip s with
    | [] => if isspace c then [] else [c]
    | r => c :: r
    end.
Proof.
  unfold rstrip. cbn [rev]. rewrite lstrip_app.
  destruct (lstrip (rev s)) as [| d l] eqn:E.
  - cbn [lstrip rev]. destruct (isspace c); reflexivity.
  - cbn [rev]. rewrite rev_app_distr. cbn [rev app].
    destruct (rev l ++ [d]) as [| x r] eqn:Er; [| reflexivity].
    destruct (rev l); discriminate.
Qed.

Lemma rstrip_words (s : str) :
  forall after_space,
    tidy_from after_space s = true ->
    rstrip s = [] \/ words_from after_space (rstrip s) = true.
Proof.
  induction s as [| c s IH]; intros after_space Htidy; [left; reflexivity |].
  rewrite rstrip_cons. cbn [tidy_from] in Htidy.
  destruct (isspace c) eqn:Ec.
  - apply andb_true_iff in Htidy. destruct Htidy as [Hc Htidy].
    destruct (IH true Htidy) as [-> | Hw]; [left; reflexivity |].
    destruct (rstrip s) as [| d r]; [discriminate Hw |].
    right. cbn [words_from]. rewrite Ec, Hc. exact Hw.
  - right. destruct (IH false Htidy) as [-> | Hw].
    + cbn [words_from]. rewrite Ec. reflexivity.
    + destruct (rstrip s) as [| d r]; cbn [words_from]; rewrite Ec;
        [reflexivity | exact Hw].
Qed.

(** A text of words separated by single spaces is the join of its words. *)
Lemma words_join_split (s : str) :
  forall cur,
    Forall (fun c => isspace c = false) cur ->
    words_from (Fuzz.is_nil cur) s = true ->
    join [space] (split_from cur s) = rev cur ++ s.
Proof.
  induction s as [| c s IH]; intros cur Hcur Hw.
  - destruct cur as [| c0 cur0]; [discriminate Hw |].
    cbn [split_from join]. rewrite app_nil_r. reflexivity.
  - cbn [words_from] in Hw. cbn [split_from].
    destruct (isspace c) eqn:Ec.
    + apply andb_true_iff in Hw. destruct Hw as [Hc Hw].
      apply andb_true_iff in Hc. destruct Hc as [Hc Hcur0].
      apply N.eqb_eq in Hc. subst c.
      destruct cur as [| c0 cur0]; [discriminate Hcur0 |].
      pose proof (IH [] (Forall_nil _) Hw) as Hrest. cbn [rev app] in Hrest.
      destruct (split_from [] s) as [| t ts] eqn:Es.
      * cbn [join] in Hrest. subst s. discriminate Hw.
      * change (join [space] (rev (c0 :: cur0) :: t :: ts))
          with (rev (c0 :: cur0) ++ [space] ++ join [space] (t :: ts)).
        rewrite Hrest. reflexivity.
    + rewrite IH; [| constructor; assumption | exact Hw].
      cbn [rev]. rewrite <- app_assoc. reflexivity.
Qed.

Lemma In_lstrip (x : char) (s : str) : In x (lstrip s) -> In x s.
Proof.
  induction s as [| c s IH]; [tauto |]. cbn [lstrip].
  destruct (isspace c); [right; apply IH; assumption | tauto].
Qed.

Lemma In_strip (x : char) (s : str) : In x (strip s) -> In x s.
Proof.
  unfold strip, rstrip. intros H.
  apply In_lstrip. apply in_rev. apply In_lstrip. apply in_rev in H. exact H.
Qed.

Lemma In_collapse (x : char) (s : str) :
  forall in_run, In x (collapse_from in_run s) -> x = space \/ In x s.
Proof.
  induction s as [| c s IH]; intros in_run; [tauto |].
  cbn [collapse_from].
  destruct (isspace c), in_run; cbn [In]; intros H;
    repeat match goal with
           | H : _ \/ _ |- _ => destruct H as [H | H]
           end;
    try (apply IH in H; tauto); auto.
Qed.

End WhiteSpaceFacts.

(** X18: a normalised business name is made of words separated by single
    spaces: it is equal to the join, with one space, of the words
    [str.split()] finds in it, so it has no white space at either end, no
    white space other than the space character and no two spaces in a row;
    and it holds no comma. *)
Theorem normalize_business_name_single_spaced (text : str) :
  normalize_business_name text
  = join [space] (split (normalize_business_name text))
  /\ ~ In comma (normalize_business_name text).
Proof.
  unfold normalize_business_name.
  set (replaced := replace_char comma space _).
  unfold Re.sub. rewrite sub_spaces by apply Nat.le_refl.
  split.
  - unfold strip.
    pose proof (@lstrip_tidy (collapse_from false replaced)
                  (@collapse_tidy replaced false)) as Htidy.
    destruct (@rstrip_words (lstrip (collapse_from false replaced)) true Htidy)
      as [-> | Hw]; [reflexivity |].
    symmetry.
    apply (@words_join_split (rstrip (lstrip (collapse_from false replaced)))
             [] (Forall_nil _) Hw).
  - intros Hin. apply In_strip, In_collapse in Hin.
    destruct Hin as [Hin | Hin]; [discriminate Hin |].
    subst replaced. unfold replace_char in Hin.
    apply in_map_iff in Hin. destruct Hin as (c & Hc & _).
    destruct (N.eqb_spec c comma) as [_ | Hne]; [discriminate Hc |].
    apply Hne. exact Hc.
Qed.
